(** * PixLab: colour utilities, palette extraction, grid history

    A shallow embedding of the JavaScript sources of the repository
    (js/colorUtils2.js, the two revisions of the colour utilities kept
    in the unnamed source part 002, js/colorPalette.js, js/gemGrid.js,
    js/hexGrid.js, the HexGrid of the unnamed source part 001,
    js/imageProcessing.js, js/appGem.js) together with the properties the
    specification states about them and further properties of the code.

    Conventions of the embedding.
    - A JavaScript string is a [string] of ASCII code units.
    - A JavaScript number that holds an integer is a [Z]; the places where
      the source leaves the integers (NaN, Infinity, rounding of a parsed
      literal to a double) are written out in [Js.number].
    - A plain object used as a dictionary is an association list in
      enumeration order; [Js.set] updates a key in place or appends it.
    - [undefined] is [None]; a call that throws returns [None], or, where
      it leaves a changed state behind, [Throw] of that state.
    - A loop that may run for ever takes the number of passes it may make;
      that it never returns is the statement that no number is enough. *)

From Stdlib Require Import ZArith List String Ascii Bool Lia Permutation Sorted.
From Stdlib Require Import DecimalString.
Import ListNotations.

Open Scope Z_scope.

(* ================================================================== *)
(** ** JavaScript primitives used by the sources *)
(* ================================================================== *)

Module Js.

(** Values of the Number type that the sources can produce from a parse:
    an integer-valued double, an infinity, or NaN. *)
Inductive number : Type :=
| NaN : number
| Infinity (negative : bool) : number
| Num (z : Z) : number.

Definition code (c : ascii) : Z := Z.of_nat (nat_of_ascii c).

(** StrWhiteSpaceChar restricted to ASCII: the white space that
    [parseInt] skips on a text of ASCII characters. *)
Definition isWhiteSpace (c : ascii) : bool :=
  let n := code c in
  ((9 <=? n) && (n <=? 13)) || (n =? 32).

Fixpoint trimStart (s : string) : string :=
  match s with
  | EmptyString => EmptyString
  | String c s' => if isWhiteSpace c then trimStart s' else s
  end.

(** Value of a radix-16 digit, either case. *)
Definition hexDigitValue (c : ascii) : option Z :=
  let n := code c in
  if (48 <=? n) && (n <=? 57) then Some (n - 48)
  else if (65 <=? n) && (n <=? 70) then Some (n - 55)
  else if (97 <=? n) && (n <=? 102) then Some (n - 87)
  else None.

(** The mathematical value of the longest prefix of radix-16 digits. *)
Fixpoint parseDigits (s : string) (acc : Z) : Z :=
  match s with
  | EmptyString => acc
  | String c s' =>
      match hexDigitValue c with
      | Some d => parseDigits s' (16 * acc + d)
      | None => acc
      end
  end.

(** Rounding of a non-negative integer to the nearest double, ties to
    even; [None] when the result overflows to Infinity. *)
Definition roundToDouble (n : Z) : option Z :=
  if n <? 2 ^ 53 then Some n
  else
    let e := Z.log2 n - 52 in
    let q := n / 2 ^ e in
    let r := n mod 2 ^ e in
    let half := 2 ^ (e - 1) in
    let q' := if r <? half then q
              else if half <? r then q + 1
              else if Z.even q then q else q + 1 in
    let v := q' * 2 ^ e in
    if 2 ^ 1024 <=? v then None else Some v.

(** The sign that [parseInt] reads and the text after it. *)
Definition signOf (s : string) : bool * string :=
  match s with
  | String c rest =>
      if Ascii.eqb c "-" then (true, rest)
      else if Ascii.eqb c "+" then (false, rest)
      else (false, s)
  | EmptyString => (false, s)
  end.

(** The text after an optional [0x] or [0X]. *)
Definition stripPrefix (s : string) : string :=
  match s with
  | String c (String x rest) =>
      if Ascii.eqb c "0" && (Ascii.eqb x "x" || Ascii.eqb x "X")
      then rest else s
  | _ => s
  end.

(** [parseInt(s, 16)]: leading white space, an optional sign, an optional
    [0x] prefix, then the longest run of hex digits; NaN when that run is
    empty. *)
Definition parseInt16 (s : string) : number :=
  let s1 := trimStart s in
  let '(neg, s2) := signOf s1 in
  let s3 := stripPrefix s2 in
  match s3 with
  | EmptyString => NaN
  | String c _ =>
      match hexDigitValue c with
      | None => NaN
      | Some _ =>
          match roundToDouble (parseDigits s3 0) with
          | Some v => Num (if neg then - v else v)
          | None => Infinity neg
          end
      end
  end.

(** ToInt32: NaN and the infinities give 0, an integer wraps modulo 2^32
    into the signed range. *)
Definition toInt32 (x : number) : Z :=
  match x with
  | Num z => let m := z mod 2 ^ 32 in if 2 ^ 31 <=? m then m - 2 ^ 32 else m
  | _ => 0
  end.

(** [x >> n] on a number; [x & 255] of the sources is [Z.land] of the
    32-bit value with 255. *)
Definition sar (x : number) (n : Z) : Z := Z.shiftr (toInt32 x) n.
(** [x << n] wraps to 32 bits. *)
Definition shl (x n : Z) : Z := toInt32 (Num (Z.shiftl (toInt32 (Num x)) n)).

Definition hexDigitChar (d : Z) : ascii :=
  nth (Z.to_nat d)
      ["0"; "1"; "2"; "3"; "4"; "5"; "6"; "7"; "8"; "9";
       "a"; "b"; "c"; "d"; "e"; "f"]%char "0"%char.

Fixpoint hexDigitsFuel (fuel : nat) (n : Z) (acc : string) : string :=
  match fuel with
  | O => acc
  | S f =>
      let acc' := String (hexDigitChar (n mod 16)) acc in
      if n <? 16 then acc' else hexDigitsFuel f (n / 16) acc'
  end.

(** [Number.prototype.toString(16)] on an integer. *)
Definition toString16 (v : Z) : string :=
  let digits n := hexDigitsFuel (S (Z.to_nat (Z.log2 n))) n EmptyString in
  if v <? 0 then String "-"%char (digits (- v)) else digits v.

(** [String.prototype.toUpperCase] on a text of ASCII characters (codes
    below 128), where it maps [a-z] to [A-Z] and nothing else. *)
Definition upperChar (c : ascii) : ascii :=
  let n := code c in
  if (97 <=? n) && (n <=? 122) then ascii_of_nat (Z.to_nat (n - 32)) else c.

Fixpoint toUpperCase (s : string) : string :=
  match s with
  | EmptyString => EmptyString
  | String c s' => String (upperChar c) (toUpperCase s')
  end.

(** [s.slice(1)]. *)
Definition slice1 (s : string) : string :=
  match s with
  | EmptyString => EmptyString
  | String _ s' => s'
  end.

(** [s.replace(/^#/, '')]. *)
Definition stripHash (s : string) : string :=
  match s with
  | String "#"%char s' => s'
  | _ => s
  end.

(** [arr.slice(0, e)]: a negative end counts from the end of the array. *)
Definition slice0 {A} (e : Z) (l : list A) : list A :=
  if e <? 0 then firstn (Z.to_nat (Z.max (Z.of_nat (List.length l) + e) 0)) l
  else firstn (Z.to_nat e) l.

(** *** Stable sorting with a comparator

    [Array.prototype.sort] is stable; with a consistent comparator every
    stable sort returns the same array, here written as insertion from the
    right. *)
Section Sort.

Context {A : Type} (cmp : A -> A -> Z).

Fixpoint insert (x : A) (l : list A) : list A :=
  match l with
  | [] => [x]
  | y :: ys => if cmp x y <=? 0 then x :: y :: ys else y :: insert x ys
  end.

Definition sort (l : list A) : list A := fold_right insert [] l.

End Sort.

(** *** Plain objects as dictionaries

    The properties of an object literal, in the order of their creation.
    [get] and [set] read and write own properties: they are [o[k]] and
    [o[k] = v] of the source for every key that is no name of a member of
    [Object.prototype], such as the cell keys [col,row] and the colour
    texts that begin with [#]. *)
Definition obj (V : Type) : Type := list (string * V).

Fixpoint get {V} (o : obj V) (k : string) : option V :=
  match o with
  | [] => None
  | (k', v) :: o' => if String.eqb k k' then Some v else get o' k
  end.

Fixpoint set {V} (o : obj V) (k : string) (v : V) : obj V :=
  match o with
  | [] => [(k, v)]
  | (k', v') :: o' =>
      if String.eqb k k' then (k', v) :: o' else (k', v') :: set o' k v
  end.

(** [s.add(x)] on a Set, kept in insertion order. *)
Definition setAdd (s : list string) (x : string) : list string :=
  if existsb (String.eqb x) s then s else s ++ [x].

(** [o[k] || 0] on a dictionary of numbers. *)
Definition getOr0 (o : obj Z) (k : string) : Z :=
  match get o k with Some n => n | None => 0 end.

(** A property key is an array index when it is the canonical decimal
    form of an integer below 2^32 - 1; such keys are enumerated first, in
    ascending order, before the other keys in insertion order. *)
Definition isDecDigit (c : ascii) : bool :=
  let n := code c in (48 <=? n) && (n <=? 57).

Fixpoint decValue (s : string) (acc : Z) : option Z :=
  match s with
  | EmptyString => Some acc
  | String c s' =>
      if isDecDigit c then decValue s' (10 * acc + (code c - 48)) else None
  end.

Definition arrayIndex (s : string) : option Z :=
  match s with
  | EmptyString => None
  | String "0"%char EmptyString => Some 0
  | String "0"%char _ => None
  | _ => match decValue s 0 with
         | Some n => if n <? 2 ^ 32 - 1 then Some n else None
         | None => None
         end
  end.

Definition isIndexKey {V} (kv : string * V) : bool :=
  match arrayIndex (fst kv) with Some _ => true | None => false end.

Definition indexOf {V} (kv : string * V) : Z :=
  match arrayIndex (fst kv) with Some n => n | None => 0 end.

(** [Object.entries(o)] for an object whose properties were created in the
    order of the list. *)
Definition entries {V} (o : obj V) : list (string * V) :=
  sort (fun a b => indexOf a - indexOf b) (filter isIndexKey o)
  ++ filter (fun kv => negb (isIndexKey kv)) o.

Definition keys {V} (o : obj V) : list string := map fst (entries o).
Definition values {V} (o : obj V) : list V := map snd (entries o).

End Js.

(* ================================================================== *)
(** ** Colours: the codec shared by every revision of ColorUtils *)
(* ================================================================== *)

Record rgb : Type := RGB { r : Z; g : Z; b : Z }.

Module ColorUtils.

(** [rgbToHex(r, g, b)], js/colorUtils2.js lines 14-16. *)
Definition rgbToHex (r g b : Z) : string :=
  String "#"%char
    (Js.toUpperCase
       (Js.slice1
          (Js.toString16 (Js.shl 1 24 + Js.shl r 16 + Js.shl g 8 + b)))).

(** [hexToRgb(hex)], js/colorUtils2.js lines 23-34. *)
Definition hexToRgb (hex : string) : rgb :=
  let hex := Js.stripHash hex in
  let bigint := Js.parseInt16 hex in
  let r := Z.land (Js.sar bigint 16) 255 in
  let g := Z.land (Js.sar bigint 8) 255 in
  let b := Z.land (Js.toInt32 bigint) 255 in
  RGB r g b.

(** The square of [colorDistance]; channels are integers in 0..255, on
    which the square root of the source is strictly increasing, so every
    comparison of distances in the source is the comparison of these
    squares. *)
Definition colorDistance2 (c1 c2 : rgb) : Z :=
  (r c1 - r c2) ^ 2 + (g c1 - g c2) ^ 2 + (b c1 - b c2) ^ 2.

(** [d < minDistance], where [None] is the initial bound
    ([Number.MAX_VALUE] or [Infinity]) that every distance is below. *)
Definition below (d : Z) (minDistance : option Z) : bool :=
  match minDistance with
  | None => true
  | Some m => d <? m
  end.

(** [findClosestColor(targetHex, palette)], part 002 lines 443-459;
    [None] is [undefined]. *)
Definition findClosestColor (targetHex : string) (palette : list string)
  : option string :=
  let targetRgb := hexToRgb targetHex in
  let closestColor := nth_error palette 0 in
  let minDistance := @None Z in
  fst (fold_left
         (fun '(closestColor, minDistance) color =>
            let colorRgb := hexToRgb color in
            let distance := colorDistance2 targetRgb colorRgb in
            if below distance minDistance
            then (Some color, Some distance)
            else (closestColor, minDistance))
         palette (closestColor, minDistance)).

(** [isValidHex(hex)]: the pattern [/^#?([0-9A-F]{3}|[0-9A-F]{6})$/i]. *)
Definition isHexDigit (c : ascii) : bool :=
  match Js.hexDigitValue c with Some _ => true | None => false end.

Fixpoint allHex (s : string) : bool :=
  match s with
  | EmptyString => true
  | String c s' => isHexDigit c && allHex s'
  end.

Definition isValidHex (hex : string) : bool :=
  let body := Js.stripHash hex in
  allHex body && ((String.length body =? 3)%nat || (String.length body =? 6)%nat).

(** [normalizeHex(hex)], js/colorUtils2.js lines 162-177. *)
Definition normalizeHex (hex : string) : string :=
  let hex :=
    match hex with
    | String "#"%char _ => hex
    | _ => String "#"%char hex
    end in
  let hex :=
    match hex with
    | String h (String r (String g (String b EmptyString))) =>
        String "#"%char (String r (String r (String g (String g
          (String b (String b EmptyString))))))
    | _ => hex
    end in
  Js.toUpperCase hex.


(** *** reduceColors, the k-means revision (part 002, lines 563-740)

    The globals the function reads and writes. [None] stands for a global
    that is undefined (or, for the arrays, not an array). *)
Record window : Type :=
  { firstImagePalette : option (list string);
    firstImagePaletteCounts : option (Js.obj Z);
    originalImageColors : option (list string);
    colorPaletteOriginalImageColors : option (Js.obj Z) }.

Definition withFirstImagePalette (w : window) (p : list string) : window :=
  {| firstImagePalette := Some p;
     firstImagePaletteCounts := firstImagePaletteCounts w;
     originalImageColors := originalImageColors w;
     colorPaletteOriginalImageColors := colorPaletteOriginalImageColors w |}.

Definition toRgb3 (hex : string) : rgb :=
  let rgb := hexToRgb hex in RGB (r rgb) (g rgb) (b rgb).

(** The body of the inner loop over the centroids (lines 693-705); [j] is
    the index of [centroid]. *)
Definition scanCentroid (point : rgb) (acc : Z * option Z * Z)
           (centroid : rgb) : Z * option Z * Z :=
  let '(newCluster, minDist, j) := acc in
  let dist := colorDistance2 point centroid in
  if below dist minDist then (j, Some dist, j + 1)
  else (newCluster, minDist, j + 1).

(** The index of the first centroid at the least distance, 0 when there
    is no centroid. *)
Definition nearestCluster (point : rgb) (centroids : list rgb) : Z :=
  fst (fst (fold_left (scanCentroid point) centroids (0, @None Z, 0))).

(** Lines 688-711: the new assignment of every point, and whether one of
    them differs from the old one. *)
Fixpoint assignPoints (rgbColors : list rgb) (clusters : list Z)
         (centroids : list rgb) : list Z * bool :=
  match rgbColors, clusters with
  | point :: ps, cluster :: cs =>
      let newCluster := nearestCluster point centroids in
      let '(cs', changed) := assignPoints ps cs centroids in
      (newCluster :: cs', negb (cluster =? newCluster) || changed)
  | _, _ => ([], false)
  end.

(** [a[i] = f(a[i])]; reading a component of [a[i]] throws when [i] is
    not an index of [a]. *)
Fixpoint updNat {A} (i : nat) (f : A -> A) (l : list A) : option (list A) :=
  match l, i with
  | [], _ => None
  | x :: xs, O => Some (f x :: xs)
  | x :: xs, S i' =>
      match updNat i' f xs with
      | Some xs' => Some (x :: xs')
      | None => None
      end
  end.

Definition updAt {A} (i : Z) (f : A -> A) (l : list A) : option (list A) :=
  if i <? 0 then None else updNat (Z.to_nat i) f l.

Definition addRgb (point acc : rgb) : rgb :=
  RGB (r acc + r point) (g acc + g point) (b acc + b point).

(** Lines 717-725: the channel sums and the sizes of the clusters. *)
Fixpoint accumulate (rgbColors : list rgb) (clusters : list Z)
         (newCentroids : list rgb) (counts : list Z)
  : option (list rgb * list Z) :=
  match rgbColors, clusters with
  | point :: ps, cluster :: cs =>
      match updAt cluster (addRgb point) newCentroids,
            updAt cluster Z.succ counts with
      | Some newCentroids', Some counts' => accumulate ps cs newCentroids' counts'
      | _, _ => None
      end
  | _, _ => Some (newCentroids, counts)
  end.

(** [Math.round(s / n)] for an integer [s >= 0] and an integer [n > 0]:
    the quotient is rounded to the nearest integer, halves upwards. The
    exact quotient is at least [1 / (2 n)] away from every half-integer it
    does not hit, far more than the rounding error of the division, so the
    rounding of the double is the rounding of the exact quotient. *)
Definition roundDiv (s n : Z) : Z := (2 * s + n) / (2 * n).

Definition meanRgb (sum : rgb) (n : Z) : rgb :=
  RGB (roundDiv (r sum) n) (roundDiv (g sum) n) (roundDiv (b sum) n).

(** Lines 727-733: the centroid of every non-empty cluster becomes the
    rounded mean; writing into a centroid that does not exist throws. *)
Fixpoint recompute (newCentroids : list rgb) (counts : list Z)
         (centroids : list rgb) : option (list rgb) :=
  match newCentroids, counts with
  | sum :: ss, n :: ns =>
      match centroids with
      | c :: cs =>
          match recompute ss ns cs with
          | Some cs' => Some ((if 0 <? n then meanRgb sum n else c) :: cs')
          | None => None
          end
      | [] => if 0 <? n then None else recompute ss ns []
      end
  | _, _ => Some centroids
  end.

(** One pass of the body of the [while] loop (lines 684-733);
    [new Array(k)] throws for a negative [k]. *)
Definition round (k : Z) (rgbColors : list rgb)
           (centroids : list rgb) (clusters : list Z)
  : option (list rgb * list Z * bool) :=
  let '(clusters, changed) := assignPoints rgbColors clusters centroids in
  if k <? 0 then None
  else
    let counts := repeat 0 (Z.to_nat k) in
    let newCentroids := repeat (RGB 0 0 0) (Z.to_nat k) in
    match accumulate rgbColors clusters newCentroids counts with
    | None => None
    | Some (newCentroids, counts) =>
        match recompute newCentroids counts centroids with
        | None => None
        | Some centroids => Some (centroids, clusters, changed)
        end
    end.

Definition MAX_ITERATIONS : nat := 50.

(** [while (changed && iterations < MAX_ITERATIONS)]; [left] is
    [MAX_ITERATIONS - iterations]. The result carries the number of passes
    made. *)
Fixpoint iterate (left : nat) (k : Z) (rgbColors : list rgb)
         (centroids : list rgb) (clusters : list Z) (changed : bool)
         (iterations : Z) : option (list rgb * list Z * Z) :=
  if changed then
    match left with
    | O => Some (centroids, clusters, iterations)
    | S left' =>
        match round k rgbColors centroids clusters with
        | None => None
        | Some (centroids', clusters', changed') =>
            iterate left' k rgbColors centroids' clusters' changed'
                    (iterations + 1)
        end
    end
  else Some (centroids, clusters, iterations).

(** [colorFrequency] of lines 591-594. *)
Definition countColor (colorFrequency : Js.obj Z) (color : string) : Js.obj Z :=
  Js.set colorFrequency color (Js.getOr0 colorFrequency color + 1).

Definition colorFrequency (colors : list string) : Js.obj Z :=
  fold_left countColor colors [].

Definition isDuplicate (centroids : list rgb) (c : rgb) : bool :=
  existsb (fun x => (r x =? r c) && (g x =? g c) && (b x =? b c)) centroids.

(** Lines 635-652. *)
Fixpoint addOriginal (k : Z) (originalImageColors : list string)
         (centroids : list rgb) : list rgb :=
  match originalImageColors with
  | [] => centroids
  | color :: rest =>
      if Z.of_nat (List.length centroids) <? k then
        let rgb := toRgb3 color in
        addOriginal k rest
          (if isDuplicate centroids rgb then centroids else centroids ++ [rgb])
      else centroids
  end.

(** Lines 661-665 and 668-670: push until there are [k] centroids. *)
Fixpoint pushUntil (k : Z) (items : list rgb) (centroids : list rgb)
  : list rgb :=
  match items with
  | [] => centroids
  | x :: rest =>
      if k <=? Z.of_nat (List.length centroids) then centroids
      else pushUntil k rest (centroids ++ [x])
  end.

(** The seeds of lines 589-673. *)
Definition seedCentroids (w : window) (colors : list string) (k : Z)
           (rgbColors : list rgb) : list rgb :=
  let colorFrequency := colorFrequency colors in
  let sortedColors :=
    Js.sort (fun a b => Js.getOr0 colorFrequency b - Js.getOr0 colorFrequency a)
            (Js.keys colorFrequency) in
  let centroids :=
    map toRgb3
        (firstn (Z.to_nat (Z.min k (Z.of_nat (List.length sortedColors))))
                sortedColors) in
  if Z.of_nat (List.length centroids) <? k then
    let centroids :=
      match colorPaletteOriginalImageColors w with
      | Some colorCounts =>
          match Js.keys colorCounts with
          | [] => centroids
          | originalImageColors =>
              let originalImageColors :=
                Js.sort (fun a b => Js.getOr0 colorCounts b - Js.getOr0 colorCounts a)
                        originalImageColors in
              addOriginal k originalImageColors centroids
          end
      | None => centroids
      end in
    if Z.of_nat (List.length centroids) <? k then
      match originalImageColors w with
      | Some (hex :: rest) => pushUntil k (map toRgb3 (hex :: rest)) centroids
      | _ => pushUntil k rgbColors centroids
      end
    else centroids
  else centroids.

(** [reduceColors(colors, k)]: the array returned ([None] when the call
    throws) and the globals after the call. *)
Definition reduceColors (w : window) (colors : list string) (k : Z)
  : option (list string) * window :=
  if Z.of_nat (List.length colors) <=? k then (Some colors, w)
  else
    match firstImagePalette w, firstImagePaletteCounts w with
    | Some (p :: ps), Some counts =>
        let sortedPalette :=
          Js.sort (fun a b => Js.getOr0 counts b - Js.getOr0 counts a) (p :: ps) in
        (Some (Js.slice0 k sortedPalette), w)
    | _, _ =>
        let '(paletteToUse, w) :=
          match originalImageColors w with
          | Some (c :: cs) => (c :: cs, withFirstImagePalette w (c :: cs))
          | _ => (colors, w)
          end in
        let rgbColors := map toRgb3 paletteToUse in
        let centroids := seedCentroids w colors k rgbColors in
        let clusters := repeat 0 (List.length rgbColors) in
        match iterate MAX_ITERATIONS k rgbColors centroids clusters true 0 with
        | None => (None, w)
        | Some (centroids, _, _) =>
            (Some (map (fun c => rgbToHex (r c) (g c) (b c)) centroids), w)
        end
    end.

End ColorUtils.

(* ================================================================== *)
(** ** ColorUtils of js/colorUtils2.js *)
(* ================================================================== *)

(** [rgbToHex], [hexToRgb], [isValidHex] and [normalizeHex] of this file
    are, line for line, those of [ColorUtils] above. *)
Module ColorUtils2.

(** [findClosestColor(color, palette)], lines 57-81. *)
Definition findClosestColor (color : string) (palette : list string)
  : option string :=
  let rgb := ColorUtils.hexToRgb color in
  let colorRgb := RGB (r rgb) (g rgb) (b rgb) in
  let closestColor := nth_error palette 0 in
  let minDistance := @None Z in
  fst (fold_left
         (fun '(closestColor, minDistance) paletteColor =>
            let paletteRgb := ColorUtils.hexToRgb paletteColor in
            let distance := ColorUtils.colorDistance2 colorRgb paletteRgb in
            if ColorUtils.below distance minDistance
            then (Some paletteColor, Some distance)
            else (closestColor, minDistance))
         palette (closestColor, minDistance)).

Record rgbColor : Type :=
  { hex : string; rgbOf : rgb; value : Z }.

Definition toRgbColor (hex : string) : rgbColor :=
  let rgb := ColorUtils.hexToRgb hex in
  {| hex := hex; rgbOf := RGB (r rgb) (g rgb) (b rgb);
     value := r rgb + g rgb + b rgb |}.

(** The body of the loop of lines 221-235. *)
Definition scanBase (colorRgb : rgb) (acc : string * option Z)
           (paletteColor : rgbColor) : string * option Z :=
  let '(closestColor, minDistance) := acc in
  let paletteRgb := rgbOf paletteColor in
  let distance := ColorUtils.colorDistance2 colorRgb paletteRgb in
  if ColorUtils.below distance minDistance
  then (hex paletteColor, Some distance)
  else (closestColor, minDistance).

(** Lines 214-235: the entry of the base palette closest to [color],
    starting from the first entry. *)
Definition closestBase (color : string) (first : rgbColor)
           (basePalette : list rgbColor) : string :=
  let rgb := ColorUtils.hexToRgb color in
  let colorRgb := RGB (r rgb) (g rgb) (b rgb) in
  fst (fold_left (scanBase colorRgb) basePalette (hex first, @None Z)).

(** [uniqueColors.add(c)] on a Set kept in insertion order. *)
Definition setAdd (s : list string) (c : string) : list string :=
  if existsb (String.eqb c) s then s else s ++ [c].

(** The loop of lines 213-244; reading [basePalette[0].hex] throws when
    the base palette is empty. *)
Fixpoint collect (k : Z) (basePalette : list rgbColor) (colors : list string)
         (uniqueColors : list string) : option (list string) :=
  match colors with
  | [] => Some uniqueColors
  | color :: rest =>
      match basePalette with
      | [] => None
      | first :: _ =>
          let closestColor := closestBase color first basePalette in
          let uniqueColors := setAdd uniqueColors closestColor in
          if k <=? Z.of_nat (List.length uniqueColors) then Some uniqueColors
          else collect k basePalette rest uniqueColors
      end
  end.

(** The loop of lines 251-258. *)
Fixpoint fill (k : Z) (basePalette : list rgbColor)
         (resultColors : list string) : list string :=
  match basePalette with
  | [] => resultColors
  | baseColor :: rest =>
      if existsb (String.eqb (hex baseColor)) resultColors
      then fill k rest resultColors
      else
        let resultColors := resultColors ++ [hex baseColor] in
        if k <=? Z.of_nat (List.length resultColors) then resultColors
        else fill k rest resultColors
  end.

(** [reduceColors(colors, k)], lines 185-263; [None] when the call
    throws. *)
Definition reduceColors (colors : list string) (k : Z)
  : option (list string) :=
  if Z.of_nat (List.length colors) <=? k then Some colors
  else
    let rgbColors := map toRgbColor colors in
    let rgbColors := Js.sort (fun a b => value a - value b) rgbColors in
    let basePalette := Js.slice0 k rgbColors in
    match collect k basePalette colors [] with
    | None => None
    | Some uniqueColors =>
        let resultColors := Js.slice0 k uniqueColors in
        if Z.of_nat (List.length resultColors) <? k
        then Some (fill k basePalette resultColors)
        else Some resultColors
    end.

End ColorUtils2.

(* ================================================================== *)
(** ** The first revision of ColorUtils in part 002 (lines 1-387) *)
(* ================================================================== *)

(** [findClosestColor] of this revision (lines 56-72) is, line for line,
    [ColorUtils.findClosestColor]. Of its [reduceColors] the branch that
    reduces to the colours of the palette (lines 176-223) is modelled; the
    clustering that follows draws its seeds with [Math.random]. *)
Module ColorUtils1.

(** How a call of [reduceColors] ends within a number of passes of its
    [while] loop. *)
Inductive outcome : Type :=
| Returns (resultColors : list string)
| Clusters
| OutOfFuel.

(** [findClosestColor(color, paletteColors)] on the palette
    [first :: rest]: on a palette that is not empty the result is never
    [undefined]. *)
Definition closest (color first : string) (rest : list string) : string :=
  match ColorUtils.findClosestColor color (first :: rest) with
  | Some c => c
  | None => first
  end.

(** The loop of lines 197-207. *)
Fixpoint collect (k : Z) (first : string) (rest : list string)
         (colors : list string) (uniqueColors : list string) : list string :=
  match colors with
  | [] => uniqueColors
  | color :: colors' =>
      let closestColor := closest color first rest in
      let uniqueColors := Js.setAdd uniqueColors closestColor in
      if k <=? Z.of_nat (List.length uniqueColors) then uniqueColors
      else collect k first rest colors' uniqueColors
  end.

(** The [while] loop of lines 213-218; [None] when the loop is still
    running after [fuel] passes. The index read is below the length of the
    palette, by the test of the loop. *)
Fixpoint fill (fuel : nat) (k : Z) (paletteColors resultColors : list string)
  : option (list string) :=
  if (Z.of_nat (List.length resultColors) <? k)
     && (List.length resultColors <? List.length paletteColors)%nat
  then
    match fuel with
    | O => None
    | S fuel' =>
        let nextColor :=
          nth (List.length resultColors) paletteColors EmptyString in
        fill fuel' k paletteColors
             (if existsb (String.eqb nextColor) resultColors
              then resultColors
              else resultColors ++ [nextColor])
    end
  else Some resultColors.

(** [reduceColors(colors, k)], lines 176-223; [paletteColors] is
    [window.colorPalette.colors], [None] when there is no such array. *)
Definition reduceColors (fuel : nat) (paletteColors : option (list string))
           (colors : list string) (k : Z) : outcome :=
  if Z.of_nat (List.length colors) <=? k then Returns colors
  else
    match paletteColors with
    | Some (c :: cs) =>
        let paletteColors :=
          filter (fun color => negb (String.eqb color "#FFFFFF")) (c :: cs) in
        match paletteColors with
        | [] => Clusters
        | first :: rest =>
            let uniqueColors := collect k first rest colors [] in
            let resultColors := Js.slice0 k uniqueColors in
            match fill fuel k paletteColors resultColors with
            | Some resultColors => Returns resultColors
            | None => OutOfFuel
            end
        end
    | _ => Clusters
    end.

End ColorUtils1.

(* ================================================================== *)
(** ** ColorPalette.extractTopColors (js/colorPalette.js) *)
(* ================================================================== *)

Module ColorPalette.

Record colorIntensity : Type :=
  { color : string; count : Z; intensity : Z }.

Definition defaultWhite : string := "#FFFFFF".

(** [extractTopColors(colorCounts)], lines 355-396; the result is the new
    value of [this.colors]. *)
Definition extractTopColors (colorCounts : Js.obj Z) : list string :=
  let colorPairs := Js.entries colorCounts in
  let colorPairs := Js.sort (fun a b => snd b - snd a) colorPairs in
  let colorIntensities :=
    map (fun '(color, count) =>
           let rgb := ColorUtils.hexToRgb color in
           {| color := color; count := count;
              intensity := r rgb + g rgb + b rgb |}) colorPairs in
  let colorIntensities :=
    Js.sort (fun a b =>
               if negb (count b =? count a) then count b - count a
               else intensity b - intensity a) colorIntensities in
  let topColors :=
    map color
        (firstn (Nat.min 10 (List.length colorIntensities)) colorIntensities) in
  let topColors :=
    topColors ++ repeat defaultWhite (10 - List.length topColors)%nat in
  Js.slice0 10 topColors.

(** The normalisation of [this.colors] at the head of [createPaletteUI],
    lines 39-45: padded with white up to ten, cut down to ten. *)
Definition ensureTen (colors : list string) : list string :=
  let colors := colors ++ repeat defaultWhite (10 - List.length colors)%nat in
  if (10 <? List.length colors)%nat then Js.slice0 10 colors else colors.

(** An entry of the array [colors] of a palette file: a text, or a value
    of another kind (a number, a boolean, null, an array, an object), of
    which [text] is what the conversion to a text gives, [None] when the
    conversion throws (an object whose [toString] is not a function). *)
Inductive fileEntry : Type :=
| Text (s : string)
| Other (text : option string).

(** [ColorUtils.isValidHex(color)] on an entry: [RegExp.prototype.test]
    converts its argument to a text; [None] when that throws. *)
Definition entryValid (e : fileEntry) : option bool :=
  match e with
  | Text s => Some (ColorUtils.isValidHex s)
  | Other (Some text) => Some (ColorUtils.isValidHex text)
  | Other None => None
  end.

(** [palette.colors.filter(color => ColorUtils.isValidHex(color))];
    [None] when the test of an entry throws. *)
Fixpoint filterValid (entries : list fileEntry) : option (list fileEntry) :=
  match entries with
  | [] => Some []
  | e :: rest =>
      match entryValid e with
      | None => None
      | Some ok =>
          match filterValid rest with
          | None => None
          | Some kept => Some (if ok then e :: kept else kept)
          end
      end
  end.

(** [validColors.map(color => ColorUtils.normalizeHex(color))]:
    [normalizeHex] calls [hex.startsWith], which only a text has, and
    throws on every other value; [None] when it throws. *)
Fixpoint normalizeAll (validColors : list fileEntry) : option (list string) :=
  match validColors with
  | [] => Some []
  | Text s :: rest =>
      match normalizeAll rest with
      | Some colors => Some (ColorUtils.normalizeHex s :: colors)
      | None => None
      end
  | Other _ :: _ => None
  end.

(** The palette after [handlePaletteFileSelect], lines 250-284, read a
    file whose [colors] field is [paletteColors] ([None] when the text is
    no JSON or the field is not an array); the new colours go through
    [createPaletteUI]. An exception is caught by the handler (lines
    256-277) before the palette is assigned. *)
Definition handlePaletteFileSelect (paletteColors : option (list fileEntry))
           (colors : list string) : list string :=
  match paletteColors with
  | Some (c :: cs) =>
      match filterValid (c :: cs) with
      | Some (v :: vs) =>
          match normalizeAll (v :: vs) with
          | Some normalized => ensureTen normalized
          | None => colors
          end
      | _ => colors
      end
  | _ => colors
  end.

(** The [colors] field of the file written by [exportPalette], lines
    220-237, as [handlePaletteFileSelect] reads it back. *)
Definition exportPalette (colors : list string) : option (list fileEntry) :=
  Some (map Text colors).

End ColorPalette.

(* ================================================================== *)
(** ** Grids *)
(* ================================================================== *)

(** How a call ends: normally, or by a thrown exception; either way with
    the state it left behind. *)
Inductive completion (S : Type) : Type :=
| Normal (s : S)
| Throw (s : S).
Arguments Normal {S} s.
Arguments Throw {S} s.

Definition stateOf {S} (c : completion S) : S :=
  match c with Normal s => s | Throw s => s end.

(** The cell key [`${col},${row}`]. *)
Definition cellKey (col row : Z) : string :=
  (NilZero.string_of_int (Z.to_int col) ++ ","
   ++ NilZero.string_of_int (Z.to_int row))%string.

(** The coordinates visited by
    [for (row = 0; row < rows; row++) for (col = 0; col < cols; col++)]. *)
Definition cellsOf (cols rows : Z) : list (Z * Z) :=
  flat_map (fun row =>
              map (fun col => (Z.of_nat col, Z.of_nat row))
                  (seq 0 (Z.to_nat cols)))
           (seq 0 (Z.to_nat rows)).

(** A string is truthy when it is not empty; a number when it is not 0. *)
Definition truthyStr (s : string) : bool :=
  match s with EmptyString => false | _ => true end.
Definition truthyNum (n : option Z) : bool :=
  match n with Some z => negb (z =? 0) | None => false end.

(** The persisted grid object handed to [loadFromJSON]: absent fields are
    [None]. The size metric only feeds the canvas geometry and is left out. *)
Record gridData : Type :=
  { dataCols : option Z;
    dataRows : option Z;
    dataCells : option (Js.obj string) }.

(** *** GemGrid (js/gemGrid.js) *)
Module GemGrid.

Record snapshot : Type :=
  { snapGemColors : Js.obj string; timestamp : Z }.

Record t : Type :=
  { cols : Z;
    rows : Z;
    gemColors : Js.obj string;
    selectedCells : list string;
    history : list snapshot;
    historyIndex : Z }.

Definition defaultColor : string := "#FFFFFF".

Definition withColors (g : t) (m : Js.obj string) : t :=
  {| cols := cols g; rows := rows g; gemColors := m;
     selectedCells := selectedCells g;
     history := history g; historyIndex := historyIndex g |}.

Definition withSelection (g : t) (sel : list string) : t :=
  {| cols := cols g; rows := rows g; gemColors := gemColors g;
     selectedCells := sel;
     history := history g; historyIndex := historyIndex g |}.

Definition withHistory (g : t) (h : list snapshot) (i : Z) : t :=
  {| cols := cols g; rows := rows g; gemColors := gemColors g;
     selectedCells := selectedCells g;
     history := h; historyIndex := i |}.

Definition withExtent (g : t) (c r : Z) : t :=
  {| cols := c; rows := r; gemColors := gemColors g;
     selectedCells := selectedCells g;
     history := history g; historyIndex := historyIndex g |}.

(** The fields as the constructor sets them before it computes the
    geometry (lines 14-30). *)
Definition blank (cols rows : Z) : t :=
  {| cols := cols; rows := rows; gemColors := [];
     selectedCells := []; history := []; historyIndex := -1 |}.

(** [calculateDimensions()], lines 49-95: of the fields modelled here it
    sets the extent to the fixed target 64 x 40. *)
Definition calculateDimensions (g : t) : t := withExtent g 64 40.

(** [initializeGrid()], lines 100-106. *)
Definition initializeGrid (g : t) : t :=
  withColors g
    (fold_left (fun m '(col, row) => Js.set m (cellKey col row) defaultColor)
               (cellsOf (cols g) (rows g)) (gemColors g)).

(** [new GemGrid(canvasId, cols, rows)]. *)
Definition constructor (cols rows : Z) : t :=
  initializeGrid (calculateDimensions (blank cols rows)).

(** [saveState()], lines 354-375; [now] is the value of [Date.now()]. *)
Definition saveState (now : Z) (g : t) : t :=
  let history :=
    if historyIndex g <? Z.of_nat (List.length (history g)) - 1
    then Js.slice0 (historyIndex g + 1) (history g)
    else history g in
  let colorsCopy := gemColors g in
  let history :=
    history ++ [ {| snapGemColors := colorsCopy; timestamp := now |} ] in
  let historyIndex := Z.of_nat (List.length history) - 1 in
  if 50 <? Z.of_nat (List.length history)
  then withHistory g (tl history) (historyIndex - 1)
  else withHistory g history historyIndex.

(** [applyColorToSelection(color)], lines 337-349. *)
Definition applyColorToSelection (now : Z) (color : string) (g : t) : t :=
  match selectedCells g with
  | [] => g
  | _ =>
      let g := saveState now g in
      withColors g
        (fold_left (fun m key => Js.set m key color)
                   (selectedCells g) (gemColors g))
  end.

(** [history[i]]: [undefined] for an index that is negative or past the
    end. *)
Definition at_ {A} (l : list A) (i : Z) : option A :=
  if i <? 0 then None else nth_error l (Z.to_nat i).

(** [undo()], lines 380-386. Reading a field of [undefined] throws after
    the index was moved. *)
Definition undo (g : t) : completion t :=
  if 0 <? historyIndex g then
    let g := withHistory g (history g) (historyIndex g - 1) in
    match at_ (history g) (historyIndex g) with
    | Some s => Normal (withColors g (snapGemColors s))
    | None => Throw g
    end
  else Normal g.

(** [redo()], lines 391-397. *)
Definition redo (g : t) : completion t :=
  if historyIndex g <? Z.of_nat (List.length (history g)) - 1 then
    let g := withHistory g (history g) (historyIndex g + 1) in
    match at_ (history g) (historyIndex g) with
    | Some s => Normal (withColors g (snapGemColors s))
    | None => Throw g
    end
  else Normal g.

(** [clearGrid()], lines 402-407. *)
Definition clearGrid (now : Z) (g : t) : t :=
  withSelection (initializeGrid (saveState now g)) [].

(** [getColorCounts()], lines 422-430. *)
Definition getColorCounts (g : t) : Js.obj Z :=
  fold_left
    (fun counts color =>
       Js.set counts color (Js.getOr0 counts color + 1))
    (Js.values (gemColors g)) [].

(** [getAllColors()], lines 413-416: the distinct values in first-seen
    order. *)
Definition getAllColors (g : t) : list string :=
  fold_left
    (fun seen color =>
       if existsb (String.eqb color) seen then seen else seen ++ [color])
    (Js.values (gemColors g)) [].

(** [loadFromJSON(data)], lines 550-574; [None] for [data] is a null or
    undefined argument. *)
Definition loadFromJSON (now : Z) (data : option gridData) (g : t) : t :=
  match data with
  | None => g
  | Some d =>
      match dataCells d with
      | None => g
      | Some cells =>
          let g :=
            if truthyNum (dataCols d) && truthyNum (dataRows d)
            then
              match dataCols d, dataRows d with
              | Some c, Some r => calculateDimensions (withExtent g c r)
              | _, _ => g
              end
            else g in
          let g := withColors g cells in
          let g := withSelection g [] in
          saveState now g
      end
  end.

(** The body of the loop of [applyColorMapping], lines 584-587. *)
Definition remapCell (colorMap : Js.obj string) (m : Js.obj string)
           (key : string) : Js.obj string :=
  match Js.get m key with
  | Some oldColor =>
      match Js.get colorMap oldColor with
      | Some newColor =>
          if truthyStr newColor then Js.set m key newColor else m
      | None => m
      end
  | None => m
  end.

(** [applyColorMapping(colorMap)], lines 580-591. *)
Definition applyColorMapping (now : Z) (colorMap : Js.obj string) (g : t) : t :=
  let g := saveState now g in
  withColors g
    (fold_left (remapCell colorMap) (Js.keys (gemColors g)) (gemColors g)).

(** [isValidCell(col, row)], lines 242-244. *)
Definition isValidCell (g : t) (col row : Z) : bool :=
  (0 <=? col) && (col <? cols g) && (0 <=? row) && (row <? rows g).

(** [handleDoubleClick(event)], lines 171-197, from the cell that
    [pixelToGem] returned for the event ([None] is [null]): every cell of
    the colour of the clicked cell is selected. *)
Definition handleDoubleClick (cell : option (Z * Z)) (g : t) : t :=
  match cell with
  | None => g
  | Some (col, row) =>
      if negb (isValidCell g col row) then g
      else
        let key := cellKey col row in
        let targetColor := Js.get (gemColors g) key in
        withSelection g
          (fold_left
             (fun sel '(cellKey, color) =>
                match targetColor with
                | Some target =>
                    if String.eqb color target then Js.setAdd sel cellKey
                    else sel
                | None => sel
                end)
             (Js.entries (gemColors g)) [])
  end.

(** [saveToJSON()], lines 536-544: the fields [loadFromJSON] reads. *)
Definition saveToJSON (g : t) : gridData :=
  {| dataCols := Some (cols g);
     dataRows := Some (rows g);
     dataCells := Some (gemColors g) |}.

End GemGrid.

(** *** HexGrid (js/hexGrid.js)

    [undo] and [redo] of this class store a whole history entry in
    [hexColors], so that field can hold any JSON value the class builds. *)
#[local] Unset Elimination Schemes.
Inductive json : Type :=
| JStr (s : string)
| JNum (z : Z)
| JObj (fields : list (string * json)).
#[local] Set Elimination Schemes.

Module HexGrid.

Record t : Type :=
  { cols : Z;
    rows : Z;
    hexColors : json;
    selectedCells : list string;
    history : list json;
    historyIndex : Z }.

Definition defaultColor : string := "#FFFFFF".

Definition withColors (g : t) (m : json) : t :=
  {| cols := cols g; rows := rows g; hexColors := m;
     selectedCells := selectedCells g;
     history := history g; historyIndex := historyIndex g |}.

Definition withHistory (g : t) (h : list json) (i : Z) : t :=
  {| cols := cols g; rows := rows g; hexColors := hexColors g;
     selectedCells := selectedCells g;
     history := h; historyIndex := i |}.

Definition withExtent (g : t) (c r : Z) : t :=
  {| cols := c; rows := r; hexColors := hexColors g;
     selectedCells := selectedCells g;
     history := history g; historyIndex := historyIndex g |}.

(** [o[k] = v] on a value that is an object. *)
Definition jset (o : json) (k : string) (v : json) : json :=
  match o with
  | JObj fields => JObj (Js.set fields k v)
  | _ => o
  end.

Definition blank (cols rows : Z) : t :=
  {| cols := cols; rows := rows; hexColors := JObj [];
     selectedCells := []; history := []; historyIndex := -1 |}.

(** [calculateDimensions()], lines 49-92: fixes the extent to 64 x 40. *)
Definition calculateDimensions (g : t) : t := withExtent g 64 40.

(** [initializeGrid()], lines 97-103. *)
Definition initializeGrid (g : t) : t :=
  withColors g
    (fold_left (fun m '(col, row) => jset m (cellKey col row) (JStr defaultColor))
               (cellsOf (cols g) (rows g)) (hexColors g)).

Definition constructor (cols rows : Z) : t :=
  initializeGrid (calculateDimensions (blank cols rows)).

(** The history entry [{ hexColors: colorsCopy, timestamp: Date.now() }]. *)
Definition entry (colorsCopy : json) (now : Z) : json :=
  JObj [("hexColors"%string, colorsCopy); ("timestamp"%string, JNum now)].

(** [saveState()], lines 363-384. *)
Definition saveState (now : Z) (g : t) : t :=
  let history :=
    if historyIndex g <? Z.of_nat (List.length (history g)) - 1
    then Js.slice0 (historyIndex g + 1) (history g)
    else history g in
  let colorsCopy := hexColors g in
  let history := history ++ [ entry colorsCopy now ] in
  let historyIndex := Z.of_nat (List.length history) - 1 in
  if 50 <? Z.of_nat (List.length history)
  then withHistory g (tl history) (historyIndex - 1)
  else withHistory g history historyIndex.

(** [applyColorToSelection(color)], lines 346-358. *)
Definition applyColorToSelection (now : Z) (color : string) (g : t) : t :=
  match selectedCells g with
  | [] => g
  | _ =>
      let g := saveState now g in
      withColors g
        (fold_left (fun m key => jset m key (JStr color))
                   (selectedCells g) (hexColors g))
  end.

(** [undo()], lines 389-395: the copy assigned to [hexColors] is the copy
    of [this.history[this.historyIndex]] itself; parsing the text of
    [undefined] throws. *)
Definition undo (g : t) : completion t :=
  if 0 <? historyIndex g then
    let g := withHistory g (history g) (historyIndex g - 1) in
    match GemGrid.at_ (history g) (historyIndex g) with
    | Some e => Normal (withColors g e)
    | None => Throw g
    end
  else Normal g.

(** [redo()], lines 400-406. *)
Definition redo (g : t) : completion t :=
  if historyIndex g <? Z.of_nat (List.length (history g)) - 1 then
    let g := withHistory g (history g) (historyIndex g + 1) in
    match GemGrid.at_ (history g) (historyIndex g) with
    | Some e => Normal (withColors g e)
    | None => Throw g
    end
  else Normal g.

End HexGrid.

(** *** The bead-shaped HexGrid of the unnamed source part 001 *)
Module HexGridBeads.

Record snapshot : Type :=
  { snapHexColors : Js.obj string; timestamp : Z }.

Record t : Type :=
  { cols : Z;
    rows : Z;
    hexColors : Js.obj string;
    selectedCells : list string;
    history : list snapshot;
    historyIndex : Z }.

Definition withColors (g : t) (m : Js.obj string) : t :=
  {| cols := cols g; rows := rows g; hexColors := m;
     selectedCells := selectedCells g;
     history := history g; historyIndex := historyIndex g |}.

Definition withSelection (g : t) (sel : list string) : t :=
  {| cols := cols g; rows := rows g; hexColors := hexColors g;
     selectedCells := sel;
     history := history g; historyIndex := historyIndex g |}.

Definition withHistory (g : t) (h : list snapshot) (i : Z) : t :=
  {| cols := cols g; rows := rows g; hexColors := hexColors g;
     selectedCells := selectedCells g;
     history := h; historyIndex := i |}.

Definition withExtent (g : t) (c r : Z) : t :=
  {| cols := c; rows := r; hexColors := hexColors g;
     selectedCells := selectedCells g;
     history := history g; historyIndex := historyIndex g |}.

(** [saveState()], part 001 lines 420-441. *)
Definition saveState (now : Z) (g : t) : t :=
  let history :=
    if historyIndex g <? Z.of_nat (List.length (history g)) - 1
    then Js.slice0 (historyIndex g + 1) (history g)
    else history g in
  let colorsCopy := hexColors g in
  let history :=
    history ++ [ {| snapHexColors := colorsCopy; timestamp := now |} ] in
  let historyIndex := Z.of_nat (List.length history) - 1 in
  if 50 <? Z.of_nat (List.length history)
  then withHistory g (tl history) (historyIndex - 1)
  else withHistory g history historyIndex.

(** [undo()], part 001 lines 446-452. *)
Definition undo (g : t) : completion t :=
  if 0 <? historyIndex g then
    let g := withHistory g (history g) (historyIndex g - 1) in
    match GemGrid.at_ (history g) (historyIndex g) with
    | Some s => Normal (withColors g (snapHexColors s))
    | None => Throw g
    end
  else Normal g.

(** [loadFromJSON(data)], part 001 lines 517-538: the state is saved
    before the load; [calculateDimensions] of this class keeps the extent. *)
Definition loadFromJSON (now : Z) (data : option gridData) (g : t) : t :=
  match data with
  | None => g
  | Some d =>
      match dataCells d with
      | None => g
      | Some cells =>
          let g := saveState now g in
          let g :=
            if truthyNum (dataCols d) && truthyNum (dataRows d)
            then
              match dataCols d, dataRows d with
              | Some c, Some r => withExtent g c r
              | _, _ => g
              end
            else g in
          let g := withColors g cells in
          withSelection g []
      end
  end.

End HexGridBeads.

(** *** The undo and redo buttons of js/appGem.js

    The handlers read the field [hexColors] of a history entry of the
    GemGrid. The entries of a GemGrid are built by [GemGrid.saveState] only
    and carry [gemColors] and [timestamp]; the field read is [undefined],
    its JSON text is [undefined], and parsing that throws, after the index
    was moved and before anything is assigned. An index outside the stack
    throws one step earlier, on the field read. *)
Module AppGem.

(** The click handler of [undoButton], lines 42-49. *)
Definition undoButton (g : GemGrid.t) : completion GemGrid.t :=
  if 0 <? GemGrid.historyIndex g then
    Throw (GemGrid.withHistory g (GemGrid.history g)
                               (GemGrid.historyIndex g - 1))
  else Normal g.

(** The click handler of [redoButton], lines 52-59. *)
Definition redoButton (g : GemGrid.t) : completion GemGrid.t :=
  if GemGrid.historyIndex g
     <? Z.of_nat (List.length (GemGrid.history g)) - 1 then
    Throw (GemGrid.withHistory g (GemGrid.history g)
                               (GemGrid.historyIndex g + 1))
  else Normal g.

End AppGem.

(** *** The session: grid, palette and globals

    The methods of [ColorPalette] that act on the grid
    (js/colorPalette.js) and [ImageProcessor.processImage] of the gem
    application (js/imageProcessing.js, second part). *)
Module Session.

Record t : Type :=
  { grid : GemGrid.t;
    colors : list string;
    fullPalette : list string;
    window : ColorUtils.window }.

Definition withWindow (s : t) (w : ColorUtils.window) : t :=
  {| grid := grid s; colors := colors s; fullPalette := fullPalette s;
     window := w |}.

(** The number shown by [updateColorCountDisplay()], lines 330-335. *)
Definition updateColorCountDisplay (s : t) : nat :=
  List.length (Js.keys (GemGrid.getColorCounts (grid s))).

(** The colour map built in [applyColorReduction], lines 310-314. A
    result [undefined] of [findClosestColor] is stored as the empty text:
    [applyColorMapping] only tests the stored value for truthiness. *)
Definition buildColorMap (gridColors reducedColors : list string)
  : Js.obj string :=
  fold_left
    (fun colorMap oldColor =>
       let closestColor :=
         match ColorUtils.findClosestColor oldColor reducedColors with
         | Some c => c
         | None => EmptyString
         end in
       Js.set colorMap oldColor closestColor)
    gridColors [].

(** [applyColorReduction()], lines 289-325, with the k-means revision of
    [ColorUtils]; [targetCount] is the parsed input, [None] for NaN. A
    call of [reduceColors] that throws leaves only the globals changed. *)
Definition applyColorReduction (now : Z) (targetCount : option Z) (s : t) : t :=
  match targetCount with
  | None => s
  | Some targetCount =>
      if targetCount <? 1 then s
      else
        let gridColors := GemGrid.getAllColors (grid s) in
        if Z.of_nat (List.length gridColors) <=? targetCount then s
        else
          match ColorUtils.reduceColors (window s) gridColors targetCount with
          | (None, w) => withWindow s w
          | (Some reducedColors, w) =>
              let colorMap := buildColorMap gridColors reducedColors in
              let g := GemGrid.applyColorMapping now colorMap (grid s) in
              {| grid := g;
                 colors := ColorPalette.ensureTen reducedColors;
                 fullPalette := fullPalette s;
                 window := w |}
          end
  end.

(** The same handler with the [ColorUtils] of js/colorUtils2.js. *)
Definition applyColorReduction2 (now : Z) (targetCount : option Z) (s : t) : t :=
  match targetCount with
  | None => s
  | Some targetCount =>
      if targetCount <? 1 then s
      else
        let gridColors := GemGrid.getAllColors (grid s) in
        if Z.of_nat (List.length gridColors) <=? targetCount then s
        else
          match ColorUtils2.reduceColors gridColors targetCount with
          | None => s
          | Some reducedColors =>
              let colorMap :=
                fold_left
                  (fun colorMap oldColor =>
                     let closestColor :=
                       match ColorUtils2.findClosestColor oldColor reducedColors with
                       | Some c => c
                       | None => EmptyString
                       end in
                     Js.set colorMap oldColor closestColor)
                  gridColors [] in
              let g := GemGrid.applyColorMapping now colorMap (grid s) in
              {| grid := g;
                 colors := ColorPalette.ensureTen reducedColors;
                 fullPalette := fullPalette s;
                 window := window s |}
          end
  end.

(** The channel [pixels[i]] of an [ImageData] buffer. *)
Definition pixelAt (pixels : list Z) (i : Z) : Z := nth (Z.to_nat i) pixels 0.

(** The body of the double loop of [processImage], lines 244-271, for one
    cell; [width] is [canvas.width]. The state carried is the cell map and
    [colorCounts]. With an empty palette [findClosestColor] is
    [undefined]; the model then stores the empty text. *)
Definition processCell (pixels : list Z) (width height : Z)
           (palette : list string) (acc : Js.obj string * Js.obj Z)
           (cell : Z * Z) : Js.obj string * Js.obj Z :=
  let '(gemColors, colorCounts) := acc in
  let '(col, row) := cell in
  let x := Z.min col (width - 1) in
  let y := Z.min row (height - 1) in
  let pixelIndex := (y * width + x) * 4 in
  let r := pixelAt pixels pixelIndex in
  let g := pixelAt pixels (pixelIndex + 1) in
  let b := pixelAt pixels (pixelIndex + 2) in
  let gemColor := ColorUtils.rgbToHex r g b in
  let closestColor :=
    match ColorUtils.findClosestColor gemColor palette with
    | Some c => c
    | None => EmptyString
    end in
  (Js.set gemColors (cellKey col row) closestColor,
   Js.set colorCounts closestColor (Js.getOr0 colorCounts closestColor + 1)).

(** [processImage(img, gemGrid, colorPalette)], lines 191-293, from the
    pixel buffer of the canvas on which the image was drawn (a canvas of
    [cols] by [rows] pixels, so a buffer of [4 * cols * rows] channels in
    0..255); [now] is the time of the deferred [saveState]. The two
    first-image globals are written by this function and by
    [reduceColors] only, always with an array or a dictionary, so they
    are falsy exactly when they are undefined. *)
Definition processImage (now : Z) (pixels : list Z) (s : t) : t :=
  let g := grid s in
  let width := GemGrid.cols g in
  let height := GemGrid.rows g in
  let '(gemColors, colorCounts) :=
    fold_left (processCell pixels width height (fullPalette s))
              (cellsOf (GemGrid.cols g) (GemGrid.rows g))
              (GemGrid.gemColors g, []) in
  let w := window s in
  let w :=
    {| ColorUtils.firstImagePalette :=
         match ColorUtils.firstImagePalette w with
         | Some p => Some p
         | None => Some (Js.keys colorCounts)
         end;
       ColorUtils.firstImagePaletteCounts :=
         match ColorUtils.firstImagePaletteCounts w with
         | Some c => Some c
         | None => Some colorCounts
         end;
       ColorUtils.originalImageColors := Some (Js.keys colorCounts);
       ColorUtils.colorPaletteOriginalImageColors := Some colorCounts |} in
  {| grid := GemGrid.saveState now (GemGrid.withColors g gemColors);
     colors := ColorPalette.extractTopColors colorCounts;
     fullPalette := fullPalette s;
     window := w |}.

(** The object written by the save button of js/appGem.js, lines
    109-124: the persisted grid and the palette. *)
Record projectFile : Type :=
  { fileGrid : gridData;
    filePalette : option (list string) }.

Definition saveGrid (s : t) : projectFile :=
  {| fileGrid := GemGrid.saveToJSON (grid s);
     filePalette := Some (colors s) |}.

(** The handler that loads such a file, js/appGem.js lines 137-156, on an
    object [gridData]; [filePalette] is [None] when [gridData.palette] is
    not an array. The colours of the file are normalised, not
    validated. *)
Definition loadGrid (now : Z) (file : projectFile) (s : t) : t :=
  let g := GemGrid.loadFromJSON now (Some (fileGrid file)) (grid s) in
  {| grid := g;
     colors :=
       match filePalette file with
       | Some palette =>
           ColorPalette.ensureTen (map ColorUtils.normalizeHex palette)
       | None => colors s
       end;
     fullPalette := fullPalette s;
     window := window s |}.

End Session.

(* ================================================================== *)
(** ** Definitions used to state the properties *)
(* ================================================================== *)

Module Spec.

(** The canonical text of a colour: [#] and six upper-case hex digits. *)
Definition isUpperHexDigit (c : ascii) : bool :=
  let n := Js.code c in
  ((48 <=? n) && (n <=? 57)) || ((65 <=? n) && (n <=? 70)).

Definition isCanonical (s : string) : bool :=
  match s with
  | String "#"%char
      (String c5 (String c4 (String c3 (String c2 (String c1
        (String c0 EmptyString)))))) =>
      isUpperHexDigit c5 && isUpperHexDigit c4 && isUpperHexDigit c3
      && isUpperHexDigit c2 && isUpperHexDigit c1 && isUpperHexDigit c0
  | _ => false
  end.

Definition channel (z : Z) : Prop := 0 <= z <= 255.

(** An object has one property per key. *)
Definition wellFormed {V} (o : Js.obj V) : Prop := NoDup (map fst o).

(** The order of the palette: more frequent first, and among equally
    frequent colours the one of greater intensity first. *)
Definition before (a b : ColorPalette.colorIntensity) : Prop :=
  ColorPalette.count b < ColorPalette.count a
  \/ (ColorPalette.count a = ColorPalette.count b
      /\ ColorPalette.intensity b <= ColorPalette.intensity a).

Definition toIntensity (kv : string * Z) : ColorPalette.colorIntensity :=
  let rgb := ColorUtils.hexToRgb (fst kv) in
  {| ColorPalette.color := fst kv; ColorPalette.count := snd kv;
     ColorPalette.intensity := r rgb + g rgb + b rgb |}.

(** *** Operations of a session on a GemGrid *)
Inductive op : Type :=
| Snapshot (now : Z)
| Undo
| Redo
| SetCell (key color : string).

Definition step (g : GemGrid.t) (o : op) : GemGrid.t :=
  match o with
  | Snapshot now => GemGrid.saveState now g
  | Undo => stateOf (GemGrid.undo g)
  | Redo => stateOf (GemGrid.redo g)
  | SetCell key color =>
      GemGrid.withColors g (Js.set (GemGrid.gemColors g) key color)
  end.

Definition run (ops : list op) (g : GemGrid.t) : GemGrid.t :=
  fold_left step ops g.

Definition len (g : GemGrid.t) : Z :=
  Z.of_nat (List.length (GemGrid.history g)).

(** The invariant of the history stack. *)
Definition historyInvariant (g : GemGrid.t) : Prop :=
  -1 <= GemGrid.historyIndex g < len g /\ len g <= 50.

(** The snapshot [saveState] takes of [g] at time [now]. *)
Definition snapshotOf (now : Z) (g : GemGrid.t) : GemGrid.snapshot :=
  {| GemGrid.snapGemColors := GemGrid.gemColors g;
     GemGrid.timestamp := now |}.

(** *** Centroid refinement as the specification words it *)

(** The least index of a centroid at the least distance from [p]; [i] is
    the index of the head of [cs]. *)
Fixpoint nearestFrom (p : rgb) (i : Z) (cs : list rgb) : option (Z * Z) :=
  match cs with
  | [] => None
  | c :: cs' =>
      let d := ColorUtils.colorDistance2 p c in
      match nearestFrom p (i + 1) cs' with
      | Some (j, dj) => if dj <? d then Some (j, dj) else Some (i, d)
      | None => Some (i, d)
      end
  end.

Definition nearest (cs : list rgb) (p : rgb) : Z :=
  match nearestFrom p 0 cs with Some (j, _) => j | None => 0 end.

(** The points assigned to centroid [j]. *)
Definition members (points : list rgb) (assignment : list Z) (j : Z)
  : list rgb :=
  map fst (filter (fun pa => snd pa =? j) (combine points assignment)).

Definition sumOf (f : rgb -> Z) (l : list rgb) : Z :=
  fold_right (fun p acc => f p + acc) 0 l.

(** The componentwise mean of a non-empty list of points, rounded to the
    nearest integer (halves upwards). *)
Definition mean (l : list rgb) : rgb :=
  let n := Z.of_nat (List.length l) in
  RGB ((2 * sumOf r l + n) / (2 * n))
      ((2 * sumOf g l + n) / (2 * n))
      ((2 * sumOf b l + n) / (2 * n)).

Fixpoint recentre (points : list rgb) (assignment : list Z) (j : Z)
         (cs : list rgb) : list rgb :=
  match cs with
  | [] => []
  | c :: cs' =>
      (match members points assignment j with
       | [] => c
       | m => mean m
       end) :: recentre points assignment (j + 1) cs'
  end.

Definition sameAssignment (a a' : list Z) : bool :=
  forallb (fun xy => fst xy =? snd xy) (combine a a').

(** At most [n] rounds; a round assigns every point to its nearest
    centroid and recentres; the rounds stop after the first one whose
    assignment equals the previous one. The result carries the number of
    rounds made. *)
Fixpoint refine (n : nat) (points : list rgb) (cs : list rgb)
         (assignment : list Z) (rounds : Z) : list rgb * Z :=
  match n with
  | O => (cs, rounds)
  | S n' =>
      let assignment' := map (nearest cs) points in
      let cs' := recentre points assignment' 0 cs in
      if sameAssignment assignment assignment'
      then (cs', rounds + 1)
      else refine n' points cs' assignment' (rounds + 1)
  end.

(** *** The inputs of the refinement in [ColorUtils.reduceColors] *)

(** No palette of a first image is recorded: the test of line 569 fails. *)
Definition noFirstPalette (w : ColorUtils.window) : Prop :=
  match ColorUtils.firstImagePalette w, ColorUtils.firstImagePaletteCounts w with
  | Some (_ :: _), Some _ => False
  | _, _ => True
  end.

(** The colours that are clustered (lines 575-581). *)
Definition pointsOf (w : ColorUtils.window) (colors : list string)
  : list string :=
  match ColorUtils.originalImageColors w with
  | Some (c :: cs) => c :: cs
  | _ => colors
  end.

Definition hexOf (c : rgb) : string := ColorUtils.rgbToHex (r c) (g c) (b c).

Definition zero : rgb := RGB 0 0 0.

(** The colour a cell of colour [old] has after a colour mapping. *)
Definition remap (colorMap : Js.obj string) (old : string) : string :=
  match Js.get colorMap old with
  | Some v => if truthyStr v then v else old
  | None => old
  end.

(** The second step of [normalizeHex]: a text of four characters is
    expanded. *)
Definition expand (hex : string) : string :=
  match hex with
  | String h (String r (String g (String b EmptyString))) =>
      String "#"%char (String r (String r (String g (String g
        (String b (String b EmptyString))))))
  | _ => hex
  end.

(** *** The same operations on the HexGrid of js/hexGrid.js *)
Definition hexStep (g : HexGrid.t) (o : op) : HexGrid.t :=
  match o with
  | Snapshot now => HexGrid.saveState now g
  | Undo => stateOf (HexGrid.undo g)
  | Redo => stateOf (HexGrid.redo g)
  | SetCell key color =>
      HexGrid.withColors g (HexGrid.jset (HexGrid.hexColors g) key (JStr color))
  end.

Definition hexRun (ops : list op) (g : HexGrid.t) : HexGrid.t :=
  fold_left hexStep ops g.

Definition hexLen (g : HexGrid.t) : Z :=
  Z.of_nat (List.length (HexGrid.history g)).

Definition hexInvariant (g : HexGrid.t) : Prop :=
  -1 <= HexGrid.historyIndex g < hexLen g /\ hexLen g <= 50.

(** The entry [HexGrid.saveState] pushes for [g] at time [now]. *)
Definition hexEntryOf (now : Z) (g : HexGrid.t) : json :=
  HexGrid.entry (HexGrid.hexColors g) now.

(** A value of the shape of the history entries that
    [HexGrid.saveState] pushes. *)
Definition isHistoryEntry (e : json) : Prop :=
  exists colorsCopy now, e = HexGrid.entry colorsCopy now.

(** A text of ASCII characters. *)
Definition isAsciiChar (c : ascii) : bool := Js.code c <? 128.

Fixpoint isAscii (s : string) : bool :=
  match s with
  | EmptyString => true
  | String c s' => isAsciiChar c && isAscii s'
  end.

(** A text that begins with [#], as every colour that [normalizeHex] or
    [rgbToHex] returns; no member of [Object.prototype] has such a
    name. *)
Definition beginsWithHash (c : string) : bool :=
  match c with
  | String "#"%char _ => true
  | _ => false
  end.

(** The texts among the entries of a palette file, in their order. *)
Fixpoint importTexts (entries : list ColorPalette.fileEntry) : list string :=
  match entries with
  | [] => []
  | ColorPalette.Text s :: rest => s :: importTexts rest
  | ColorPalette.Other _ :: rest => importTexts rest
  end.

(** An entry that is no text and either has no conversion to a text or
    converts to a text that [isValidHex] accepts (the number 123, the
    array that holds the text #fff). *)
Definition importAborts (e : ColorPalette.fileEntry) : bool :=
  match e with
  | ColorPalette.Text _ => false
  | ColorPalette.Other None => true
  | ColorPalette.Other (Some text) => ColorUtils.isValidHex text
  end.

(** A point whose three channels are in 0..255. *)
Definition inGamut (p : rgb) : Prop :=
  channel (r p) /\ channel (g p) /\ channel (b p).

(** The body of the loop of [findClosestColor], for the target of
    channels [t]. *)
Definition scanPalette (t : rgb) (acc : option string * option Z)
           (color : string) : option string * option Z :=
  let '(closestColor, minDistance) := acc in
  let distance := ColorUtils.colorDistance2 t (ColorUtils.hexToRgb color) in
  if ColorUtils.below distance minDistance
  then (Some color, Some distance)
  else (closestColor, minDistance).

End Spec.

(* ================================================================== *)
(** ** Concrete grids and inputs of the scenarios *)
(* ================================================================== *)

(** A 2 x 2 grid of white cells with an empty history. *)
Definition grid2x2 : GemGrid.t := GemGrid.initializeGrid (GemGrid.blank 2 2).

(** The same grid after [applyColorToSelection("#FF0000")] on the
    selection of the cells (0,0) and (1,1). *)
Definition painted2x2 : GemGrid.t :=
  GemGrid.applyColorToSelection 1000 "#FF0000"
    (GemGrid.withSelection grid2x2 ["0,0"; "1,1"]%string).

Definition allWhite2x2 : Js.obj string :=
  [("0,0", "#FFFFFF"); ("1,0", "#FFFFFF");
   ("0,1", "#FFFFFF"); ("1,1", "#FFFFFF")]%string.

Definition twoRed2x2 : Js.obj string :=
  [("0,0", "#FF0000"); ("1,0", "#FFFFFF");
   ("0,1", "#FFFFFF"); ("1,1", "#FF0000")]%string.

(** A 2 x 2 HexGrid after two edits of the cell (0,0). *)
Definition hexGrid2x2 : HexGrid.t := HexGrid.initializeGrid (HexGrid.blank 2 2).

Definition hexSelect (g : HexGrid.t) (sel : list string) : HexGrid.t :=
  {| HexGrid.cols := HexGrid.cols g; HexGrid.rows := HexGrid.rows g;
     HexGrid.hexColors := HexGrid.hexColors g;
     HexGrid.selectedCells := sel;
     HexGrid.history := HexGrid.history g;
     HexGrid.historyIndex := HexGrid.historyIndex g |}.

Definition hexEdited2x2 : HexGrid.t :=
  HexGrid.applyColorToSelection 2000 "#0000FF"
    (HexGrid.applyColorToSelection 1000 "#FF0000"
       (hexSelect hexGrid2x2 ["0,0"%string])).

Definition hexAllWhite2x2 : json :=
  JObj [("0,0", JStr "#FFFFFF"); ("1,0", JStr "#FFFFFF");
        ("0,1", JStr "#FFFFFF"); ("1,1", JStr "#FFFFFF")]%string.

(** The GemGrid after the same two edits. *)
Definition gemEdited2x2 : GemGrid.t :=
  GemGrid.applyColorToSelection 2000 "#0000FF"
    (GemGrid.applyColorToSelection 1000 "#FF0000"
       (GemGrid.withSelection grid2x2 ["0,0"%string])).

(** A persisted grid that carries a cell map and neither [cols] nor
    [rows]. *)
Definition cellsOnly : gridData :=
  {| dataCols := None; dataRows := None;
     dataCells := Some [("0,0", "#00FF00")]%string |}.

(** Globals after a first image of one colour and a second image of three
    colours. *)
Definition secondImage : ColorUtils.window :=
  {| ColorUtils.firstImagePalette := Some ["#FFFFFF"%string];
     ColorUtils.firstImagePaletteCounts := Some [("#FFFFFF"%string, 2560)];
     ColorUtils.originalImageColors :=
       Some ["#000000"; "#080808"; "#FFFFFF"]%string;
     ColorUtils.colorPaletteOriginalImageColors :=
       Some [("#000000", 1000); ("#080808", 1000); ("#FFFFFF", 560)]%string |}.

(** Globals before any image was loaded. *)
Definition noImage : ColorUtils.window :=
  {| ColorUtils.firstImagePalette := None;
     ColorUtils.firstImagePaletteCounts := None;
     ColorUtils.originalImageColors := None;
     ColorUtils.colorPaletteOriginalImageColors := Some [] |}.

Definition threeColors : list string :=
  ["#000000"; "#080808"; "#FFFFFF"]%string.

(** A session on the painted 2 x 2 grid before any image was loaded,
    with a palette of three colours to map images to. *)
Definition paintedSession : Session.t :=
  {| Session.grid := painted2x2;
     Session.colors := repeat "#FFFFFF"%string 10;
     Session.fullPalette := ["#FF0000"; "#00FF00"; "#0000FF"]%string;
     Session.window := noImage |}.

(** The pixel buffer of a 2 x 2 canvas: red, green, blue and white. *)
Definition pixels2x2 : list Z :=
  [255; 0; 0; 255;   0; 255; 0; 255;   0; 0; 255; 255;   255; 255; 255; 255].

(* ================================================================== *)
(** ** Facts about the primitives *)
(* ================================================================== *)

Section JsFacts.

Lemma get_set_same {V} (o : Js.obj V) k v :
  Js.get (Js.set o k v) k = Some v.
Proof.
  induction o as [|[k' v'] o IH]; simpl.
  - now rewrite String.eqb_refl.
  - destruct (String.eqb k k') eqn:E; simpl; rewrite E; auto.
Qed.

Lemma get_set_other {V} (o : Js.obj V) k k' v :
  k' <> k -> Js.get (Js.set o k v) k' = Js.get o k'.
Proof.
  intros Hne. induction o as [|[k0 v0] o IH]; simpl.
  - destruct (String.eqb k' k) eqn:E; auto.
    apply String.eqb_eq in E. contradiction.
  - destruct (String.eqb k k0) eqn:E; simpl.
    + apply String.eqb_eq in E. subst k0.
      destruct (String.eqb k' k) eqn:E'; auto.
      apply String.eqb_eq in E'. contradiction.
    + now rewrite IH.
Qed.

Lemma set_same {V} (o : Js.obj V) k v :
  Js.get o k = Some v -> Js.set o k v = o.
Proof.
  induction o as [|[k' v'] o IH]; simpl; intros H.
  - discriminate.
  - destruct (String.eqb k k') eqn:E.
    + now inversion H.
    + now rewrite IH.
Qed.

Lemma set_keys_present {V} (o : Js.obj V) k v v0 :
  Js.get o k = Some v0 -> map fst (Js.set o k v) = map fst o.
Proof.
  induction o as [|[k' v'] o IH]; simpl; intros H.
  - discriminate.
  - destruct (String.eqb k k') eqn:E; simpl; auto.
    now rewrite IH.
Qed.

Lemma get_In {V} (o : Js.obj V) k v :
  Js.get o k = Some v -> In (k, v) o.
Proof.
  induction o as [|[k' v'] o IH]; simpl; intros H.
  - discriminate.
  - destruct (String.eqb k k') eqn:E.
    + apply String.eqb_eq in E. inversion H. subst. now left.
    + right. auto.
Qed.

Lemma In_get {V} (o : Js.obj V) k v :
  Spec.wellFormed o -> In (k, v) o -> Js.get o k = Some v.
Proof.
  unfold Spec.wellFormed.
  induction o as [|[k' v'] o IH]; simpl; intros Hnd Hin.
  - contradiction.
  - inversion Hnd as [|? ? Hni Hnd']. subst.
    destruct Hin as [Heq|Hin].
    + inversion Heq. subst. now rewrite String.eqb_refl.
    + destruct (String.eqb k k') eqn:E.
      * apply String.eqb_eq in E. subst k'.
        exfalso. apply Hni. change k with (fst (k, v)). now apply in_map.
      * auto.
Qed.

Lemma get_None_notin {V} (o : Js.obj V) k :
  Js.get o k = None <-> ~ In k (map fst o).
Proof.
  induction o as [|[k' v'] o IH]; simpl.
  - tauto.
  - destruct (String.eqb k k') eqn:E.
    + apply String.eqb_eq in E. subst. split; [discriminate|].
      intros H. exfalso. apply H. now left.
    + apply String.eqb_neq in E. rewrite IH. split.
      * intros H [H1|H1]; [congruence | tauto].
      * tauto.
Qed.

(** Sorting rearranges and orders. *)
Lemma insert_perm {A} (cmp : A -> A -> Z) x l :
  Permutation (Js.insert cmp x l) (x :: l).
Proof.
  induction l as [|y ys IH]; simpl.
  - apply Permutation_refl.
  - destruct (cmp x y <=? 0).
    + apply Permutation_refl.
    + eapply perm_trans; [apply perm_skip, IH | apply perm_swap].
Qed.

Lemma sort_perm {A} (cmp : A -> A -> Z) l :
  Permutation (Js.sort cmp l) l.
Proof.
  induction l as [|x xs IH]; simpl.
  - apply perm_nil.
  - eapply perm_trans; [apply insert_perm | now apply perm_skip].
Qed.

Lemma sort_length {A} (cmp : A -> A -> Z) l :
  List.length (Js.sort cmp l) = List.length l.
Proof. apply Permutation_length, sort_perm. Qed.

Lemma insert_sorted {A} (cmp : A -> A -> Z) (R : A -> A -> Prop) :
  (forall x y, cmp x y <= 0 -> R x y) ->
  (forall x y, ~ cmp x y <= 0 -> R y x) ->
  (forall x y z, R x y -> R y z -> R x z) ->
  forall x l, StronglySorted R l -> StronglySorted R (Js.insert cmp x l).
Proof.
  intros Hle Hgt Htr x l Hs.
  induction Hs as [|y ys Hs IH Hall]; simpl.
  - repeat constructor.
  - destruct (cmp x y <=? 0) eqn:E.
    + apply Z.leb_le in E. constructor.
      * now constructor.
      * constructor; [now apply Hle|].
        rewrite Forall_forall in *. intros z Hz.
        eapply Htr; [apply Hle, E | now apply Hall].
    + apply Z.leb_gt in E. constructor; [exact IH|].
      rewrite Forall_forall in *. intros z Hz.
      apply (Permutation_in _ (insert_perm cmp x ys)) in Hz.
      destruct Hz as [<-|Hz]; [apply Hgt; lia | now apply Hall].
Qed.

Lemma sort_sorted {A} (cmp : A -> A -> Z) (R : A -> A -> Prop) :
  (forall x y, cmp x y <= 0 -> R x y) ->
  (forall x y, ~ cmp x y <= 0 -> R y x) ->
  (forall x y z, R x y -> R y z -> R x z) ->
  forall l, StronglySorted R (Js.sort cmp l).
Proof.
  intros Hle Hgt Htr l.
  induction l as [|x xs IH]; simpl.
  - constructor.
  - now apply (insert_sorted cmp R).
Qed.

Lemma filter_partition_perm {A} (f : A -> bool) (l : list A) :
  Permutation (filter f l ++ filter (fun x => negb (f x)) l) l.
Proof.
  induction l as [|x xs IH]; simpl.
  - apply perm_nil.
  - destruct (f x); simpl.
    + now apply perm_skip.
    + eapply perm_trans; [apply Permutation_sym, Permutation_middle|].
      now apply perm_skip.
Qed.

Lemma entries_perm {V} (o : Js.obj V) : Permutation (Js.entries o) o.
Proof.
  unfold Js.entries.
  eapply perm_trans; [|apply (filter_partition_perm Js.isIndexKey)].
  apply Permutation_app_tail, sort_perm.
Qed.

Lemma keys_perm {V} (o : Js.obj V) : Permutation (Js.keys o) (map fst o).
Proof. unfold Js.keys. apply Permutation_map, entries_perm. Qed.

Lemma slice0_firstn {A} (e : Z) (l : list A) :
  0 <= e -> Js.slice0 e l = firstn (Z.to_nat e) l.
Proof.
  intros H. unfold Js.slice0.
  destruct (e <? 0) eqn:E; [apply Z.ltb_lt in E; lia | reflexivity].
Qed.

End JsFacts.

(* ================================================================== *)
(** ** Nearest match on an empty palette *)
(* ================================================================== *)

(** On a palette with an entry the result is an entry of the palette. *)
Lemma findClosestColor_member target palette :
  palette <> [] ->
  exists c, ColorUtils.findClosestColor target palette = Some c /\ In c palette.
Proof.
  intros Hne. unfold ColorUtils.findClosestColor.
  destruct palette as [|p0 ps]; [contradiction|].
  set (f := fun '(closestColor, minDistance) color => _).
  assert (G : forall l (acc : option string * option Z) c0,
             fst acc = Some c0 ->
             exists c, fst (fold_left f l acc) = Some c /\ (c = c0 \/ In c l)).
  { induction l as [|x xs IH]; intros [cc md] c0 Hacc; simpl in *.
    - eauto.
    - destruct (ColorUtils.below _ md).
      + destruct (IH (Some x, Some (ColorUtils.colorDistance2
                                      (ColorUtils.hexToRgb target)
                                      (ColorUtils.hexToRgb x))) x eq_refl)
          as (c & Hc & Hin).
        exists c. split; [exact Hc|]. right. destruct Hin; [left; congruence | now right].
      + destruct (IH (cc, md) c0 Hacc) as (c & Hc & Hin).
        exists c. split; [exact Hc|]. destruct Hin; [now left | right; now right]. }
  destruct (G (p0 :: ps) (nth_error (p0 :: ps) 0, None) p0 eq_refl)
    as (c & Hc & Hin).
  exists c. split; [exact Hc|]. destruct Hin as [->|Hin]; [now left | exact Hin].
Qed.

(** C10. For every target colour, [findClosestColor] called with an empty
    candidate list raises nothing and returns [palette[0]], which is
    [undefined]; this holds for the revision of part 002 and for the one of
    js/colorUtils2.js. *)
Theorem findClosestColor_empty_palette :
  forall target : string,
    ColorUtils.findClosestColor target [] = None
    /\ ColorUtils2.findClosestColor target [] = None.
Proof. intros target. split; reflexivity. Qed.

(* ================================================================== *)
(** ** The top-ten palette *)
(* ================================================================== *)

Lemma before_trans a b c : Spec.before a b -> Spec.before b c -> Spec.before a c.
Proof. unfold Spec.before. lia. Qed.

Lemma firstn_pad {A} (w : A) (l : list A) :
  firstn 10 (firstn (Nat.min 10 (List.length l)) l
             ++ repeat w (10 - List.length (firstn (Nat.min 10 (List.length l)) l)))
  = firstn 10 l ++ repeat w (10 - List.length l).
Proof.
  assert (E : firstn (Nat.min 10 (List.length l)) l = firstn 10 l).
  { destruct (Nat.le_ge_cases 10 (List.length l)) as [H|H].
    - now rewrite Nat.min_l.
    - rewrite Nat.min_r by exact H.
      rewrite firstn_all. symmetry. now apply firstn_all2. }
  rewrite E.
  assert (L : List.length (firstn 10 l) = Nat.min 10 (List.length l))
    by apply length_firstn.
  rewrite L.
  replace (10 - Nat.min 10 (List.length l))%nat with (10 - List.length l)%nat
    by lia.
  apply firstn_all2. rewrite length_app, repeat_length, L. lia.
Qed.


(** The scenario of the specification: two colours tie on count and on
    intensity and keep their order of insertion. *)
Example extractTopColors_scenario :
  ColorPalette.extractTopColors
    [("#FF0000", 5); ("#00FF00", 5); ("#0000FF", 1)]%string
  = ["#FF0000"; "#00FF00"; "#0000FF"; "#FFFFFF"; "#FFFFFF"; "#FFFFFF";
     "#FFFFFF"; "#FFFFFF"; "#FFFFFF"; "#FFFFFF"]%string.
Proof. reflexivity. Qed.

(* ================================================================== *)
(** ** The history stack of the GemGrid *)
(* ================================================================== *)

Section History.

Lemma at_Some {A} (l : list A) (i : Z) :
  0 <= i < Z.of_nat (List.length l) -> exists x, GemGrid.at_ l i = Some x.
Proof.
  intros H. unfold GemGrid.at_.
  destruct (i <? 0) eqn:E; [apply Z.ltb_lt in E; lia|].
  destruct (nth_error l (Z.to_nat i)) eqn:N; [eauto|].
  apply nth_error_None in N. lia.
Qed.

Lemma at_last {A} (l : list A) (x : A) :
  GemGrid.at_ (l ++ [x]) (Z.of_nat (List.length l)) = Some x.
Proof.
  unfold GemGrid.at_.
  destruct (Z.of_nat (List.length l) <? 0) eqn:E; [apply Z.ltb_lt in E; lia|].
  rewrite Nat2Z.id, nth_error_app2 by lia.
  now rewrite Nat.sub_diag.
Qed.

(** What [saveState] does to a stack that satisfies the invariant: the
    entries after the cursor are dropped, the snapshot is appended, and a
    fifty-first entry pushes the oldest one out. *)
Lemma saveState_history now g :
  Spec.historyInvariant g ->
  let kept := firstn (Z.to_nat (GemGrid.historyIndex g + 1)) (GemGrid.history g) in
  let pushed := kept ++ [Spec.snapshotOf now g] in
  List.length kept = Z.to_nat (GemGrid.historyIndex g + 1)
  /\ GemGrid.history (GemGrid.saveState now g)
     = (if 50 <? GemGrid.historyIndex g + 2 then tl pushed else pushed)
  /\ GemGrid.historyIndex (GemGrid.saveState now g)
     = (if 50 <? GemGrid.historyIndex g + 2
        then GemGrid.historyIndex g else GemGrid.historyIndex g + 1)
  /\ GemGrid.gemColors (GemGrid.saveState now g) = GemGrid.gemColors g
  /\ GemGrid.selectedCells (GemGrid.saveState now g) = GemGrid.selectedCells g
  /\ GemGrid.cols (GemGrid.saveState now g) = GemGrid.cols g
  /\ GemGrid.rows (GemGrid.saveState now g) = GemGrid.rows g.
Proof.
  intros [Hi Hl] kept pushed. unfold Spec.len in *.
  assert (Lk : List.length kept = Z.to_nat (GemGrid.historyIndex g + 1)).
  { unfold kept. rewrite length_firstn. lia. }
  assert (Ek : (if GemGrid.historyIndex g
                   <? Z.of_nat (List.length (GemGrid.history g)) - 1
                then Js.slice0 (GemGrid.historyIndex g + 1) (GemGrid.history g)
                else GemGrid.history g) = kept).
  { destruct (_ <? _) eqn:E.
    - now rewrite slice0_firstn by lia.
    - apply Z.ltb_ge in E. unfold kept. symmetry. apply firstn_all2. lia. }
  assert (Lp : Z.of_nat (List.length pushed) = GemGrid.historyIndex g + 2).
  { unfold pushed. rewrite length_app, Lk. simpl. lia. }
  split; [exact Lk|].
  unfold GemGrid.saveState. rewrite Ek.
  change (kept ++ [ {| GemGrid.snapGemColors := GemGrid.gemColors g;
                       GemGrid.timestamp := now |} ]) with pushed.
  rewrite Lp.
  destruct (50 <? GemGrid.historyIndex g + 2) eqn:E; simpl;
    repeat split; try reflexivity; lia.
Qed.

Lemma saveState_invariant now g :
  Spec.historyInvariant g -> Spec.historyInvariant (GemGrid.saveState now g).
Proof.
  intros H. pose proof H as [Hi Hl].
  destruct (saveState_history now g H) as (Lk & Eh & Ei & _).
  unfold Spec.historyInvariant, Spec.len in *. rewrite Eh, Ei.
  destruct (50 <? GemGrid.historyIndex g + 2) eqn:E;
    [apply Z.ltb_lt in E | apply Z.ltb_ge in E].
  - destruct (firstn _ _ ++ _) eqn:P.
    + apply (f_equal (@List.length _)) in P. rewrite length_app in P.
      simpl in P. lia.
    + apply (f_equal (@List.length _)) in P. rewrite length_app, Lk in P.
      simpl in *. lia.
  - rewrite length_app, Lk. simpl. lia.
Qed.

Lemma undo_spec g :
  Spec.historyInvariant g ->
  (GemGrid.historyIndex g <= 0 -> GemGrid.undo g = Normal g)
  /\ (0 < GemGrid.historyIndex g ->
      exists s,
        GemGrid.at_ (GemGrid.history g) (GemGrid.historyIndex g - 1) = Some s
        /\ GemGrid.undo g
           = Normal (GemGrid.withColors
                       (GemGrid.withHistory g (GemGrid.history g)
                                            (GemGrid.historyIndex g - 1))
                       (GemGrid.snapGemColors s))).
Proof.
  intros [Hi Hl]. unfold Spec.len in *. unfold GemGrid.undo. split; intros H.
  - destruct (0 <? GemGrid.historyIndex g) eqn:E; [apply Z.ltb_lt in E; lia|].
    reflexivity.
  - destruct (0 <? GemGrid.historyIndex g) eqn:E; [|apply Z.ltb_ge in E; lia].
    simpl.
    destruct (at_Some (GemGrid.history g) (GemGrid.historyIndex g - 1)) as [s Hs];
      [lia|].
    exists s. now rewrite Hs.
Qed.

Lemma redo_spec g :
  Spec.historyInvariant g ->
  (Spec.len g - 1 <= GemGrid.historyIndex g -> GemGrid.redo g = Normal g)
  /\ (GemGrid.historyIndex g < Spec.len g - 1 ->
      exists s,
        GemGrid.at_ (GemGrid.history g) (GemGrid.historyIndex g + 1) = Some s
        /\ GemGrid.redo g
           = Normal (GemGrid.withColors
                       (GemGrid.withHistory g (GemGrid.history g)
                                            (GemGrid.historyIndex g + 1))
                       (GemGrid.snapGemColors s))).
Proof.
  intros [Hi Hl]. unfold Spec.len in *. unfold GemGrid.redo. split; intros H.
  - destruct (_ <? _) eqn:E; [apply Z.ltb_lt in E; lia|]. reflexivity.
  - destruct (_ <? _) eqn:E; [|apply Z.ltb_ge in E; lia].
    simpl.
    destruct (at_Some (GemGrid.history g) (GemGrid.historyIndex g + 1)) as [s Hs];
      [lia|].
    exists s. now rewrite Hs.
Qed.

Lemma step_invariant g o :
  Spec.historyInvariant g -> Spec.historyInvariant (Spec.step g o).
Proof.
  intros H. destruct o as [now| | |key color]; simpl.
  - now apply saveState_invariant.
  - destruct (undo_spec g H) as [U0 U1].
    destruct (Z_lt_le_dec 0 (GemGrid.historyIndex g)) as [L|L].
    + destruct (U1 L) as (s & _ & ->). simpl.
      destruct H as [Hi Hl]. unfold Spec.historyInvariant, Spec.len in *.
      simpl. lia.
    + now rewrite (U0 L).
  - destruct (redo_spec g H) as [R0 R1].
    destruct (Z_lt_le_dec (GemGrid.historyIndex g) (Spec.len g - 1)) as [L|L].
    + destruct (R1 L) as (s & _ & ->). simpl.
      destruct H as [Hi Hl]. unfold Spec.historyInvariant, Spec.len in *.
      simpl. lia.
    + now rewrite (R0 L).
  - exact H.
Qed.

Lemma run_invariant ops g :
  Spec.historyInvariant g -> Spec.historyInvariant (Spec.run ops g).
Proof.
  revert g. induction ops as [|o ops IH]; intros g H; simpl.
  - exact H.
  - apply IH. now apply step_invariant.
Qed.

End History.

Lemma gem_history :
  forall (g0 : GemGrid.t) (ops : list Spec.op) (now : Z),
    GemGrid.history g0 = [] ->
    GemGrid.historyIndex g0 = -1 ->
    let g := Spec.run ops g0 in
    let g' := GemGrid.saveState now g in
    (-1 <= GemGrid.historyIndex g < Spec.len g /\ Spec.len g <= 50)
    /\ (GemGrid.historyIndex g < Spec.len g - 1 ->
        GemGrid.history g'
        = firstn (Z.to_nat (GemGrid.historyIndex g + 1)) (GemGrid.history g)
          ++ [Spec.snapshotOf now g]
        /\ GemGrid.historyIndex g' = GemGrid.historyIndex g + 1)
    /\ (Spec.len g = 50 -> GemGrid.historyIndex g = 49 ->
        GemGrid.history g' = tl (GemGrid.history g) ++ [Spec.snapshotOf now g]
        /\ GemGrid.historyIndex g' = 49
        /\ GemGrid.at_ (GemGrid.history g') (GemGrid.historyIndex g')
           = Some (Spec.snapshotOf now g)).
Proof.
  intros g0 ops now H0 H1 g g'.
  assert (I0 : Spec.historyInvariant g0).
  { unfold Spec.historyInvariant, Spec.len. rewrite H0, H1. simpl. lia. }
  assert (I : Spec.historyInvariant g) by now apply run_invariant.
  destruct (saveState_history now g I) as (Lk & Eh & Ei & _).
  fold g' in Eh, Ei.
  split; [exact I|]. destruct I as [Hi Hl]. split.
  - intros Hlt.
    assert (E : (50 <? GemGrid.historyIndex g + 2) = false)
      by (apply Z.ltb_ge; lia).
    rewrite E in Eh, Ei. now split.
  - intros Hfull Htop.
    assert (E : (50 <? GemGrid.historyIndex g + 2) = true)
      by (apply Z.ltb_lt; lia).
    rewrite E in Eh, Ei.
    assert (Ef : firstn (Z.to_nat (GemGrid.historyIndex g + 1)) (GemGrid.history g)
                 = GemGrid.history g).
    { apply firstn_all2. unfold Spec.len in Hfull. lia. }
    rewrite Ef in Eh.
    assert (Et : tl (GemGrid.history g ++ [Spec.snapshotOf now g])
                 = tl (GemGrid.history g) ++ [Spec.snapshotOf now g]).
    { unfold Spec.len in Hfull.
      destruct (GemGrid.history g); [simpl in Hfull; lia | reflexivity]. }
    rewrite Et in Eh. rewrite Eh, Ei, Htop. repeat split.
    replace 49 with (Z.of_nat (List.length (tl (GemGrid.history g)))).
    + apply at_last.
    + unfold Spec.len in Hfull.
      destruct (GemGrid.history g); simpl in Hfull |- *; lia.
Qed.

Section HexHistoryStack.

(** [HexGrid.saveState] is the text of [GemGrid.saveState] on
    [hexColors]: the same three facts hold of it. *)
Lemma hexSaveState_history now g :
  Spec.hexInvariant g ->
  let kept := firstn (Z.to_nat (HexGrid.historyIndex g + 1)) (HexGrid.history g) in
  let pushed := kept ++ [Spec.hexEntryOf now g] in
  List.length kept = Z.to_nat (HexGrid.historyIndex g + 1)
  /\ HexGrid.history (HexGrid.saveState now g)
     = (if 50 <? HexGrid.historyIndex g + 2 then tl pushed else pushed)
  /\ HexGrid.historyIndex (HexGrid.saveState now g)
     = (if 50 <? HexGrid.historyIndex g + 2
        then HexGrid.historyIndex g else HexGrid.historyIndex g + 1).
Proof.
  intros [Hi Hl] kept pushed. unfold Spec.hexLen in *.
  assert (Lk : List.length kept = Z.to_nat (HexGrid.historyIndex g + 1)).
  { unfold kept. rewrite length_firstn. lia. }
  assert (Ek : (if HexGrid.historyIndex g
                   <? Z.of_nat (List.length (HexGrid.history g)) - 1
                then Js.slice0 (HexGrid.historyIndex g + 1) (HexGrid.history g)
                else HexGrid.history g) = kept).
  { destruct (_ <? _) eqn:E.
    - now rewrite slice0_firstn by lia.
    - apply Z.ltb_ge in E. unfold kept. symmetry. apply firstn_all2. lia. }
  assert (Lp : Z.of_nat (List.length pushed) = HexGrid.historyIndex g + 2).
  { unfold pushed. rewrite length_app, Lk. cbn [List.length]. lia. }
  split; [exact Lk|].
  unfold HexGrid.saveState. rewrite Ek.
  change (kept ++ [HexGrid.entry (HexGrid.hexColors g) now]) with pushed.
  rewrite Lp.
  destruct (50 <? HexGrid.historyIndex g + 2) eqn:E;
    cbn [HexGrid.history HexGrid.historyIndex HexGrid.withHistory];
    split; try reflexivity; lia.
Qed.

Lemma hexSaveState_invariant now g :
  Spec.hexInvariant g -> Spec.hexInvariant (HexGrid.saveState now g).
Proof.
  intros H. pose proof H as [Hi Hl].
  destruct (hexSaveState_history now g H) as (Lk & Eh & Ei).
  unfold Spec.hexInvariant, Spec.hexLen in *. rewrite Eh, Ei.
  destruct (50 <? HexGrid.historyIndex g + 2) eqn:E;
    [apply Z.ltb_lt in E | apply Z.ltb_ge in E].
  - destruct (firstn _ _ ++ _) eqn:P.
    + apply (f_equal (@List.length _)) in P. rewrite length_app in P.
      cbn [List.length] in P. lia.
    + apply (f_equal (@List.length _)) in P. rewrite length_app, Lk in P.
      cbn [List.length tl] in *. lia.
  - rewrite length_app, Lk. cbn [List.length]. lia.
Qed.

Lemma hexStep_invariant g o :
  Spec.hexInvariant g -> Spec.hexInvariant (Spec.hexStep g o).
Proof.
  intros H. destruct o as [now| | |key color]; cbn [Spec.hexStep].
  - now apply hexSaveState_invariant.
  - destruct H as [Hi Hl]. unfold HexGrid.undo.
    destruct (0 <? HexGrid.historyIndex g) eqn:E; [|now split].
    apply Z.ltb_lt in E. cbv zeta.
    cbn [HexGrid.history HexGrid.historyIndex HexGrid.withHistory].
    destruct (GemGrid.at_ (HexGrid.history g) (HexGrid.historyIndex g - 1));
      cbn [stateOf]; unfold Spec.hexInvariant, Spec.hexLen in *; cbn; lia.
  - destruct H as [Hi Hl]. unfold HexGrid.redo.
    destruct (HexGrid.historyIndex g
              <? Z.of_nat (List.length (HexGrid.history g)) - 1) eqn:E;
      [|now split].
    apply Z.ltb_lt in E. cbv zeta.
    cbn [HexGrid.history HexGrid.historyIndex HexGrid.withHistory].
    destruct (GemGrid.at_ (HexGrid.history g) (HexGrid.historyIndex g + 1));
      cbn [stateOf]; unfold Spec.hexInvariant, Spec.hexLen in *; cbn; lia.
  - exact H.
Qed.

Lemma hexRun_invariant ops g :
  Spec.hexInvariant g -> Spec.hexInvariant (Spec.hexRun ops g).
Proof.
  revert g. induction ops as [|o ops IH]; intros g H; cbn.
  - exact H.
  - apply IH. now apply hexStep_invariant.
Qed.

Lemma hex_history :
  forall (h0 : HexGrid.t) (ops : list Spec.op) (now : Z),
    HexGrid.history h0 = [] ->
    HexGrid.historyIndex h0 = -1 ->
    let h := Spec.hexRun ops h0 in
    let h' := HexGrid.saveState now h in
    (-1 <= HexGrid.historyIndex h < Spec.hexLen h /\ Spec.hexLen h <= 50)
    /\ (HexGrid.historyIndex h < Spec.hexLen h - 1 ->
        HexGrid.history h'
        = firstn (Z.to_nat (HexGrid.historyIndex h + 1)) (HexGrid.history h)
          ++ [Spec.hexEntryOf now h]
        /\ HexGrid.historyIndex h' = HexGrid.historyIndex h + 1)
    /\ (Spec.hexLen h = 50 -> HexGrid.historyIndex h = 49 ->
        HexGrid.history h' = tl (HexGrid.history h) ++ [Spec.hexEntryOf now h]
        /\ HexGrid.historyIndex h' = 49
        /\ GemGrid.at_ (HexGrid.history h') (HexGrid.historyIndex h')
           = Some (Spec.hexEntryOf now h)).
Proof.
  intros h0 ops now H0 H1 h h'.
  assert (I0 : Spec.hexInvariant h0).
  { unfold Spec.hexInvariant, Spec.hexLen. rewrite H0, H1. cbn. lia. }
  assert (I : Spec.hexInvariant h) by now apply hexRun_invariant.
  destruct (hexSaveState_history now h I) as (Lk & Eh & Ei).
  fold h' in Eh, Ei.
  split; [exact I|]. destruct I as [Hi Hl]. split.
  - intros Hlt.
    assert (E : (50 <? HexGrid.historyIndex h + 2) = false)
      by (apply Z.ltb_ge; lia).
    rewrite E in Eh, Ei. now split.
  - intros Hfull Htop.
    assert (E : (50 <? HexGrid.historyIndex h + 2) = true)
      by (apply Z.ltb_lt; lia).
    rewrite E in Eh, Ei.
    assert (Ef : firstn (Z.to_nat (HexGrid.historyIndex h + 1)) (HexGrid.history h)
                 = HexGrid.history h).
    { apply firstn_all2. unfold Spec.hexLen in Hfull. lia. }
    rewrite Ef in Eh.
    assert (Et : tl (HexGrid.history h ++ [Spec.hexEntryOf now h])
                 = tl (HexGrid.history h) ++ [Spec.hexEntryOf now h]).
    { unfold Spec.hexLen in Hfull.
      destruct (HexGrid.history h); [cbn in Hfull; lia | reflexivity]. }
    rewrite Et in Eh. rewrite Eh, Ei, Htop.
    split; [reflexivity|]. split; [reflexivity|].
    replace 49 with (Z.of_nat (List.length (tl (HexGrid.history h)))).
    + apply at_last.
    + unfold Spec.hexLen in Hfull.
      destruct (HexGrid.history h); cbn in Hfull |- *; lia.
Qed.

End HexHistoryStack.

(** C4. On the GemGrid of js/gemGrid.js and on the HexGrid of
    js/hexGrid.js alike: after every sequence of snapshot, undo and redo
    operations (and direct cell writes) that starts from the empty history
    with index -1, the index stays within [-1, length), the stack holds at
    most 50 snapshots, a snapshot taken while the index is below the top
    drops every snapshot after the index, and a snapshot taken on a full
    stack pushes the oldest one out and leaves the index on the new top. *)
Theorem history_invariant :
  forall (g0 : GemGrid.t) (h0 : HexGrid.t) (ops : list Spec.op) (now : Z),
    GemGrid.history g0 = [] ->
    GemGrid.historyIndex g0 = -1 ->
    HexGrid.history h0 = [] ->
    HexGrid.historyIndex h0 = -1 ->
    let g := Spec.run ops g0 in
    let g' := GemGrid.saveState now g in
    let h := Spec.hexRun ops h0 in
    let h' := HexGrid.saveState now h in
    ((-1 <= GemGrid.historyIndex g < Spec.len g /\ Spec.len g <= 50)
     /\ (GemGrid.historyIndex g < Spec.len g - 1 ->
         GemGrid.history g'
         = firstn (Z.to_nat (GemGrid.historyIndex g + 1)) (GemGrid.history g)
           ++ [Spec.snapshotOf now g]
         /\ GemGrid.historyIndex g' = GemGrid.historyIndex g + 1)
     /\ (Spec.len g = 50 -> GemGrid.historyIndex g = 49 ->
         GemGrid.history g' = tl (GemGrid.history g) ++ [Spec.snapshotOf now g]
         /\ GemGrid.historyIndex g' = 49
         /\ GemGrid.at_ (GemGrid.history g') (GemGrid.historyIndex g')
            = Some (Spec.snapshotOf now g)))
    /\ ((-1 <= HexGrid.historyIndex h < Spec.hexLen h /\ Spec.hexLen h <= 50)
        /\ (HexGrid.historyIndex h < Spec.hexLen h - 1 ->
            HexGrid.history h'
            = firstn (Z.to_nat (HexGrid.historyIndex h + 1)) (HexGrid.history h)
              ++ [Spec.hexEntryOf now h]
            /\ HexGrid.historyIndex h' = HexGrid.historyIndex h + 1)
        /\ (Spec.hexLen h = 50 -> HexGrid.historyIndex h = 49 ->
            HexGrid.history h'
            = tl (HexGrid.history h) ++ [Spec.hexEntryOf now h]
            /\ HexGrid.historyIndex h' = 49
            /\ GemGrid.at_ (HexGrid.history h') (HexGrid.historyIndex h')
               = Some (Spec.hexEntryOf now h))).
Proof.
  intros g0 h0 ops now G0 G1 H0 H1 g g' h h'. split.
  - apply (gem_history g0 ops now G0 G1).
  - apply (hex_history h0 ops now H0 H1).
Qed.

Lemma history_invariant_witness :
  ((let g := Spec.run [Spec.Snapshot 1; Spec.Snapshot 2; Spec.Undo] grid2x2 in
    GemGrid.history (GemGrid.saveState 3 g)
    = firstn (Z.to_nat (GemGrid.historyIndex g + 1)) (GemGrid.history g)
      ++ [Spec.snapshotOf 3 g]
    /\ GemGrid.historyIndex (GemGrid.saveState 3 g) = GemGrid.historyIndex g + 1)
   /\ (let h := Spec.hexRun [Spec.Snapshot 1; Spec.Snapshot 2; Spec.Undo]
                            hexGrid2x2 in
       HexGrid.history (HexGrid.saveState 3 h)
       = firstn (Z.to_nat (HexGrid.historyIndex h + 1)) (HexGrid.history h)
         ++ [Spec.hexEntryOf 3 h]
       /\ HexGrid.historyIndex (HexGrid.saveState 3 h)
          = HexGrid.historyIndex h + 1))
  /\ ((let g := Spec.run (repeat (Spec.Snapshot 7) 50) grid2x2 in
       GemGrid.history (GemGrid.saveState 8 g)
       = tl (GemGrid.history g) ++ [Spec.snapshotOf 8 g]
       /\ GemGrid.historyIndex (GemGrid.saveState 8 g) = 49
       /\ GemGrid.at_ (GemGrid.history (GemGrid.saveState 8 g))
                      (GemGrid.historyIndex (GemGrid.saveState 8 g))
          = Some (Spec.snapshotOf 8 g))
      /\ (let h := Spec.hexRun (repeat (Spec.Snapshot 7) 50) hexGrid2x2 in
          HexGrid.history (HexGrid.saveState 8 h)
          = tl (HexGrid.history h) ++ [Spec.hexEntryOf 8 h]
          /\ HexGrid.historyIndex (HexGrid.saveState 8 h) = 49
          /\ GemGrid.at_ (HexGrid.history (HexGrid.saveState 8 h))
                         (HexGrid.historyIndex (HexGrid.saveState 8 h))
             = Some (Spec.hexEntryOf 8 h))).
Proof.
  split.
  - destruct (history_invariant
                grid2x2 hexGrid2x2 [Spec.Snapshot 1; Spec.Snapshot 2; Spec.Undo] 3
                eq_refl eq_refl eq_refl eq_refl) as [(_ & G & _) (_ & H & _)].
    split; [apply G | apply H]; vm_compute; reflexivity.
  - destruct (history_invariant
                grid2x2 hexGrid2x2 (repeat (Spec.Snapshot 7) 50) 8
                eq_refl eq_refl eq_refl eq_refl) as [(_ & _ & G) (_ & _ & H)].
    split; [apply G | apply H]; vm_compute; reflexivity.
Defined.

(* ================================================================== *)
(** ** Undo and redo *)
(* ================================================================== *)

(** [GemGrid.undo] does what the contract says: nothing at index 0 or
    below, otherwise one step down and the colour map of the snapshot
    there. *)
Lemma gemGrid_undo_restores_map g :
  Spec.historyInvariant g ->
  (GemGrid.historyIndex g <= 0 -> stateOf (GemGrid.undo g) = g)
  /\ (0 < GemGrid.historyIndex g ->
      exists s,
        GemGrid.at_ (GemGrid.history g) (GemGrid.historyIndex g - 1) = Some s
        /\ GemGrid.historyIndex (stateOf (GemGrid.undo g))
           = GemGrid.historyIndex g - 1
        /\ GemGrid.gemColors (stateOf (GemGrid.undo g)) = GemGrid.snapGemColors s).
Proof.
  intros H. destruct (undo_spec g H) as [U0 U1]. split; intros L.
  - now rewrite (U0 L).
  - destruct (U1 L) as (s & Hs & ->). exists s. now repeat split.
Qed.

(** [HexGrid.undo] assigns the history entry itself. *)
Lemma hexGrid_undo_assigns_entry g e :
  0 < HexGrid.historyIndex g ->
  GemGrid.at_ (HexGrid.history g) (HexGrid.historyIndex g - 1) = Some e ->
  HexGrid.hexColors (stateOf (HexGrid.undo g)) = e.
Proof.
  intros L He. unfold HexGrid.undo.
  destruct (0 <? HexGrid.historyIndex g) eqn:E; [|apply Z.ltb_ge in E; lia].
  simpl. now rewrite He.
Qed.

(** C2, at the failing input. On the HexGrid of js/hexGrid.js with two
    snapshots and the cursor on the second, [undo] moves the cursor to the
    first and stores in [hexColors] the whole history entry
    [{hexColors, timestamp}], which is not the cell-to-colour map it wraps;
    the undo button of js/appGem.js moves the cursor and throws before it
    restores anything. *)
Theorem hexGrid_undo_restores_wrapper :
  HexGrid.historyIndex hexEdited2x2 = 1
  /\ GemGrid.at_ (HexGrid.history hexEdited2x2) 0
     = Some (HexGrid.entry hexAllWhite2x2 1000)
  /\ HexGrid.undo hexEdited2x2
     = Normal (HexGrid.withColors
                 (HexGrid.withHistory hexEdited2x2
                                      (HexGrid.history hexEdited2x2) 0)
                 (HexGrid.entry hexAllWhite2x2 1000))
  /\ HexGrid.hexColors (stateOf (HexGrid.undo hexEdited2x2)) <> hexAllWhite2x2
  /\ GemGrid.gemColors (stateOf (GemGrid.undo gemEdited2x2)) = allWhite2x2
  /\ AppGem.undoButton gemEdited2x2
     = Throw (GemGrid.withHistory gemEdited2x2
                                  (GemGrid.history gemEdited2x2) 0).
Proof.
  repeat split; try reflexivity.
  vm_compute. discriminate.
Qed.

(** C3, at the scenario. After the edit the histogram is
    [{#FFFFFF: 2, #FF0000: 2}]; the history then holds one snapshot, the
    cursor is 0, and [undo] changes nothing: the grid keeps its two red
    cells, and [redo] changes nothing either. *)
Theorem scenario_first_undo_is_noop :
  GemGrid.gemColors grid2x2 = allWhite2x2
  /\ GemGrid.gemColors painted2x2 = twoRed2x2
  /\ Js.entries (GemGrid.getColorCounts painted2x2)
     = [("#FF0000", 2); ("#FFFFFF", 2)]%string
  /\ GemGrid.historyIndex painted2x2 = 0
  /\ GemGrid.undo painted2x2 = Normal painted2x2
  /\ GemGrid.gemColors (stateOf (GemGrid.undo painted2x2)) <> allWhite2x2
  /\ GemGrid.redo (stateOf (GemGrid.undo painted2x2)) = Normal painted2x2.
Proof.
  repeat split; try reflexivity.
  vm_compute. discriminate.
Qed.

(* ================================================================== *)
(** ** Applying a colour mapping *)
(* ================================================================== *)

Section ColorMapping.

Variable colorMap : Js.obj string.

Lemma visit_get m key key' :
  Js.get (GemGrid.remapCell colorMap m key) key'
  = if String.eqb key' key then option_map (Spec.remap colorMap) (Js.get m key)
    else Js.get m key'.
Proof.
  unfold GemGrid.remapCell, Spec.remap.
  destruct (String.eqb key' key) eqn:E.
  - apply String.eqb_eq in E. subst key'.
    destruct (Js.get m key) as [old|] eqn:G; simpl; [|exact G].
    destruct (Js.get colorMap old) as [v|]; [|exact G].
    destruct (truthyStr v); [apply get_set_same | exact G].
  - apply String.eqb_neq in E.
    destruct (Js.get m key) as [old|]; [|reflexivity].
    destruct (Js.get colorMap old) as [v|]; [|reflexivity].
    destruct (truthyStr v); [now apply get_set_other | reflexivity].
Qed.

Lemma visit_all_get ks :
  NoDup ks ->
  forall m key,
    Js.get (fold_left (GemGrid.remapCell colorMap) ks m) key
    = if in_dec string_dec key ks then option_map (Spec.remap colorMap) (Js.get m key)
      else Js.get m key.
Proof.
  induction 1 as [|k ks Hni Hnd IH]; intros m key; simpl.
  - reflexivity.
  - rewrite IH, visit_get.
    destruct (string_dec k key) as [->|Hne].
    + rewrite String.eqb_refl.
      destruct (in_dec string_dec key ks); [contradiction | reflexivity].
    + assert (E : String.eqb key k = false)
        by (apply String.eqb_neq; congruence).
      rewrite E.
      destruct (in_dec string_dec key ks); reflexivity.
Qed.

Lemma visit_identity m :
  (forall key c, Js.get m key = Some c -> Js.get colorMap c = Some c) ->
  forall ks, fold_left (GemGrid.remapCell colorMap) ks m = m.
Proof.
  intros Hid ks. induction ks as [|k ks IH]; simpl; [reflexivity|].
  assert (E : GemGrid.remapCell colorMap m k = m).
  { unfold GemGrid.remapCell.
    destruct (Js.get m k) as [old|] eqn:G; [|reflexivity].
    rewrite (Hid _ _ G).
    destruct (truthyStr old); [now apply set_same | reflexivity]. }
  now rewrite E.
Qed.

Lemma saveState_colors now g :
  GemGrid.gemColors (GemGrid.saveState now g) = GemGrid.gemColors g.
Proof.
  unfold GemGrid.saveState.
  destruct (50 <? _); reflexivity.
Qed.

Lemma applyColorMapping_colors now g :
  GemGrid.gemColors (GemGrid.applyColorMapping now colorMap g)
  = fold_left (GemGrid.remapCell colorMap) (Js.keys (GemGrid.gemColors g)) (GemGrid.gemColors g).
Proof.
  unfold GemGrid.applyColorMapping. simpl.
  rewrite saveState_colors. reflexivity.
Qed.

End ColorMapping.

Lemma validHex_truthy v : ColorUtils.isValidHex v = true -> truthyStr v = true.
Proof. destruct v; [discriminate | reflexivity]. Qed.

(** C5. For every grid of colours and every partial colour map (a map to
    colours), [applyColorMapping] gives every cell whose colour is a key of
    the map the colour the map assigns and leaves every other cell as it
    was; with a map that sends every colour of the grid to itself the
    cells, and so the histogram, are unchanged. *)
Theorem applyColorMapping_spec :
  forall (now : Z) (colorMap : Js.obj string) (g : GemGrid.t),
    Spec.wellFormed (GemGrid.gemColors g) ->
    let g' := GemGrid.applyColorMapping now colorMap g in
    ((forall c v, Js.get colorMap c = Some v -> ColorUtils.isValidHex v = true) ->
     (forall key c, Js.get (GemGrid.gemColors g) key = Some c ->
                    ColorUtils.isValidHex c = true) ->
     forall key,
       Js.get (GemGrid.gemColors g') key
       = match Js.get (GemGrid.gemColors g) key with
         | Some old =>
             Some (match Js.get colorMap old with
                   | Some new => new
                   | None => old
                   end)
         | None => None
         end)
    /\ ((forall key c, Js.get (GemGrid.gemColors g) key = Some c ->
                       Js.get colorMap c = Some c) ->
        GemGrid.gemColors g' = GemGrid.gemColors g
        /\ GemGrid.getColorCounts g' = GemGrid.getColorCounts g).
Proof.
  intros now colorMap g Hwf g'. unfold g'. split.
  - intros Hvalid _ key. rewrite applyColorMapping_colors.
    rewrite visit_all_get.
    2:{ eapply Permutation_NoDup; [apply Permutation_sym, keys_perm | exact Hwf]. }
    destruct (in_dec string_dec key (Js.keys (GemGrid.gemColors g))) as [Hin|Hni].
    + destruct (Js.get (GemGrid.gemColors g) key) as [old|]; [|reflexivity].
      simpl. f_equal. unfold Spec.remap.
      destruct (Js.get colorMap old) as [v|] eqn:G; [|reflexivity].
      now rewrite (validHex_truthy v (Hvalid _ _ G)).
    + destruct (Js.get (GemGrid.gemColors g) key) as [old|] eqn:G; [|reflexivity].
      exfalso. apply Hni.
      apply (Permutation_in _ (Permutation_sym (keys_perm _))).
      apply get_In in G. change key with (fst (key, old)). now apply in_map.
  - intros Hid.
    assert (E : GemGrid.gemColors (GemGrid.applyColorMapping now colorMap g)
                = GemGrid.gemColors g).
    { rewrite applyColorMapping_colors. now apply visit_identity. }
    split; [exact E|].
    unfold GemGrid.getColorCounts. now rewrite E.
Qed.

(** A partial map and the identity map on the painted 2 x 2 grid. *)
Lemma applyColorMapping_spec_witness :
  (forall key,
      Js.get (GemGrid.gemColors
                (GemGrid.applyColorMapping 5 [("#FF0000", "#00FF00")]%string
                                           painted2x2)) key
      = match Js.get (GemGrid.gemColors painted2x2) key with
        | Some old =>
            Some (match Js.get [("#FF0000", "#00FF00")]%string old with
                  | Some new => new
                  | None => old
                  end)
        | None => None
        end)
  /\ GemGrid.getColorCounts
       (GemGrid.applyColorMapping
          5 [("#FF0000", "#FF0000"); ("#FFFFFF", "#FFFFFF")]%string painted2x2)
     = GemGrid.getColorCounts painted2x2.
Proof.
  assert (W : Spec.wellFormed (GemGrid.gemColors painted2x2)).
  { unfold Spec.wellFormed. vm_compute.
    repeat constructor; simpl; intuition discriminate. }
  split.
  - apply (applyColorMapping_spec 5 [("#FF0000", "#00FF00")]%string painted2x2 W).
    + intros c v. simpl.
      destruct (String.eqb c "#FF0000"); [|discriminate].
      intros H. inversion H. reflexivity.
    + intros key c G. apply get_In in G.
      destruct G as [G|[G|[G|[G|[]]]]]; inversion G; reflexivity.
  - apply (applyColorMapping_spec
             5 [("#FF0000", "#FF0000"); ("#FFFFFF", "#FFFFFF")]%string
             painted2x2 W).
    intros key c G. apply get_In in G.
    destruct G as [G|[G|[G|[G|[]]]]]; inversion G; reflexivity.
Defined.

(* ================================================================== *)
(** ** Loading a persisted grid *)
(* ================================================================== *)

Section Loading.

Lemma at_firstn_app {A} (l : list A) (n : nat) (x : A) (i : Z) :
  0 <= i < Z.of_nat n -> (n <= List.length l)%nat ->
  GemGrid.at_ (firstn n l ++ [x]) i = GemGrid.at_ l i.
Proof.
  intros Hi Hn. unfold GemGrid.at_.
  destruct (i <? 0) eqn:E; [reflexivity|].
  rewrite nth_error_app1 by (rewrite length_firstn; lia).
  rewrite nth_error_firstn.
  destruct (Z.to_nat i <? n)%nat eqn:L; [reflexivity|].
  apply Nat.ltb_ge in L. lia.
Qed.

(** After [saveState] the cursor is on the snapshot just taken. *)
Lemma saveState_top now g :
  Spec.historyInvariant g ->
  GemGrid.at_ (GemGrid.history (GemGrid.saveState now g))
              (GemGrid.historyIndex (GemGrid.saveState now g))
  = Some (Spec.snapshotOf now g).
Proof.
  intros H. pose proof H as [Hi Hl].
  destruct (saveState_history now g H) as (Lk & Eh & Ei & _).
  rewrite Eh, Ei.
  destruct (50 <? GemGrid.historyIndex g + 2) eqn:E;
    [apply Z.ltb_lt in E | apply Z.ltb_ge in E].
  - destruct (firstn (Z.to_nat (GemGrid.historyIndex g + 1)) (GemGrid.history g))
      as [|s0 kept] eqn:K; [simpl in Lk; lia|].
    simpl in Lk |- *.
    replace (GemGrid.historyIndex g) with (Z.of_nat (List.length kept)) by lia.
    apply at_last.
  - replace (GemGrid.historyIndex g + 1)
      with (Z.of_nat (List.length
                        (firstn (Z.to_nat (GemGrid.historyIndex g + 1))
                                (GemGrid.history g)))) at 2 by lia.
    apply at_last.
Qed.

(** Below the capacity [saveState] keeps every snapshot up to the cursor. *)
Lemma saveState_keeps now g i :
  Spec.historyInvariant g ->
  GemGrid.historyIndex g < 49 ->
  0 <= i <= GemGrid.historyIndex g ->
  GemGrid.at_ (GemGrid.history (GemGrid.saveState now g)) i
  = GemGrid.at_ (GemGrid.history g) i.
Proof.
  intros H Hlt Hi. pose proof H as [Hx Hl]. unfold Spec.len in *.
  destruct (saveState_history now g H) as (Lk & Eh & _).
  rewrite Eh.
  assert (E : (50 <? GemGrid.historyIndex g + 2) = false)
    by (apply Z.ltb_ge; lia).
  rewrite E. apply at_firstn_app; lia.
Qed.

(** On a full stack with the cursor on top [saveState] evicts the oldest
    snapshot: every other one moves down one place. *)
Lemma saveState_shifts now g i :
  Spec.historyInvariant g ->
  GemGrid.historyIndex g = 49 ->
  0 <= i < 49 ->
  GemGrid.at_ (GemGrid.history (GemGrid.saveState now g)) i
  = GemGrid.at_ (GemGrid.history g) (i + 1).
Proof.
  intros H Htop Hi. pose proof H as [Hx Hl]. unfold Spec.len in *.
  destruct (saveState_history now g H) as (Lk & Eh & _).
  rewrite Eh.
  assert (E : (50 <? GemGrid.historyIndex g + 2) = true)
    by (apply Z.ltb_lt; lia).
  rewrite E.
  assert (Ef : firstn (Z.to_nat (GemGrid.historyIndex g + 1)) (GemGrid.history g)
               = GemGrid.history g) by (apply firstn_all2; lia).
  rewrite Ef.
  destruct (GemGrid.history g) as [|s0 rest] eqn:Eh0;
    [cbn [List.length] in Hl, Hx; lia|].
  cbn [app tl List.length] in *.
  unfold GemGrid.at_.
  assert (E1 : (i <? 0) = false) by (apply Z.ltb_ge; lia).
  assert (E2 : (i + 1 <? 0) = false) by (apply Z.ltb_ge; lia).
  rewrite E1, E2.
  replace (Z.to_nat (i + 1)) with (S (Z.to_nat i)) by lia.
  cbn [nth_error]. apply nth_error_app1. lia.
Qed.

End Loading.

(** C6, as the specification states it, fails on the painted 2 x 2 grid:
    a file without [cols] and [rows] is loaded, the history then holds two
    snapshots and not one, and [undo] brings back the cells of before the
    load. *)
Lemma load_keeps_earlier_history :
  let g' := GemGrid.loadFromJSON 2000 (Some cellsOnly) painted2x2 in
  dataCols cellsOnly = None
  /\ dataRows cellsOnly = None
  /\ GemGrid.gemColors g' = [("0,0", "#00FF00")]%string
  /\ List.length (GemGrid.history g') = 2%nat
  /\ GemGrid.gemColors (stateOf (GemGrid.undo g')) = allWhite2x2.
Proof. repeat split; reflexivity. Qed.

(** C6, amended. [loadFromJSON] of js/gemGrid.js asks for the cell map
    only: without an argument or without a cell map the call returns and
    changes nothing. [cols] and [rows] are optional and are looked at only
    when both are there and not zero: the grid then recomputes its
    dimensions, which sets the extent to 64 x 40 whatever the file says;
    otherwise the extent stays. With a cell map the call installs the
    cells, clears the selection and takes an ordinary snapshot, so the
    cursor ends on a snapshot of the loaded cells and the invariant of the
    history holds. The history is not reset: while the cursor was below
    49 the snapshots up to it are kept and stay reachable by undo, and on
    a full stack, cursor 49, the oldest snapshot is evicted and the others
    move down one place. [loadFromJSON] of the HexGrid of part 001 takes
    its snapshot before the load, of the cells it is about to replace, and
    takes [cols] and [rows] as the file gives them when both are there and
    not zero. *)
Theorem loadFromJSON_spec :
  forall (now : Z) (g : GemGrid.t),
    Spec.historyInvariant g ->
    GemGrid.loadFromJSON now None g = g
    /\ (forall d, dataCells d = None -> GemGrid.loadFromJSON now (Some d) g = g)
    /\ (forall d cells,
          dataCells d = Some cells ->
          let g' := GemGrid.loadFromJSON now (Some d) g in
          GemGrid.gemColors g' = cells
          /\ GemGrid.selectedCells g' = []
          /\ GemGrid.at_ (GemGrid.history g') (GemGrid.historyIndex g')
             = Some {| GemGrid.snapGemColors := cells;
                       GemGrid.timestamp := now |}
          /\ Spec.historyInvariant g'
          /\ (GemGrid.historyIndex g < 49 ->
              GemGrid.historyIndex g' = GemGrid.historyIndex g + 1
              /\ forall i, 0 <= i <= GemGrid.historyIndex g ->
                           GemGrid.at_ (GemGrid.history g') i
                           = GemGrid.at_ (GemGrid.history g) i)
          /\ (GemGrid.historyIndex g = 49 ->
              GemGrid.historyIndex g' = 49
              /\ forall i, 0 <= i < 49 ->
                           GemGrid.at_ (GemGrid.history g') i
                           = GemGrid.at_ (GemGrid.history g) (i + 1))
          /\ (truthyNum (dataCols d) && truthyNum (dataRows d) = true ->
              GemGrid.cols g' = 64 /\ GemGrid.rows g' = 40)
          /\ (truthyNum (dataCols d) && truthyNum (dataRows d) = false ->
              GemGrid.cols g' = GemGrid.cols g
              /\ GemGrid.rows g' = GemGrid.rows g))
    /\ (forall (h : HexGridBeads.t) d cells,
          dataCells d = Some cells ->
          let h' := HexGridBeads.loadFromJSON now (Some d) h in
          HexGridBeads.hexColors h' = cells
          /\ HexGridBeads.selectedCells h' = []
          /\ HexGridBeads.history h'
             = HexGridBeads.history (HexGridBeads.saveState now h)
          /\ HexGridBeads.historyIndex h'
             = HexGridBeads.historyIndex (HexGridBeads.saveState now h)
          /\ (forall c r, dataCols d = Some c -> dataRows d = Some r ->
                          c <> 0 -> r <> 0 ->
                          HexGridBeads.cols h' = c /\ HexGridBeads.rows h' = r)
          /\ (truthyNum (dataCols d) && truthyNum (dataRows d) = false ->
              HexGridBeads.cols h' = HexGridBeads.cols h
              /\ HexGridBeads.rows h' = HexGridBeads.rows h)).
Proof.
  intros now g H. split; [reflexivity|]. split.
  - intros d Hd. unfold GemGrid.loadFromJSON. now rewrite Hd.
  - split.
    + intros d cells Hd g'.
      set (g1 := if truthyNum (dataCols d) && truthyNum (dataRows d)
                 then match dataCols d, dataRows d with
                      | Some c, Some r =>
                          GemGrid.calculateDimensions (GemGrid.withExtent g c r)
                      | _, _ => g
                      end
                 else g).
      set (g2 := GemGrid.withSelection (GemGrid.withColors g1 cells) []).
      assert (Eg : g' = GemGrid.saveState now g2).
      { unfold g', GemGrid.loadFromJSON. rewrite Hd. reflexivity. }
      assert (Hh : GemGrid.history g2 = GemGrid.history g
                   /\ GemGrid.historyIndex g2 = GemGrid.historyIndex g).
      { unfold g2, g1.
        destruct (truthyNum (dataCols d) && truthyNum (dataRows d));
          [destruct (dataCols d), (dataRows d)|]; simpl; auto. }
      destruct Hh as [Hh Hx].
      assert (I2 : Spec.historyInvariant g2).
      { unfold Spec.historyInvariant, Spec.len in *. now rewrite Hh, Hx. }
      destruct (saveState_history now g2 I2)
        as (_ & _ & Ei & _ & Ss & Sc & Sr).
      rewrite Eg.
      split; [now rewrite saveState_colors|].
      split; [now rewrite Ss|].
      split; [now rewrite saveState_top|].
      split; [apply (saveState_invariant now g2 I2)|].
      split; [|split; [|split]].
      * intros Hlt. split.
        -- rewrite Ei, Hx.
           assert (E : (50 <? GemGrid.historyIndex g + 2) = false)
             by (apply Z.ltb_ge; lia).
           now rewrite E.
        -- intros i Hi. rewrite <- Hh.
           apply saveState_keeps; [exact I2|lia|lia].
      * intros Htop. split.
        -- rewrite Ei, Hx.
           assert (E : (50 <? GemGrid.historyIndex g + 2) = true)
             by (apply Z.ltb_lt; lia).
           now rewrite E.
        -- intros i Hi. rewrite <- Hh.
           apply saveState_shifts; [exact I2|lia|lia].
      * intros T. rewrite Sc, Sr. unfold g2, g1. rewrite T.
        apply andb_prop in T. destruct T as [Tc Tr].
        destruct (dataCols d); [|discriminate Tc].
        destruct (dataRows d); [|discriminate Tr].
        split; reflexivity.
      * intros T. rewrite Sc, Sr. unfold g2, g1. rewrite T.
        split; reflexivity.
    + intros h d cells Hd h'. unfold h', HexGridBeads.loadFromJSON.
      rewrite Hd.
      split; [|split; [|split; [|split; [|split]]]].
      * destruct (truthyNum (dataCols d) && truthyNum (dataRows d));
          [destruct (dataCols d), (dataRows d)|]; reflexivity.
      * destruct (truthyNum (dataCols d) && truthyNum (dataRows d));
          [destruct (dataCols d), (dataRows d)|]; reflexivity.
      * destruct (truthyNum (dataCols d) && truthyNum (dataRows d));
          [destruct (dataCols d), (dataRows d)|]; reflexivity.
      * destruct (truthyNum (dataCols d) && truthyNum (dataRows d));
          [destruct (dataCols d), (dataRows d)|]; reflexivity.
      * intros c r Ec Er Nc Nr. rewrite Ec, Er. cbn [truthyNum].
        apply Z.eqb_neq in Nc. apply Z.eqb_neq in Nr. rewrite Nc, Nr.
        cbn [negb andb]. split; reflexivity.
      * intros T. rewrite T. cbv zeta.
        unfold HexGridBeads.saveState.
        destruct (50 <? _); split; reflexivity.
Qed.

Lemma loadFromJSON_spec_witness :
  let g' := GemGrid.loadFromJSON 2000 (Some cellsOnly) painted2x2 in
  GemGrid.gemColors g' = [("0,0", "#00FF00")]%string
  /\ GemGrid.at_ (GemGrid.history g') (GemGrid.historyIndex g')
     = Some {| GemGrid.snapGemColors := [("0,0", "#00FF00")]%string;
               GemGrid.timestamp := 2000 |}
  /\ GemGrid.historyIndex g' = GemGrid.historyIndex painted2x2 + 1
  /\ GemGrid.cols g' = GemGrid.cols painted2x2
  /\ GemGrid.rows g' = GemGrid.rows painted2x2.
Proof.
  assert (I : Spec.historyInvariant painted2x2).
  { unfold Spec.historyInvariant, Spec.len. vm_compute.
    repeat split; discriminate. }
  destruct (loadFromJSON_spec 2000 painted2x2 I) as (_ & _ & L & _).
  destruct (L cellsOnly [("0,0", "#00FF00")]%string eq_refl)
    as (C & _ & T & _ & K & _ & _ & E).
  split; [exact C|]. split; [exact T|].
  split; [apply K; vm_compute; reflexivity|].
  apply E. reflexivity.
Defined.

(* ================================================================== *)
(** ** The hex codec *)
(* ================================================================== *)

Section Codec.

Lemma toInt32_small z :
  - 2 ^ 31 <= z < 2 ^ 31 -> Js.toInt32 (Js.Num z) = z.
Proof.
  intros H. unfold Js.toInt32.
  destruct (Z_lt_le_dec z 0) as [N|P].
  - assert (E : z mod 2 ^ 32 = z + 2 ^ 32).
    { symmetry. apply (Z.mod_unique _ _ (-1)); lia. }
    rewrite E.
    destruct (2 ^ 31 <=? z + 2 ^ 32) eqn:B; [lia | apply Z.leb_gt in B; lia].
  - rewrite Z.mod_small by lia.
    destruct (2 ^ 31 <=? z) eqn:B; [apply Z.leb_le in B; lia | reflexivity].
Qed.

Lemma land255 x : Z.land x 255 = x mod 256.
Proof. change 255 with (Z.ones 8). now rewrite Z.land_ones by lia. Qed.

Lemma roundToDouble_small n : n < 2 ^ 53 -> Js.roundToDouble n = Some n.
Proof.
  intros H. unfold Js.roundToDouble.
  destruct (n <? 2 ^ 53) eqn:E; [reflexivity | apply Z.ltb_ge in E; lia].
Qed.

Lemma hexDigitValue_range c d : Js.hexDigitValue c = Some d -> 0 <= d < 16.
Proof.
  unfold Js.hexDigitValue.
  repeat match goal with
         | |- context [if ?x then _ else _] => destruct x eqn:?
         end; intros H; inversion H; subst; lia.
Qed.

(** The upper-case text of a digit reads back as the digit. *)
Lemma digit_upper_value d :
  0 <= d < 16 ->
  Js.hexDigitValue (Js.upperChar (Js.hexDigitChar d)) = Some d
  /\ Spec.isUpperHexDigit (Js.upperChar (Js.hexDigitChar d)) = true.
Proof.
  intros H.
  assert (C : d = 0 \/ d = 1 \/ d = 2 \/ d = 3 \/ d = 4 \/ d = 5 \/ d = 6
              \/ d = 7 \/ d = 8 \/ d = 9 \/ d = 10 \/ d = 11 \/ d = 12
              \/ d = 13 \/ d = 14 \/ d = 15) by lia.
  repeat (destruct C as [->|C]; [split; reflexivity|]).
  subst. split; reflexivity.
Qed.

(** An upper-case hex digit is the text of its value. *)
Lemma upper_digit_char c :
  Spec.isUpperHexDigit c = true ->
  exists d, 0 <= d < 16 /\ Js.hexDigitValue c = Some d
            /\ Js.upperChar (Js.hexDigitChar d) = c.
Proof.
  intros H.
  destruct c as [[] [] [] [] [] [] [] []]; try discriminate H;
    match goal with
    | |- exists d, _ /\ Js.hexDigitValue ?c = _ /\ _ =>
        let v := eval vm_compute in (Js.hexDigitValue c) in
        match v with
        | Some ?d => exists d; repeat split; try reflexivity; lia
        end
    end.
Qed.

Lemma hexDigit_differs c d x :
  Js.hexDigitValue c = Some d -> Js.hexDigitValue x = None ->
  Ascii.eqb c x = false.
Proof.
  intros Hc Hx. destruct (Ascii.eqb_spec c x) as [->|]; congruence.
Qed.

Lemma hexDigit_not_space c d :
  Js.hexDigitValue c = Some d -> Js.isWhiteSpace c = false.
Proof.
  unfold Js.hexDigitValue, Js.isWhiteSpace.
  repeat match goal with
         | |- context [?x <=? ?y] => destruct (Z.leb_spec x y)
         | |- context [?x =? ?y] => destruct (Z.eqb_spec x y)
         end; simpl; intros Hv; try discriminate Hv; try reflexivity; lia.
Qed.

(** [parseInt] of a text that begins with two hex digits. *)
Lemma parseInt16_digits c5 c4 rest d5 d4 :
  Js.hexDigitValue c5 = Some d5 -> Js.hexDigitValue c4 = Some d4 ->
  Js.parseInt16 (String c5 (String c4 rest))
  = match Js.roundToDouble (Js.parseDigits (String c5 (String c4 rest)) 0) with
    | Some v => Js.Num v
    | None => Js.Infinity false
    end.
Proof.
  intros H5 H4. unfold Js.parseInt16.
  cbn [Js.trimStart]. rewrite (hexDigit_not_space c5 d5 H5).
  unfold Js.signOf.
  rewrite (hexDigit_differs c5 d5 "-" H5 eq_refl),
    (hexDigit_differs c5 d5 "+" H5 eq_refl).
  unfold Js.stripPrefix.
  rewrite (hexDigit_differs c4 d4 "x" H4 eq_refl),
    (hexDigit_differs c4 d4 "X" H4 eq_refl), andb_false_r.
  now rewrite H5.
Qed.

(** [parseInt] of six hex digits. *)
Lemma parseInt16_hex6 c5 c4 c3 c2 c1 c0 d5 d4 d3 d2 d1 d0 :
  Js.hexDigitValue c5 = Some d5 -> Js.hexDigitValue c4 = Some d4 ->
  Js.hexDigitValue c3 = Some d3 -> Js.hexDigitValue c2 = Some d2 ->
  Js.hexDigitValue c1 = Some d1 -> Js.hexDigitValue c0 = Some d0 ->
  Js.parseInt16
    (String c5 (String c4 (String c3 (String c2 (String c1
      (String c0 EmptyString))))))
  = Js.Num (16 * (16 * (16 * (16 * (16 * d5 + d4) + d3) + d2) + d1) + d0).
Proof.
  intros H5 H4 H3 H2 H1 H0.
  pose proof (hexDigitValue_range _ _ H5).
  pose proof (hexDigitValue_range _ _ H4).
  pose proof (hexDigitValue_range _ _ H3).
  pose proof (hexDigitValue_range _ _ H2).
  pose proof (hexDigitValue_range _ _ H1).
  pose proof (hexDigitValue_range _ _ H0).
  rewrite (parseInt16_digits c5 c4 _ d5 d4 H5 H4).
  assert (P : Js.parseDigits
                (String c5 (String c4 (String c3 (String c2 (String c1
                  (String c0 EmptyString)))))) 0
              = 16 * (16 * (16 * (16 * (16 * d5 + d4) + d3) + d2) + d1) + d0).
  { cbn [Js.parseDigits]. rewrite H5. cbn [Js.parseDigits].
    rewrite H4. cbn [Js.parseDigits]. rewrite H3. cbn [Js.parseDigits].
    rewrite H2. cbn [Js.parseDigits]. rewrite H1. cbn [Js.parseDigits].
    rewrite H0. lia. }
  rewrite P, roundToDouble_small by lia. reflexivity.
Qed.

Lemma channels_of_digits d5 d4 d3 d2 d1 d0 :
  0 <= d5 < 16 -> 0 <= d4 < 16 -> 0 <= d3 < 16 ->
  0 <= d2 < 16 -> 0 <= d1 < 16 -> 0 <= d0 < 16 ->
  let v := 16 * (16 * (16 * (16 * (16 * d5 + d4) + d3) + d2) + d1) + d0 in
  Z.land (Js.sar (Js.Num v) 16) 255 = 16 * d5 + d4
  /\ Z.land (Js.sar (Js.Num v) 8) 255 = 16 * d3 + d2
  /\ Z.land (Js.toInt32 (Js.Num v)) 255 = 16 * d1 + d0.
Proof.
  intros B5 B4 B3 B2 B1 B0 v. unfold Js.sar.
  rewrite toInt32_small by (unfold v; lia).
  rewrite !land255, !Z.shiftr_div_pow2 by lia.
  change (2 ^ 16) with 65536. change (2 ^ 8) with 256.
  unfold v. repeat split.
  - assert (E : (16 * (16 * (16 * (16 * (16 * d5 + d4) + d3) + d2) + d1) + d0)
                / 65536 = 16 * d5 + d4)
      by (symmetry; apply (Z.div_unique _ _ _ (4096 * d3 + 256 * d2 + 16 * d1 + d0)); lia).
    rewrite E. apply Z.mod_small. lia.
  - assert (E : (16 * (16 * (16 * (16 * (16 * d5 + d4) + d3) + d2) + d1) + d0)
                / 256 = 256 * (16 * d5 + d4) + (16 * d3 + d2))
      by (symmetry; apply (Z.div_unique _ _ _ (16 * d1 + d0)); lia).
    rewrite E. symmetry. apply (Z.mod_unique _ _ (16 * d5 + d4)); lia.
  - symmetry.
    apply (Z.mod_unique _ _ (256 * (16 * d5 + d4) + (16 * d3 + d2))); lia.
Qed.

Lemma hexDigitsFuel_step f q d acc :
  0 <= d < 16 -> 1 <= q ->
  Js.hexDigitsFuel (S f) (16 * q + d) acc
  = Js.hexDigitsFuel f q (String (Js.hexDigitChar d) acc).
Proof.
  intros Hd Hq. cbn [Js.hexDigitsFuel].
  assert (M : (16 * q + d) mod 16 = d)
    by (symmetry; apply (Z.mod_unique _ _ q); lia).
  assert (D : (16 * q + d) / 16 = q)
    by (symmetry; apply (Z.div_unique _ _ _ d); lia).
  rewrite M, D.
  destruct (16 * q + d <? 16) eqn:E; [apply Z.ltb_lt in E; lia | reflexivity].
Qed.

Lemma toString16_digits d5 d4 d3 d2 d1 d0 :
  0 <= d5 < 16 -> 0 <= d4 < 16 -> 0 <= d3 < 16 ->
  0 <= d2 < 16 -> 0 <= d1 < 16 -> 0 <= d0 < 16 ->
  Js.toString16
    (16 * (16 * (16 * (16 * (16 * (16 * 1 + d5) + d4) + d3) + d2) + d1) + d0)
  = String "1" (String (Js.hexDigitChar d5) (String (Js.hexDigitChar d4)
      (String (Js.hexDigitChar d3) (String (Js.hexDigitChar d2)
        (String (Js.hexDigitChar d1) (String (Js.hexDigitChar d0)
          EmptyString)))))).
Proof.
  intros B5 B4 B3 B2 B1 B0. unfold Js.toString16.
  set (v := 16 * (16 * (16 * (16 * (16 * (16 * 1 + d5) + d4) + d3) + d2) + d1) + d0).
  assert (L : Z.log2 v = 24).
  { apply Z.log2_unique; [lia|]. change (2 ^ 24) with 16777216.
    change (2 ^ (24 + 1)) with 33554432. unfold v. lia. }
  destruct (v <? 0) eqn:E; [apply Z.ltb_lt in E; unfold v in E; lia|].
  rewrite L. change (Z.to_nat 24) with 24%nat. unfold v.
  rewrite !hexDigitsFuel_step by lia.
  reflexivity.
Qed.

Lemma shl_small x n :
  0 <= n -> - 2 ^ 31 <= x < 2 ^ 31 -> - 2 ^ 31 <= x * 2 ^ n < 2 ^ 31 ->
  Js.shl x n = x * 2 ^ n.
Proof.
  intros Hn Hx Hs. unfold Js.shl.
  rewrite (toInt32_small x Hx), Z.shiftl_mul_pow2 by exact Hn.
  now apply toInt32_small.
Qed.

(** [rgbToHex] on channels given by their digits. *)
Lemma rgbToHex_digits d5 d4 d3 d2 d1 d0 :
  0 <= d5 < 16 -> 0 <= d4 < 16 -> 0 <= d3 < 16 ->
  0 <= d2 < 16 -> 0 <= d1 < 16 -> 0 <= d0 < 16 ->
  ColorUtils.rgbToHex (16 * d5 + d4) (16 * d3 + d2) (16 * d1 + d0)
  = String "#"
      (String (Js.upperChar (Js.hexDigitChar d5))
      (String (Js.upperChar (Js.hexDigitChar d4))
      (String (Js.upperChar (Js.hexDigitChar d3))
      (String (Js.upperChar (Js.hexDigitChar d2))
      (String (Js.upperChar (Js.hexDigitChar d1))
      (String (Js.upperChar (Js.hexDigitChar d0)) EmptyString)))))).
Proof.
  intros B5 B4 B3 B2 B1 B0. unfold ColorUtils.rgbToHex.
  rewrite (shl_small 1 24), (shl_small (16 * d5 + d4) 16),
    (shl_small (16 * d3 + d2) 8) by lia.
  change (2 ^ 24) with 16777216. change (2 ^ 16) with 65536.
  change (2 ^ 8) with 256.
  replace (1 * 16777216 + (16 * d5 + d4) * 65536 + (16 * d3 + d2) * 256
           + (16 * d1 + d0))
    with (16 * (16 * (16 * (16 * (16 * (16 * 1 + d5) + d4) + d3) + d2) + d1) + d0)
    by ring.
  rewrite toString16_digits by assumption.
  reflexivity.
Qed.

Lemma split_channel x :
  Spec.channel x -> x = 16 * (x / 16) + x mod 16
                    /\ 0 <= x / 16 < 16 /\ 0 <= x mod 16 < 16.
Proof.
  unfold Spec.channel. intros H.
  pose proof (Z.div_mod x 16). pose proof (Z.mod_pos_bound x 16).
  assert (0 <= x / 16 < 16).
  { split; [apply Z.div_pos; lia | apply Z.div_lt_upper_bound; lia]. }
  lia.
Qed.

End Codec.

(** C9, as the specification states it, fails: on a text that is no 3- or
    6-digit hex code [hexToRgb] returns a triple. *)
Lemma hexToRgb_accepts_invalid_text :
  ColorUtils.isValidHex "zzz" = false
  /\ ColorUtils.hexToRgb "zzz" = RGB 0 0 0
  /\ ColorUtils.isValidHex "#12" = false
  /\ ColorUtils.hexToRgb "#12" = RGB 0 0 18.
Proof. repeat split; reflexivity. Qed.

(** C9, amended. [hexToRgb] never fails: for every text it returns a
    triple of channels in 0..255 (validity is the separate check
    [isValidHex]); for channels in 0..255 [rgbToHex] gives a canonical
    colour that [hexToRgb] reads back, and for every canonical colour
    [rgbToHex] after [hexToRgb] gives the colour back. *)
Theorem hexToRgb_total_inverse :
  (forall s : string,
      Spec.channel (r (ColorUtils.hexToRgb s))
      /\ Spec.channel (g (ColorUtils.hexToRgb s))
      /\ Spec.channel (b (ColorUtils.hexToRgb s)))
  /\ (forall rr gg bb : Z,
         Spec.channel rr -> Spec.channel gg -> Spec.channel bb ->
         Spec.isCanonical (ColorUtils.rgbToHex rr gg bb) = true
         /\ ColorUtils.hexToRgb (ColorUtils.rgbToHex rr gg bb) = RGB rr gg bb)
  /\ (forall c : string,
         Spec.isCanonical c = true ->
         ColorUtils.rgbToHex (r (ColorUtils.hexToRgb c))
                             (g (ColorUtils.hexToRgb c))
                             (b (ColorUtils.hexToRgb c)) = c).
Proof.
  split; [|split].
  - intros s. unfold ColorUtils.hexToRgb, Spec.channel. cbn [r g b].
    rewrite !land255.
    pose proof (Z.mod_pos_bound (Js.sar (Js.parseInt16 (Js.stripHash s)) 16) 256).
    pose proof (Z.mod_pos_bound (Js.sar (Js.parseInt16 (Js.stripHash s)) 8) 256).
    pose proof (Z.mod_pos_bound (Js.toInt32 (Js.parseInt16 (Js.stripHash s))) 256).
    lia.
  - intros rr gg bb Hr Hg Hb.
    destruct (split_channel rr Hr) as (Er & R1 & R0).
    destruct (split_channel gg Hg) as (Eg & G1 & G0).
    destruct (split_channel bb Hb) as (Eb & B1 & B0).
    rewrite Er, Eg, Eb at 1 2.
    rewrite rgbToHex_digits by assumption.
    destruct (digit_upper_value _ R1) as [V5 U5].
    destruct (digit_upper_value _ R0) as [V4 U4].
    destruct (digit_upper_value _ G1) as [V3 U3].
    destruct (digit_upper_value _ G0) as [V2 U2].
    destruct (digit_upper_value _ B1) as [V1 U1].
    destruct (digit_upper_value _ B0) as [V0 U0].
    split.
    + unfold Spec.isCanonical. now rewrite U5, U4, U3, U2, U1, U0.
    + unfold ColorUtils.hexToRgb. unfold Js.stripHash.
      rewrite (parseInt16_hex6 _ _ _ _ _ _ _ _ _ _ _ _ V5 V4 V3 V2 V1 V0).
      destruct (channels_of_digits _ _ _ _ _ _ R1 R0 G1 G0 B1 B0) as (C1 & C2 & C3).
      rewrite C1, C2, C3. now rewrite <- Er, <- Eg, <- Eb.
  - intros c Hc. unfold Spec.isCanonical in Hc.
    destruct c as [|h c]; [discriminate|].
    destruct h as [[] [] [] [] [] [] [] []]; try discriminate Hc.
    destruct c as [|c5 [|c4 [|c3 [|c2 [|c1 [|c0 [|x c]]]]]]]; try discriminate Hc.
    repeat (apply andb_prop in Hc; destruct Hc as [Hc ?]).
    destruct (upper_digit_char c5) as (d5 & B5 & V5 & E5); [assumption|].
    destruct (upper_digit_char c4) as (d4 & B4 & V4 & E4); [assumption|].
    destruct (upper_digit_char c3) as (d3 & B3 & V3 & E3); [assumption|].
    destruct (upper_digit_char c2) as (d2 & B2 & V2 & E2); [assumption|].
    destruct (upper_digit_char c1) as (d1 & B1 & V1 & E1); [assumption|].
    destruct (upper_digit_char c0) as (d0 & B0 & V0 & E0); [assumption|].
    unfold ColorUtils.hexToRgb. unfold Js.stripHash.
    rewrite (parseInt16_hex6 c5 c4 c3 c2 c1 c0 d5 d4 d3 d2 d1 d0)
      by assumption.
    destruct (channels_of_digits _ _ _ _ _ _ B5 B4 B3 B2 B1 B0) as (C1 & C2 & C3).
    cbv beta iota delta [r g b].
    rewrite C1, C2, C3.
    rewrite rgbToHex_digits by assumption.
    now rewrite E5, E4, E3, E2, E1, E0.
Qed.

Lemma hexToRgb_total_inverse_witness :
  (Spec.isCanonical (ColorUtils.rgbToHex 255 85 0) = true
   /\ ColorUtils.hexToRgb (ColorUtils.rgbToHex 255 85 0) = RGB 255 85 0)
  /\ ColorUtils.rgbToHex (r (ColorUtils.hexToRgb "#FF5500"))
                         (g (ColorUtils.hexToRgb "#FF5500"))
                         (b (ColorUtils.hexToRgb "#FF5500")) = "#FF5500"%string.
Proof.
  destruct hexToRgb_total_inverse as (_ & F & B).
  split.
  - apply F; unfold Spec.channel; lia.
  - apply B. reflexivity.
Defined.

(* ================================================================== *)
(** ** Centroid refinement: the loop of [reduceColors] *)
(* ================================================================== *)

Section KMeans.

(** *** The nearest centroid *)

Lemma nearestFrom_range p cs :
  forall i j dj,
    Spec.nearestFrom p i cs = Some (j, dj) ->
    i <= j < i + Z.of_nat (List.length cs).
Proof.
  induction cs as [|c cs IH]; intros i j dj H; simpl in H.
  - discriminate.
  - destruct (Spec.nearestFrom p (i + 1) cs) as [[j' dj']|] eqn:N.
    + specialize (IH _ _ _ N).
      destruct (dj' <? ColorUtils.colorDistance2 p c);
        inversion H; subst; cbn [List.length]; lia.
    + inversion H; subst. cbn [List.length]. lia.
Qed.

Lemma nearest_range cs p :
  0 <= Spec.nearest cs p
  /\ (cs <> [] -> Spec.nearest cs p < Z.of_nat (List.length cs)).
Proof.
  unfold Spec.nearest.
  destruct (Spec.nearestFrom p 0 cs) as [[j dj]|] eqn:N.
  - apply nearestFrom_range in N. lia.
  - split; [lia|]. intros H. destruct cs; [contradiction|].
    cbn [List.length]. lia.
Qed.

(** The index chosen is that of a centroid at the least distance, and no
    centroid before it is as near. *)
Lemma nearestFrom_least p cs :
  forall i j dj,
    Spec.nearestFrom p i cs = Some (j, dj) ->
    nth_error cs (Z.to_nat (j - i)) <> None
    /\ (forall c, nth_error cs (Z.to_nat (j - i)) = Some c ->
                  ColorUtils.colorDistance2 p c = dj)
    /\ (forall t c, nth_error cs t = Some c ->
                    dj <= ColorUtils.colorDistance2 p c
                    /\ ((Z.of_nat t < j - i) -> dj < ColorUtils.colorDistance2 p c)).
Proof.
  induction cs as [|c0 cs IH]; intros i j dj H; simpl in H.
  - discriminate.
  - destruct (Spec.nearestFrom p (i + 1) cs) as [[j' dj']|] eqn:N.
    + pose proof (nearestFrom_range _ _ _ _ _ N) as R.
      destruct (IH _ _ _ N) as (I1 & I2 & I3).
      destruct (dj' <? ColorUtils.colorDistance2 p c0) eqn:E;
        [apply Z.ltb_lt in E | apply Z.ltb_ge in E]; inversion H; subst.
      * replace (Z.to_nat (j - i)) with (S (Z.to_nat (j - (i + 1)))) by lia.
        simpl. split; [exact I1|]. split; [exact I2|].
        intros [|t] c Hc; simpl in Hc.
        -- inversion Hc; subst. lia.
        -- destruct (I3 t c Hc). split; [lia|]. intros. apply H1. lia.
      * rewrite Z.sub_diag. simpl. split; [discriminate|].
        split; [intros c Hc; now inversion Hc|].
        intros [|t] c Hc; simpl in Hc.
        -- inversion Hc; subst. split; [lia|]. lia.
        -- destruct (I3 t c Hc). split; [lia|]. lia.
    + inversion H; subst. rewrite Z.sub_diag. simpl.
      split; [discriminate|]. split; [intros c Hc; now inversion Hc|].
      intros [|t] c Hc; simpl in Hc.
      * inversion Hc; subst. lia.
      * destruct cs as [|c1 cs]; [destruct t; discriminate|].
        simpl in N.
        destruct (Spec.nearestFrom p _ cs) as [[j1 d1]|];
          [destruct (d1 <? ColorUtils.colorDistance2 p c1)|]; discriminate N.
Qed.

(** [Spec.nearest] is the least index of a centroid at the least squared
    distance. *)
Lemma nearest_is_least cs p :
  cs <> [] ->
  exists c,
    nth_error cs (Z.to_nat (Spec.nearest cs p)) = Some c
    /\ forall t c', nth_error cs t = Some c' ->
         ColorUtils.colorDistance2 p c <= ColorUtils.colorDistance2 p c'
         /\ (Z.of_nat t < Spec.nearest cs p ->
             ColorUtils.colorDistance2 p c < ColorUtils.colorDistance2 p c').
Proof.
  intros Hne. unfold Spec.nearest.
  destruct (Spec.nearestFrom p 0 cs) as [[j dj]|] eqn:N.
  - destruct (nearestFrom_least p cs 0 j dj N) as (H1 & H2 & H3).
    rewrite Z.sub_0_r in H1, H2, H3.
    destruct (nth_error cs (Z.to_nat j)) as [c|] eqn:E; [|congruence].
    exists c. split; [reflexivity|].
    rewrite (H2 c eq_refl). exact H3.
  - destruct cs as [|c0 cs]; [contradiction|]. simpl in N.
    destruct (Spec.nearestFrom p _ cs) as [[j1 d1]|];
      [destruct (d1 <? ColorUtils.colorDistance2 p c0)|]; discriminate N.
Qed.

Lemma scan_spec p cs :
  forall nc dm i,
    fst (fst (fold_left (ColorUtils.scanCentroid p) cs (nc, Some dm, i)))
    = match Spec.nearestFrom p i cs with
      | Some (j, dj) => if dj <? dm then j else nc
      | None => nc
      end.
Proof.
  induction cs as [|c cs IH]; intros nc dm i.
  - reflexivity.
  - cbn [fold_left Spec.nearestFrom].
    unfold ColorUtils.scanCentroid at 2. cbn [ColorUtils.below].
    destruct (ColorUtils.colorDistance2 p c <? dm) eqn:E;
      [apply Z.ltb_lt in E | apply Z.ltb_ge in E];
      rewrite IH;
      destruct (Spec.nearestFrom p (i + 1) cs) as [[j dj]|].
    + destruct (dj <? ColorUtils.colorDistance2 p c) eqn:F;
        [apply Z.ltb_lt in F | apply Z.ltb_ge in F].
      * destruct (dj <? dm) eqn:G; [reflexivity | apply Z.ltb_ge in G; lia].
      * destruct (ColorUtils.colorDistance2 p c <? dm) eqn:G;
          [reflexivity | apply Z.ltb_ge in G; lia].
    + destruct (ColorUtils.colorDistance2 p c <? dm) eqn:G;
        [reflexivity | apply Z.ltb_ge in G; lia].
    + destruct (dj <? ColorUtils.colorDistance2 p c) eqn:F;
        [apply Z.ltb_lt in F | apply Z.ltb_ge in F].
      * reflexivity.
      * destruct (dj <? dm) eqn:G; [apply Z.ltb_lt in G; lia|].
        destruct (ColorUtils.colorDistance2 p c <? dm) eqn:G';
          [apply Z.ltb_lt in G'; lia | reflexivity].
    + destruct (ColorUtils.colorDistance2 p c <? dm) eqn:G';
        [apply Z.ltb_lt in G'; lia | reflexivity].
Qed.

Lemma nearestCluster_spec p cs :
  ColorUtils.nearestCluster p cs = Spec.nearest cs p.
Proof.
  unfold ColorUtils.nearestCluster, Spec.nearest.
  destruct cs as [|c cs]; [reflexivity|].
  cbn [fold_left Spec.nearestFrom].
  unfold ColorUtils.scanCentroid at 2. cbn [ColorUtils.below].
  rewrite scan_spec.
  destruct (Spec.nearestFrom p (0 + 1) cs) as [[j' dj']|]; [|reflexivity].
  destruct (dj' <? ColorUtils.colorDistance2 p c); reflexivity.
Qed.

(** *** One pass *)

Lemma assignPoints_spec cs pts :
  forall cl,
    List.length cl = List.length pts ->
    ColorUtils.assignPoints pts cl cs
    = (map (Spec.nearest cs) pts,
       negb (Spec.sameAssignment cl (map (Spec.nearest cs) pts))).
Proof.
  induction pts as [|p pts IH]; intros [|c cl] H; simpl in H; try discriminate.
  - reflexivity.
  - simpl. rewrite IH by lia. rewrite nearestCluster_spec.
    unfold Spec.sameAssignment. simpl. now rewrite negb_andb.
Qed.

Lemma updNat_spec {A} (f : A -> A) (l : list A) :
  forall i, (i < List.length l)%nat ->
    exists l', ColorUtils.updNat i f l = Some l'
               /\ List.length l' = List.length l
               /\ forall j d, nth j l' d
                              = if (j =? i)%nat then f (nth j l d) else nth j l d.
Proof.
  induction l as [|x xs IH]; intros i H; simpl in H; [lia|].
  destruct i as [|i]; simpl.
  - exists (f x :: xs). repeat split. intros [|j] d; reflexivity.
  - destruct (IH i) as (l' & E & L & N); [lia|].
    rewrite E. exists (x :: l'). repeat split; [simpl; lia|].
    intros [|j] d; simpl; [reflexivity | apply N].
Qed.

Lemma members_cons p pts c a j :
  Spec.members (p :: pts) (c :: a) j
  = if c =? j then p :: Spec.members pts a j else Spec.members pts a j.
Proof. unfold Spec.members. simpl. destruct (c =? j); reflexivity. Qed.

(** The loop of lines 717-725 adds, to every cluster, the channels and the
    number of the points assigned to it. *)
Lemma accumulate_spec K pts :
  forall a sums counts,
    List.length a = List.length pts ->
    Forall (fun x => 0 <= x < Z.of_nat K) a ->
    List.length sums = K -> List.length counts = K ->
    exists sums' counts',
      ColorUtils.accumulate pts a sums counts = Some (sums', counts')
      /\ List.length sums' = K /\ List.length counts' = K
      /\ forall j, (j < K)%nat ->
           let m := Spec.members pts a (Z.of_nat j) in
           r (nth j sums' Spec.zero) = r (nth j sums Spec.zero) + Spec.sumOf r m
           /\ g (nth j sums' Spec.zero) = g (nth j sums Spec.zero) + Spec.sumOf g m
           /\ b (nth j sums' Spec.zero) = b (nth j sums Spec.zero) + Spec.sumOf b m
           /\ nth j counts' 0 = nth j counts 0 + Z.of_nat (List.length m).
Proof.
  induction pts as [|p pts IH]; intros [|c a] sums counts Hl Ha Hs Hc;
    simpl in Hl; try discriminate.
  - exists sums, counts. repeat split; auto; simpl; lia.
  - inversion Ha as [|? ? Hc0 Ha']; subst.
    unfold ColorUtils.accumulate; fold ColorUtils.accumulate.
    unfold ColorUtils.updAt.
    destruct (c <? 0) eqn:E; [apply Z.ltb_lt in E; lia|].
    destruct (updNat_spec (ColorUtils.addRgb p) sums (Z.to_nat c))
      as (sums1 & E1 & L1 & N1); [lia|].
    destruct (updNat_spec Z.succ counts (Z.to_nat c))
      as (counts1 & E2 & L2 & N2); [lia|].
    rewrite E1, E2.
    destruct (IH a sums1 counts1) as (sums' & counts' & E3 & L3 & L4 & N3);
      try lia; try assumption.
    exists sums', counts'. split; [exact E3|]. split; [exact L3|].
    split; [exact L4|].
    intros j Hj. destruct (N3 j) as (R & G & B & C); [lia|].
    rewrite members_cons. cbv zeta. rewrite R, G, B, C, !N1, N2.
    destruct (Nat.eqb_spec j (Z.to_nat c)) as [->|Hne].
    + assert (Ec : (c =? Z.of_nat (Z.to_nat c)) = true)
        by (apply Z.eqb_eq; lia).
      rewrite Ec. simpl. unfold ColorUtils.addRgb. simpl. lia.
    + assert (Ec : (c =? Z.of_nat j) = false) by (apply Z.eqb_neq; lia).
      rewrite Ec. lia.
Qed.

Lemma recompute_empty sums :
  forall counts,
    List.length sums = List.length counts ->
    Forall (fun n => n <= 0) counts ->
    ColorUtils.recompute sums counts [] = Some [].
Proof.
  induction sums as [|s ss IH]; intros [|n ns] H F; simpl in H; try discriminate.
  - reflexivity.
  - inversion F; subst. simpl.
    destruct (0 <? n) eqn:E; [apply Z.ltb_lt in E; lia|].
    apply IH; [lia | assumption].
Qed.

Lemma mean_of_sums s m :
  m <> [] ->
  r s = Spec.sumOf r m -> g s = Spec.sumOf g m -> b s = Spec.sumOf b m ->
  ColorUtils.meanRgb s (Z.of_nat (List.length m)) = Spec.mean m.
Proof.
  intros _ R G B. unfold ColorUtils.meanRgb, ColorUtils.roundDiv, Spec.mean.
  now rewrite R, G, B.
Qed.

(** The loop of lines 727-733 recentres every non-empty cluster. *)
Lemma recompute_spec pts a cs :
  forall sums counts j0,
    (List.length cs <= List.length sums)%nat ->
    List.length sums = List.length counts ->
    (forall i, (i < List.length sums)%nat ->
       let m := Spec.members pts a (Z.of_nat (j0 + i)) in
       r (nth i sums Spec.zero) = Spec.sumOf r m
       /\ g (nth i sums Spec.zero) = Spec.sumOf g m
       /\ b (nth i sums Spec.zero) = Spec.sumOf b m
       /\ nth i counts 0 = Z.of_nat (List.length m)) ->
    (forall i, (List.length cs <= i < List.length sums)%nat ->
               nth i counts 0 = 0) ->
    ColorUtils.recompute sums counts cs
    = Some (Spec.recentre pts a (Z.of_nat j0) cs).
Proof.
  induction cs as [|c cs IH]; intros sums counts j0 Hle Hl Hm Hz.
  - simpl. apply recompute_empty; [exact Hl|].
    apply Forall_forall. intros n Hn.
    destruct (In_nth _ _ 0 Hn) as (i & Hi & <-).
    rewrite Hz; [lia | simpl; lia].
  - destruct sums as [|s ss]; [simpl in Hle; lia|].
    destruct counts as [|n ns]; [simpl in Hl; lia|].
    simpl in Hle, Hl.
    unfold ColorUtils.recompute; fold ColorUtils.recompute.
    rewrite (IH ss ns (S j0)).
    + destruct (Hm 0%nat) as (R & G & B & C); [simpl; lia|].
      simpl in R, G, B, C. rewrite Nat.add_0_r in R, G, B, C.
      simpl Spec.recentre.
      replace (Z.of_nat j0 + 1) with (Z.of_nat (S j0)) by lia.
      f_equal. f_equal.
      destruct (Spec.members pts a (Z.of_nat j0)) as [|x m] eqn:M.
      * simpl in C. subst n. reflexivity.
      * assert (P : (0 <? n) = true) by (apply Z.ltb_lt; simpl in C; lia).
        rewrite P, C. apply mean_of_sums; [discriminate | assumption..].
    + lia.
    + lia.
    + intros i Hi. specialize (Hm (S i)). simpl in Hm.
      replace (S j0 + i)%nat with (j0 + S i)%nat by lia.
      apply Hm. lia.
    + intros i Hi. specialize (Hz (S i)). simpl in Hz. apply Hz. lia.
Qed.

Lemma members_out_of_range pts :
  forall a j,
    Forall (fun x => x <> j) a -> Spec.members pts a j = [].
Proof.
  induction pts as [|p pts IH]; intros [|c a] j F; try reflexivity.
  inversion F; subst. rewrite members_cons.
  assert (E : (c =? j) = false) by now apply Z.eqb_neq.
  rewrite E. now apply IH.
Qed.

Lemma recentre_length pts a cs :
  forall j, List.length (Spec.recentre pts a j cs) = List.length cs.
Proof. induction cs; intros j; simpl; [reflexivity | now rewrite IHcs]. Qed.

Lemma nth_repeat_zero {A} (x : A) n j : nth j (repeat x n) x = x.
Proof.
  revert j. induction n; intros [|j]; simpl; auto.
Qed.

(** One pass assigns every point to its nearest centroid and recentres
    the clusters that have points. *)
Lemma round_spec k pts cs cl :
  (1 <= List.length cs)%nat -> Z.of_nat (List.length cs) <= k ->
  List.length cl = List.length pts ->
  let a' := map (Spec.nearest cs) pts in
  ColorUtils.round k pts cs cl
  = Some (Spec.recentre pts a' 0 cs, a', negb (Spec.sameAssignment cl a')).
Proof.
  intros H1 Hk Hl a'. unfold ColorUtils.round.
  rewrite assignPoints_spec by exact Hl. fold a'.
  destruct (k <? 0) eqn:E; [apply Z.ltb_lt in E; lia|].
  assert (Ra : Forall (fun x => 0 <= x < Z.of_nat (List.length cs)) a').
  { unfold a'. apply Forall_forall. intros x Hx.
    apply in_map_iff in Hx. destruct Hx as (p & <- & _).
    destruct (nearest_range cs p) as [N0 N1].
    split; [exact N0|]. apply N1. destruct cs; [simpl in H1; lia | discriminate]. }
  destruct (accumulate_spec (Z.to_nat k) pts a'
              (repeat (RGB 0 0 0) (Z.to_nat k)) (repeat 0 (Z.to_nat k)))
    as (sums & counts & Ea & Ls & Lc & Hm).
  - unfold a'. now rewrite length_map.
  - eapply Forall_impl; [|exact Ra]. simpl. intros x Hx. lia.
  - apply repeat_length.
  - apply repeat_length.
  - rewrite Ea.
    rewrite (recompute_spec pts a' cs sums counts 0).
    + reflexivity.
    + lia.
    + lia.
    + intros i Hi. destruct (Hm i) as (R & G & B & C); [lia|].
      change (RGB 0 0 0) with Spec.zero in *.
      rewrite (nth_repeat_zero Spec.zero) in R, G, B.
      rewrite (nth_repeat_zero 0) in C. simpl in R, G, B, C.
      simpl. repeat split; assumption.
    + intros i Hi. destruct (Hm i) as (_ & _ & _ & C); [lia|].
      rewrite (nth_repeat_zero 0) in C. rewrite C.
      rewrite members_out_of_range; [reflexivity|].
      eapply Forall_impl; [|exact Ra]. simpl. intros x Hx. lia.
Qed.

(** *** The loop *)

Lemma iterate_unchanged n k pts cs cl its :
  ColorUtils.iterate n k pts cs cl false its = Some (cs, cl, its).
Proof. destruct n; reflexivity. Qed.

Lemma iterate_refines k pts :
  forall n cs cl its,
    (1 <= List.length cs)%nat -> Z.of_nat (List.length cs) <= k ->
    List.length cl = List.length pts ->
    exists cl',
      ColorUtils.iterate n k pts cs cl true its
      = Some (fst (Spec.refine n pts cs cl its), cl',
              snd (Spec.refine n pts cs cl its)).
Proof.
  induction n as [|n IH]; intros cs cl its H1 Hk Hl.
  - exists cl. reflexivity.
  - unfold ColorUtils.iterate; fold ColorUtils.iterate.
    rewrite round_spec by assumption. simpl Spec.refine.
    destruct (Spec.sameAssignment cl (map (Spec.nearest cs) pts)); simpl negb.
    + rewrite iterate_unchanged. eexists. reflexivity.
    + apply IH.
      * now rewrite recentre_length.
      * now rewrite recentre_length.
      * now rewrite length_map.
Qed.

Lemma refine_length pts :
  forall n cs a its,
    List.length (fst (Spec.refine n pts cs a its)) = List.length cs.
Proof.
  induction n as [|n IH]; intros cs a its; simpl; [reflexivity|].
  destruct (Spec.sameAssignment a (map (Spec.nearest cs) pts)); simpl.
  - apply recentre_length.
  - rewrite IH. apply recentre_length.
Qed.

Lemma refine_rounds pts :
  forall n cs a its,
    its <= snd (Spec.refine n pts cs a its) <= its + Z.of_nat n
    /\ (n <> O -> its + 1 <= snd (Spec.refine n pts cs a its)).
Proof.
  induction n as [|n IH]; intros cs a its.
  - simpl. lia.
  - cbn [Spec.refine].
    destruct (Spec.sameAssignment a (map (Spec.nearest cs) pts)).
    + simpl. lia.
    + destruct (IH (Spec.recentre pts (map (Spec.nearest cs) pts) 0 cs)
                   (map (Spec.nearest cs) pts) (its + 1)) as [I _]. lia.
Qed.

End KMeans.

(* ================================================================== *)
(** ** The seeds and the result of [ColorUtils.reduceColors] *)
(* ================================================================== *)

Section Seeds.

Lemma set_length {V} (o : Js.obj V) k v :
  (List.length o <= List.length (Js.set o k v))%nat
  /\ (1 <= List.length (Js.set o k v))%nat.
Proof.
  induction o as [|[k' v'] o IH]; simpl.
  - lia.
  - destruct (String.eqb k k'); simpl; lia.
Qed.

Lemma set_length_new {V} (o : Js.obj V) k v :
  Js.get o k = None -> List.length (Js.set o k v) = S (List.length o).
Proof.
  induction o as [|[k' v'] o IH]; simpl; intros H.
  - reflexivity.
  - destruct (String.eqb k k'); [discriminate|]. simpl. now rewrite IH.
Qed.


Lemma frequency_length colors :
  forall acc,
    (List.length acc <= List.length (fold_left ColorUtils.countColor colors acc))%nat
    /\ (colors <> [] -> (1 <= List.length (fold_left ColorUtils.countColor colors acc))%nat).
Proof.
  induction colors as [|c colors IH]; intros acc; simpl.
  - split; [lia | congruence].
  - destruct (IH (ColorUtils.countColor acc c)) as [I1 _].
    destruct (set_length acc c (Js.getOr0 acc c + 1)) as [S1 S2].
    unfold ColorUtils.countColor in *. split; [lia|]. intros _. lia.
Qed.

Lemma frequency_length_distinct colors :
  NoDup colors ->
  forall acc,
    (forall c, In c colors -> Js.get acc c = None) ->
    List.length (fold_left ColorUtils.countColor colors acc)
    = (List.length acc + List.length colors)%nat.
Proof.
  induction 1 as [|c colors Hni Hnd IH]; intros acc Hfresh; simpl.
  - lia.
  - rewrite IH.
    + unfold ColorUtils.countColor.
      rewrite set_length_new by (apply Hfresh; now left). lia.
    + intros c' Hc'. unfold ColorUtils.countColor. rewrite get_set_other.
      * apply Hfresh. now right.
      * intros ->. contradiction.
Qed.

Lemma keys_length {V} (o : Js.obj V) :
  List.length (Js.keys o) = List.length o.
Proof.
  rewrite (Permutation_length (keys_perm o)). apply length_map.
Qed.

Lemma addOriginal_length k l :
  forall cs,
    (List.length cs <= List.length (ColorUtils.addOriginal k l cs))%nat
    /\ (Z.of_nat (List.length cs) <= k ->
        Z.of_nat (List.length (ColorUtils.addOriginal k l cs)) <= k).
Proof.
  induction l as [|x l IH]; intros cs; simpl.
  - lia.
  - destruct (Z.of_nat (List.length cs) <? k) eqn:E;
      [apply Z.ltb_lt in E | lia].
    destruct (ColorUtils.isDuplicate cs (ColorUtils.toRgb3 x)).
    + apply IH.
    + destruct (IH (cs ++ [ColorUtils.toRgb3 x])) as [I1 I2].
      rewrite length_app in I1, I2. simpl in I1, I2. split; [lia|].
      intros _. apply I2. lia.
Qed.

Lemma pushUntil_length k l :
  forall cs,
    (List.length cs <= List.length (ColorUtils.pushUntil k l cs))%nat
    /\ (Z.of_nat (List.length cs) <= k ->
        Z.of_nat (List.length (ColorUtils.pushUntil k l cs)) <= k).
Proof.
  induction l as [|x l IH]; intros cs; simpl.
  - lia.
  - destruct (k <=? Z.of_nat (List.length cs)) eqn:E;
      [lia | apply Z.leb_gt in E].
    destruct (IH (cs ++ [x])) as [I1 I2].
    rewrite length_app in I1, I2. simpl in I1, I2. split; [lia|].
    intros _. apply I2. lia.
Qed.

(** With a colour to reduce and [k >= 1] there is a seed, and never more
    than [k]. *)
Lemma seedCentroids_length w colors k pts :
  1 <= k -> colors <> [] ->
  (1 <= List.length (ColorUtils.seedCentroids w colors k pts))%nat
  /\ Z.of_nat (List.length (ColorUtils.seedCentroids w colors k pts)) <= k.
Proof.
  intros Hk Hne. unfold ColorUtils.seedCentroids.
  set (freq := ColorUtils.colorFrequency colors).
  set (sorted := Js.sort _ (Js.keys freq)).
  set (cs0 := map ColorUtils.toRgb3 (firstn _ sorted)).
  assert (Ls : (1 <= List.length sorted)%nat).
  { unfold sorted. rewrite sort_length, keys_length. unfold freq.
    apply (frequency_length colors []). exact Hne. }
  assert (L0 : (1 <= List.length cs0)%nat /\ Z.of_nat (List.length cs0) <= k).
  { unfold cs0. rewrite length_map, length_firstn. lia. }
  destruct (Z.of_nat (List.length cs0) <? k); [|exact L0].
  set (cs1 := match ColorUtils.colorPaletteOriginalImageColors w with
              | Some colorCounts => _
              | None => cs0
              end).
  assert (L1 : (1 <= List.length cs1)%nat /\ Z.of_nat (List.length cs1) <= k).
  { unfold cs1.
    destruct (ColorUtils.colorPaletteOriginalImageColors w) as [cc|]; [|exact L0].
    destruct (Js.keys cc) as [|x l]; [exact L0|].
    match goal with
    | |- context [ColorUtils.addOriginal k ?l cs0] =>
        destruct (addOriginal_length k l cs0) as [A1 A2]
    end. lia. }
  destruct (Z.of_nat (List.length cs1) <? k); [|exact L1].
  destruct (ColorUtils.originalImageColors w) as [[|x l]|];
    match goal with
    | |- context [ColorUtils.pushUntil k ?l cs1] =>
        destruct (pushUntil_length k l cs1) as [P1 P2]
    end; lia.
Qed.

(** With more than [k] distinct colours the seeds are [k] of them. *)
Lemma seedCentroids_length_distinct w colors k pts :
  0 <= k -> k < Z.of_nat (List.length colors) -> NoDup colors ->
  List.length (ColorUtils.seedCentroids w colors k pts) = Z.to_nat k.
Proof.
  intros Hk Hlt Hnd. unfold ColorUtils.seedCentroids.
  set (freq := ColorUtils.colorFrequency colors).
  set (sorted := Js.sort _ (Js.keys freq)).
  set (cs0 := map ColorUtils.toRgb3 (firstn _ sorted)).
  assert (Ls : List.length sorted = List.length colors).
  { unfold sorted. rewrite sort_length, keys_length. unfold freq.
    apply (frequency_length_distinct colors Hnd []). reflexivity. }
  assert (L0 : List.length cs0 = Z.to_nat k).
  { unfold cs0. rewrite length_map, length_firstn. lia. }
  destruct (Z.of_nat (List.length cs0) <? k) eqn:E;
    [apply Z.ltb_lt in E; lia | exact L0].
Qed.

End Seeds.

(** Without a recorded first-image palette the call returns the centroids
    of the refinement, as many as there are seeds. *)
Lemma reduceColors_kmeans w colors k :
  1 <= k -> k < Z.of_nat (List.length colors) -> Spec.noFirstPalette w ->
  let points := map ColorUtils.toRgb3 (Spec.pointsOf w colors) in
  let seeds := ColorUtils.seedCentroids w colors k points in
  let result :=
    Spec.refine 50 points seeds (repeat 0 (List.length points)) 0 in
  fst (ColorUtils.reduceColors w colors k)
  = Some (map Spec.hexOf (fst result))
  /\ 1 <= snd result <= 50
  /\ List.length (fst result) = List.length seeds.
Proof.
  intros Hk Hlt Hno points seeds result.
  assert (Hne : colors <> []) by (destruct colors; [simpl in Hlt; lia | discriminate]).
  destruct (seedCentroids_length w colors k points Hk Hne) as [S1 S2].
  fold seeds in S1, S2.
  destruct (iterate_refines k points 50 seeds (repeat 0 (List.length points)) 0
              S1 S2 (repeat_length _ _)) as [cl' It].
  fold result in It.
  split; [|split].
  - unfold ColorUtils.reduceColors.
    destruct (Z.of_nat (List.length colors) <=? k) eqn:E;
      [apply Z.leb_le in E; lia|].
    unfold Spec.noFirstPalette in Hno. unfold Spec.pointsOf in points.
    assert (G : forall w0 : ColorUtils.window,
               ColorUtils.originalImageColors w0 = ColorUtils.originalImageColors w ->
               ColorUtils.colorPaletteOriginalImageColors w0
               = ColorUtils.colorPaletteOriginalImageColors w ->
               fst (match ColorUtils.iterate ColorUtils.MAX_ITERATIONS k points
                            (ColorUtils.seedCentroids w0 colors k points)
                            (repeat 0 (List.length points)) true 0 with
                    | Some (centroids, _, _) =>
                        (Some (map (fun c => ColorUtils.rgbToHex (r c) (g c) (b c))
                                   centroids), w0)
                    | None => (None, w0)
                    end)
               = Some (map Spec.hexOf (fst result))).
    { intros w0 E1 E2.
      assert (Es : ColorUtils.seedCentroids w0 colors k points = seeds).
      { unfold seeds, ColorUtils.seedCentroids. now rewrite E1, E2. }
      rewrite Es. change ColorUtils.MAX_ITERATIONS with 50%nat.
      rewrite It. reflexivity. }
    destruct (ColorUtils.firstImagePalette w) as [[|p ps]|] eqn:F1;
      try destruct (ColorUtils.firstImagePaletteCounts w) eqn:F2;
      try contradiction;
      unfold points in *;
      destruct (ColorUtils.originalImageColors w) as [[|c cs]|] eqn:O;
      apply G; reflexivity || (simpl; congruence).
  - destruct (refine_rounds points 50 seeds (repeat 0 (List.length points)) 0)
      as [R1 R2]. fold result in R1, R2.
    change (Z.of_nat 50) with 50 in R1. split; [apply R2; discriminate | lia].
  - apply refine_length.
Qed.

(* ================================================================== *)
(** ** [reduceColors] of js/colorUtils2.js *)
(* ================================================================== *)

Section LowestColours.

Lemma existsb_eqb_In (x : string) (l : list string) :
  existsb (String.eqb x) l = true <-> In x l.
Proof.
  rewrite existsb_exists. split.
  - intros (y & Hy & E). apply String.eqb_eq in E. now subst.
  - intros H. exists x. split; [exact H | apply String.eqb_refl].
Qed.

Lemma setAdd_spec s c :
  NoDup s ->
  NoDup (ColorUtils2.setAdd s c)
  /\ (forall x, In x (ColorUtils2.setAdd s c) <-> In x s \/ x = c).
Proof.
  intros H. unfold ColorUtils2.setAdd.
  destruct (existsb (String.eqb c) s) eqn:E.
  - apply existsb_eqb_In in E. split; [exact H|].
    intros x. split; [tauto | intros [?| ->]; assumption].
  - assert (Hni : ~ In c s).
    { intros Hin. apply existsb_eqb_In in Hin. congruence. }
    split.
    + apply NoDup_app; [exact H | repeat constructor; simpl; tauto|].
      intros x Hx [<-|[]]. contradiction.
    + intros x. rewrite in_app_iff. simpl. intuition.
Qed.

Lemma scanBase_member colorRgb l :
  forall acc : string * option Z,
    In (fst (fold_left (ColorUtils2.scanBase colorRgb) l acc))
       (fst acc :: map ColorUtils2.hex l).
Proof.
  induction l as [|x l IH]; intros [cc md]; cbn [fold_left map fst].
  - now left.
  - unfold ColorUtils2.scanBase at 2.
    destruct (ColorUtils.below _ md).
    + destruct (IH (ColorUtils2.hex x,
                    Some (ColorUtils.colorDistance2 colorRgb (ColorUtils2.rgbOf x))))
        as [H|H]; cbn [fst] in H;
        [right; left; exact H | right; right; exact H].
    + destruct (IH (cc, md)) as [H|H]; cbn [fst] in H;
        [left; exact H | right; right; exact H].
Qed.

Lemma closestBase_member color first base :
  In (ColorUtils2.closestBase color first base)
     (ColorUtils2.hex first :: map ColorUtils2.hex base).
Proof. unfold ColorUtils2.closestBase. apply scanBase_member. Qed.

Lemma collect_spec k first base colors :
  forall unique,
    NoDup unique ->
    incl unique (map ColorUtils2.hex (first :: base)) ->
    exists unique',
      ColorUtils2.collect k (first :: base) colors unique = Some unique'
      /\ NoDup unique'
      /\ incl unique' (map ColorUtils2.hex (first :: base)).
Proof.
  induction colors as [|c colors IH]; intros unique Hnd Hin; simpl.
  - eauto.
  - set (closest := ColorUtils2.closestBase c first (first :: base)).
    destruct (setAdd_spec unique closest Hnd) as [Hnd' Hmem].
    assert (Hin' : incl (ColorUtils2.setAdd unique closest)
                        (map ColorUtils2.hex (first :: base))).
    { intros x Hx. apply Hmem in Hx. destruct Hx as [Hx| ->].
      - now apply Hin.
      - destruct (closestBase_member c first (first :: base)) as [H|H].
        + simpl. left. exact H.
        + exact H. }
    destruct (k <=? Z.of_nat (List.length (ColorUtils2.setAdd unique closest))).
    + eauto.
    + now apply IH.
Qed.

Lemma fill_spec (K : nat) H :
  NoDup H -> List.length H = K ->
  forall suffix prefix res,
    map ColorUtils2.hex (prefix ++ suffix) = H ->
    (forall x, In x prefix -> In (ColorUtils2.hex x) res) ->
    NoDup res -> incl res H -> (List.length res < K)%nat ->
    let out := ColorUtils2.fill (Z.of_nat K) suffix res in
    List.length out = K /\ NoDup out /\ incl out H.
Proof.
  intros HndH HlH.
  induction suffix as [|x suffix IH]; intros prefix res Hmap Hpre Hnd Hin Hlt.
  - exfalso. rewrite app_nil_r in Hmap.
    assert (L : (List.length H <= List.length res)%nat).
    { apply NoDup_incl_length; [exact HndH|].
      intros h Hh. rewrite <- Hmap in Hh. apply in_map_iff in Hh.
      destruct Hh as (x & <- & Hx). now apply Hpre. }
    lia.
  - cbn [ColorUtils2.fill].
    destruct (existsb (String.eqb (ColorUtils2.hex x)) res) eqn:E.
    + apply existsb_eqb_In in E.
      apply (IH (prefix ++ [x])); try assumption.
      * now rewrite <- app_assoc.
      * intros y Hy. apply in_app_iff in Hy. destruct Hy as [Hy|[<-|[]]]; auto.
    + assert (Hni : ~ In (ColorUtils2.hex x) res).
      { intros Hc. apply existsb_eqb_In in Hc. congruence. }
      assert (Hnd' : NoDup (res ++ [ColorUtils2.hex x])).
      { apply NoDup_app; [exact Hnd | repeat constructor; simpl; tauto|].
        intros y Hy [<-|[]]. contradiction. }
      assert (Hin' : incl (res ++ [ColorUtils2.hex x]) H).
      { intros y Hy. apply in_app_iff in Hy. destruct Hy as [Hy|[<-|[]]].
        - now apply Hin.
        - rewrite <- Hmap. apply in_map, in_app_iff. right. now left. }
      assert (Ll : List.length (res ++ [ColorUtils2.hex x]) = S (List.length res))
        by (rewrite length_app; simpl; lia).
      destruct (Z.of_nat K <=? Z.of_nat (List.length (res ++ [ColorUtils2.hex x])))
        eqn:E'; [apply Z.leb_le in E' | apply Z.leb_gt in E'].
      * cbv zeta. repeat split; try assumption. lia.
      * apply (IH (prefix ++ [x])); try assumption.
        -- now rewrite <- app_assoc.
        -- intros y Hy. apply in_app_iff. apply in_app_iff in Hy.
           destruct Hy as [Hy|[<-|[]]]; [left; auto | right; now left].
        -- lia.
Qed.

Lemma NoDup_firstn_ {A} (n : nat) (l : list A) : NoDup l -> NoDup (firstn n l).
Proof.
  intros H. rewrite <- (firstn_skipn n l) in H.
  now apply NoDup_app_remove_r in H.
Qed.

Lemma map_hex_toRgbColor colors :
  map ColorUtils2.hex (map ColorUtils2.toRgbColor colors) = colors.
Proof.
  induction colors as [|c colors IH]; simpl; [reflexivity | now rewrite IH].
Qed.

(** The revision of js/colorUtils2.js returns exactly [k] of the input
    colours when there are more than [k] distinct ones, and the input
    itself otherwise. *)
Lemma reduceColors2_length colors k :
  1 <= k -> NoDup colors ->
  (Z.of_nat (List.length colors) <= k ->
   ColorUtils2.reduceColors colors k = Some colors)
  /\ (k < Z.of_nat (List.length colors) ->
      exists res, ColorUtils2.reduceColors colors k = Some res
                  /\ Z.of_nat (List.length res) = k
                  /\ NoDup res /\ incl res colors).
Proof.
  intros Hk Hnd. unfold ColorUtils2.reduceColors. split; intros Hl.
  - destruct (Z.of_nat (List.length colors) <=? k) eqn:E;
      [reflexivity | apply Z.leb_gt in E; lia].
  - destruct (Z.of_nat (List.length colors) <=? k) eqn:E;
      [apply Z.leb_le in E; lia|].
    set (sorted := Js.sort _ (map ColorUtils2.toRgbColor colors)).
    assert (Ps : Permutation (map ColorUtils2.hex sorted) colors).
    { eapply perm_trans; [apply Permutation_map, sort_perm|].
      rewrite map_hex_toRgbColor. apply Permutation_refl. }
    rewrite !slice0_firstn by lia.
    set (K := Z.to_nat k).
    set (base := firstn K sorted).
    set (H := map ColorUtils2.hex base).
    assert (HndH : NoDup H).
    { unfold H, base. rewrite <- firstn_map. apply NoDup_firstn_.
      eapply Permutation_NoDup; [apply Permutation_sym, Ps | exact Hnd]. }
    assert (HlH : List.length H = K).
    { unfold H, base. rewrite length_map, length_firstn.
      rewrite <- (length_map ColorUtils2.hex sorted),
        (Permutation_length Ps). lia. }
    assert (HinH : incl H colors).
    { intros x Hx. apply (Permutation_in _ Ps).
      unfold H, base in Hx. rewrite <- firstn_map in Hx.
      rewrite <- (firstn_skipn K (map ColorUtils2.hex sorted)).
      apply in_app_iff. now left. }
    destruct base as [|first rest] eqn:B.
    { unfold H in HlH. simpl in HlH. lia. }
    destruct (collect_spec k first rest colors [] (NoDup_nil _))
      as (u & Eu & Hndu & Hinu); [intros x []|].
    rewrite Eu. fold H in Hinu.
    cbv zeta. rewrite !slice0_firstn by lia. fold K.
    assert (Hndf : NoDup (firstn K u)) by now apply NoDup_firstn_.
    assert (Hinf : incl (firstn K u) H).
    { intros x Hx. apply Hinu.
      rewrite <- (firstn_skipn K u). apply in_app_iff. now left. }
    assert (Llf : (List.length (firstn K u) <= K)%nat)
      by (rewrite length_firstn; lia).
    destruct (Z.of_nat (List.length (firstn K u)) <? k) eqn:F;
      [apply Z.ltb_lt in F | apply Z.ltb_ge in F].
    + destruct (fill_spec K H HndH HlH (first :: rest) [] (firstn K u))
        as (L & N & I); try assumption.
      * reflexivity.
      * intros x [].
      * lia.
      * replace (Z.of_nat K) with k in L, N, I by (unfold K; lia).
        eexists. split; [reflexivity|]. repeat split.
        -- rewrite L. unfold K. lia.
        -- exact N.
        -- intros x Hx. apply HinH, I, Hx.
    + eexists. split; [reflexivity|]. repeat split.
      * unfold K in *. lia.
      * exact Hndf.
      * intros x Hx. apply HinH, Hinf, Hx.
Qed.

End LowestColours.

Section Returns.

Lemma fill_incl k base :
  forall res,
    incl (ColorUtils2.fill k base res) (res ++ map ColorUtils2.hex base).
Proof.
  induction base as [|x base IH]; intros res; cbn [ColorUtils2.fill map].
  - rewrite app_nil_r. apply incl_refl.
  - destruct (existsb (String.eqb (ColorUtils2.hex x)) res).
    + intros y Hy. apply IH in Hy. apply in_app_iff in Hy.
      apply in_app_iff. destruct Hy; [now left | right; now right].
    + destruct (k <=? Z.of_nat (List.length (res ++ [ColorUtils2.hex x]))).
      * intros y Hy. apply in_app_iff in Hy. apply in_app_iff.
        destruct Hy as [Hy|[<-|[]]]; [now left | right; now left].
      * intros y Hy. apply IH in Hy. rewrite !in_app_iff in Hy.
        apply in_app_iff. simpl in Hy.
        destruct Hy as [[Hy|[<-|[]]]|Hy];
          [now left | right; now left | right; now right].
Qed.

(** [reduceColors] of js/colorUtils2.js returns, and what it returns are
    colours of the input. *)
Lemma reduceColors2_returns colors k :
  1 <= k -> k < Z.of_nat (List.length colors) ->
  exists res, ColorUtils2.reduceColors colors k = Some res /\ incl res colors.
Proof.
  intros Hk Hl. unfold ColorUtils2.reduceColors.
  destruct (Z.of_nat (List.length colors) <=? k) eqn:E;
    [apply Z.leb_le in E; lia|].
  set (sorted := Js.sort _ (map ColorUtils2.toRgbColor colors)).
  assert (Ps : Permutation (map ColorUtils2.hex sorted) colors).
  { eapply perm_trans; [apply Permutation_map, sort_perm|].
    rewrite map_hex_toRgbColor. apply Permutation_refl. }
  rewrite slice0_firstn by lia.
  set (base := firstn (Z.to_nat k) sorted).
  assert (HinH : incl (map ColorUtils2.hex base) colors).
  { intros x Hx. apply (Permutation_in _ Ps).
    unfold base in Hx. rewrite <- firstn_map in Hx.
    rewrite <- (firstn_skipn (Z.to_nat k) (map ColorUtils2.hex sorted)).
    apply in_app_iff. now left. }
  assert (Lb : List.length base = Z.to_nat k).
  { unfold base. rewrite length_firstn.
    rewrite <- (length_map ColorUtils2.hex sorted), (Permutation_length Ps). lia. }
  destruct base as [|first rest] eqn:B; [simpl in Lb; lia|].
  destruct (collect_spec k first rest colors [] (NoDup_nil _))
    as (u & Eu & _ & Hinu); [intros x []|].
  rewrite Eu. cbv zeta. rewrite slice0_firstn by lia.
  assert (Hinf : incl (firstn (Z.to_nat k) u)
                      (map ColorUtils2.hex (first :: rest))).
  { intros x Hx. apply Hinu.
    rewrite <- (firstn_skipn (Z.to_nat k) u). apply in_app_iff. now left. }
  destruct (_ <? k).
  - eexists. split; [reflexivity|].
    intros x Hx. apply fill_incl in Hx. apply in_app_iff in Hx.
    destruct Hx as [Hx|Hx]; [apply HinH, Hinf, Hx | apply HinH, Hx].
  - eexists. split; [reflexivity|]. intros x Hx. apply HinH, Hinf, Hx.
Qed.

(** With a recorded first-image palette the k-means revision returns the
    most frequent entries of that palette, at most [k] and at most as many
    as the palette has. *)
Lemma reduceColors_first_palette w colors k p ps counts :
  0 <= k -> k < Z.of_nat (List.length colors) ->
  ColorUtils.firstImagePalette w = Some (p :: ps) ->
  ColorUtils.firstImagePaletteCounts w = Some counts ->
  let sortedPalette :=
    Js.sort (fun a b => Js.getOr0 counts b - Js.getOr0 counts a) (p :: ps) in
  ColorUtils.reduceColors w colors k
  = (Some (firstn (Z.to_nat k) sortedPalette), w)
  /\ List.length (firstn (Z.to_nat k) sortedPalette)
     = Nat.min (Z.to_nat k) (S (List.length ps)).
Proof.
  intros Hk Hl F1 F2 sortedPalette. split.
  - unfold ColorUtils.reduceColors.
    destruct (Z.of_nat (List.length colors) <=? k) eqn:E;
      [apply Z.leb_le in E; lia|].
    rewrite F1, F2. now rewrite slice0_firstn by lia.
  - rewrite length_firstn. unfold sortedPalette. now rewrite sort_length.
Qed.

(** Without a recorded first-image palette the k-means revision returns
    the input when it has at most [k] colours and exactly [k] colours when
    it has more than [k] distinct ones. *)
Lemma reduceColors_kmeans_length w colors k :
  1 <= k -> NoDup colors -> Spec.noFirstPalette w ->
  (Z.of_nat (List.length colors) <= k ->
   ColorUtils.reduceColors w colors k = (Some colors, w))
  /\ (k < Z.of_nat (List.length colors) ->
      exists res, fst (ColorUtils.reduceColors w colors k) = Some res
                  /\ Z.of_nat (List.length res) = k).
Proof.
  intros Hk Hnd Hno. split; intros Hl.
  - unfold ColorUtils.reduceColors.
    destruct (Z.of_nat (List.length colors) <=? k) eqn:E;
      [reflexivity | apply Z.leb_gt in E; lia].
  - destruct (reduceColors_kmeans w colors k Hk Hl Hno) as (E & _ & L).
    eexists. split; [exact E|].
    unfold Spec.hexOf. rewrite length_map, L.
    rewrite seedCentroids_length_distinct by (assumption || lia). lia.
Qed.

End Returns.

(** C1, at the failing input. After a first image of one colour the
    globals hold a first-image palette of one entry; with three distinct
    colours and [k = 2] the k-means revision of [reduceColors] returns that
    one entry, not two colours. *)
Theorem reduceColors_short_first_palette :
  NoDup threeColors
  /\ 2 < Z.of_nat (List.length threeColors)
  /\ ColorUtils.reduceColors secondImage threeColors 2
     = (Some ["#FFFFFF"%string], secondImage)
  /\ ColorUtils2.reduceColors threeColors 2
     = Some ["#000000"; "#080808"]%string
  /\ fst (ColorUtils.reduceColors noImage threeColors 2)
     = Some ["#040404"; "#FFFFFF"]%string.
Proof.
  split.
  - unfold threeColors. repeat constructor; simpl; intuition discriminate.
  - repeat split; vm_compute; reflexivity.
Qed.

(** C8, as the specification states it, fails: with three colours and
    [k = 2] the refinement of the seeds ends on [#040404] and [#FFFFFF]
    after three rounds, while [reduceColors] of js/colorUtils2.js returns
    the two darkest input colours and the k-means revision, once a
    first-image palette is recorded, returns that palette's entry. *)
Lemma reduceColors_without_refinement :
  2 < Z.of_nat (List.length threeColors)
  /\ (let result :=
        Spec.refine 50 (map ColorUtils.toRgb3 threeColors)
                    (map ColorUtils.toRgb3 ["#000000"; "#080808"]%string)
                    [0; 0; 0] 0 in
      map Spec.hexOf (fst result) = ["#040404"; "#FFFFFF"]%string
      /\ snd result = 3)
  /\ ColorUtils2.reduceColors threeColors 2
     = Some ["#000000"; "#080808"]%string
  /\ fst (ColorUtils.reduceColors secondImage threeColors 2)
     = Some ["#FFFFFF"%string].
Proof. repeat split; vm_compute; reflexivity. Qed.

(** C8, amended. The loop shared by both k-means revisions makes at least
    one and at most 50 rounds from any seeds; a round assigns every point
    to its nearest centroid (least squared RGB distance, ties to the lowest
    index) and moves the centroid of every cluster that has points to their
    componentwise rounded mean; the rounds stop after the first one whose
    assignment equals the previous one; the loop returns. The k-means
    revision of [reduceColors] runs this loop, and returns its centroids,
    when the input has more than [k >= 1] colours and no first-image
    palette is recorded; with a recorded first-image palette it returns
    that palette's most frequent entries without any refinement, and
    [reduceColors] of js/colorUtils2.js returns colours of the input
    without any refinement. Each of these calls returns. *)
Theorem reduceColors_refinement :
  forall (w : ColorUtils.window) (colors : list string) (k : Z),
    1 <= k -> k < Z.of_nat (List.length colors) ->
    (forall points seeds,
        (1 <= List.length seeds)%nat -> Z.of_nat (List.length seeds) <= k ->
        let result :=
          Spec.refine 50 points seeds (repeat 0 (List.length points)) 0 in
        (exists clusters,
            ColorUtils.iterate ColorUtils.MAX_ITERATIONS k points seeds
                               (repeat 0 (List.length points)) true 0
            = Some (fst result, clusters, snd result))
        /\ 1 <= snd result <= 50)
    /\ (Spec.noFirstPalette w ->
        let points := map ColorUtils.toRgb3 (Spec.pointsOf w colors) in
        let seeds := ColorUtils.seedCentroids w colors k points in
        let result :=
          Spec.refine 50 points seeds (repeat 0 (List.length points)) 0 in
        fst (ColorUtils.reduceColors w colors k)
        = Some (map Spec.hexOf (fst result))
        /\ 1 <= snd result <= 50)
    /\ (forall p ps counts,
           ColorUtils.firstImagePalette w = Some (p :: ps) ->
           ColorUtils.firstImagePaletteCounts w = Some counts ->
           ColorUtils.reduceColors w colors k
           = (Some (firstn (Z.to_nat k)
                           (Js.sort (fun a b => Js.getOr0 counts b
                                                - Js.getOr0 counts a)
                                    (p :: ps))), w))
    /\ (exists res, ColorUtils2.reduceColors colors k = Some res
                    /\ incl res colors)
    /\ (forall centroids point,
           centroids <> [] ->
           exists c,
             nth_error centroids (Z.to_nat (Spec.nearest centroids point))
             = Some c
             /\ forall t c', nth_error centroids t = Some c' ->
                  ColorUtils.colorDistance2 point c
                  <= ColorUtils.colorDistance2 point c'
                  /\ (Z.of_nat t < Spec.nearest centroids point ->
                      ColorUtils.colorDistance2 point c
                      < ColorUtils.colorDistance2 point c')).
Proof.
  intros w colors k Hk Hl. split; [|split; [|split; [|split]]].
  - intros points seeds S1 S2 result.
    destruct (iterate_refines k points 50 seeds
                (repeat 0 (List.length points)) 0 S1 S2 (repeat_length _ _))
      as [cl' It].
    split; [exists cl'; exact It|].
    destruct (refine_rounds points 50 seeds (repeat 0 (List.length points)) 0)
      as [R1 R2]. fold result in R1, R2.
    change (Z.of_nat 50) with 50 in R1. split; [apply R2; discriminate | lia].
  - intros Hno.
    destruct (reduceColors_kmeans w colors k Hk Hl Hno) as (E & R & _).
    split; assumption.
  - intros p ps counts F1 F2.
    apply (reduceColors_first_palette w colors k p ps counts); (lia || assumption).
  - now apply reduceColors2_returns.
  - intros centroids point Hne. now apply nearest_is_least.
Qed.

Lemma reduceColors_refinement_witness :
  (let points := map ColorUtils.toRgb3 (Spec.pointsOf noImage threeColors) in
   let seeds := ColorUtils.seedCentroids noImage threeColors 2 points in
   let result :=
     Spec.refine 50 points seeds (repeat 0 (List.length points)) 0 in
   fst (ColorUtils.reduceColors noImage threeColors 2)
   = Some (map Spec.hexOf (fst result))
   /\ 1 <= snd result <= 50)
  /\ ColorUtils.reduceColors secondImage threeColors 2
     = (Some (firstn (Z.to_nat 2)
                     (Js.sort (fun a b =>
                                 Js.getOr0 [("#FFFFFF"%string, 2560)] b
                                 - Js.getOr0 [("#FFFFFF"%string, 2560)] a)
                              ["#FFFFFF"%string])), secondImage).
Proof.
  assert (H1 : 1 <= 2) by lia.
  assert (H2 : 2 < Z.of_nat (List.length threeColors)) by (simpl; lia).
  split.
  - apply (reduceColors_refinement noImage threeColors 2 H1 H2). exact I.
  - destruct (reduceColors_refinement secondImage threeColors 2 H1 H2)
      as (_ & _ & P & _).
    apply P; reflexivity.
Defined.

(* ================================================================== *)
(** ** Further properties: normalising colour texts *)
(* ================================================================== *)

Section Normalise.

Lemma upperChar_idem c : Js.upperChar (Js.upperChar c) = Js.upperChar c.
Proof. destruct c as [[] [] [] [] [] [] [] []]; reflexivity. Qed.

Lemma toUpperCase_idem s : Js.toUpperCase (Js.toUpperCase s) = Js.toUpperCase s.
Proof.
  induction s as [|c s IH]; simpl; [reflexivity|].
  now rewrite upperChar_idem, IH.
Qed.

Lemma toUpperCase_length s : String.length (Js.toUpperCase s) = String.length s.
Proof. induction s as [|c s IH]; simpl; [reflexivity | now rewrite IH]. Qed.

(** The first step of [normalizeHex] yields a text that begins with [#]. *)
Lemma addHash_shape s :
  exists body,
    match s with
    | String "#"%char _ => s
    | _ => String "#"%char s
    end = String "#"%char body
    /\ (body = s \/ s = String "#"%char body).
Proof.
  destruct s as [|c s]; [exists EmptyString; split; [reflexivity | now left]|].
  destruct (ascii_dec c "#") as [->|Hne].
  - exists s. split; [reflexivity | now right].
  - exists (String c s). split; [|now left].
    destruct c as [[] [] [] [] [] [] [] []]; try reflexivity.
    now contradiction Hne.
Qed.

Lemma normalizeHex_unfold s body :
  match s with
  | String "#"%char _ => s
  | _ => String "#"%char s
  end = String "#"%char body ->
  ColorUtils.normalizeHex s = Js.toUpperCase (Spec.expand (String "#"%char body)).
Proof. intros H. unfold ColorUtils.normalizeHex. now rewrite H. Qed.

Lemma expand_fixed body :
  String.length body <> 3%nat ->
  Spec.expand (String "#"%char body) = String "#"%char body.
Proof.
  intros H. destruct body as [|a [|b0 [|c [|d body]]]]; try reflexivity.
  simpl in H. congruence.
Qed.

Lemma expand_three a b0 c :
  Spec.expand (String "#"%char (String a (String b0 (String c EmptyString))))
  = String "#"%char (String a (String a (String b0 (String b0
      (String c (String c EmptyString)))))).
Proof. reflexivity. Qed.

Lemma upper_hash_shape t :
  Js.toUpperCase (String "#"%char t) = String "#"%char (Js.toUpperCase t).
Proof. reflexivity. Qed.

Lemma upperChar_ascii c :
  Spec.isAsciiChar c = true -> Spec.isAsciiChar (Js.upperChar c) = true.
Proof.
  destruct c as [[] [] [] [] [] [] [] []]; intros H;
    try discriminate H; reflexivity.
Qed.

Lemma toUpperCase_ascii s :
  Spec.isAscii s = true -> Spec.isAscii (Js.toUpperCase s) = true.
Proof.
  induction s as [|c s IH]; cbn [Spec.isAscii Js.toUpperCase]; intros H;
    [reflexivity|].
  apply andb_prop in H. destruct H as [A B].
  now rewrite (upperChar_ascii c A), (IH B).
Qed.

Lemma normalizeHex_ascii s :
  Spec.isAscii s = true -> Spec.isAscii (ColorUtils.normalizeHex s) = true.
Proof.
  intros H. destruct (addHash_shape s) as (body & E & D).
  rewrite (normalizeHex_unfold s body E). apply toUpperCase_ascii.
  assert (B : Spec.isAscii body = true).
  { destruct D as [->|D]; [exact H|]. rewrite D in H.
    cbn [Spec.isAscii] in H. apply andb_prop in H. exact (proj2 H). }
  assert (Hh : forall t, Spec.isAscii (String "#"%char t) = Spec.isAscii t)
    by reflexivity.
  destruct (Nat.eq_dec (String.length body) 3) as [L|L].
  - destruct body as [|a [|b0 [|c [|d body]]]]; try discriminate L.
    rewrite expand_three, Hh. cbn [Spec.isAscii] in B |- *.
    apply andb_prop in B. destruct B as [Xa B].
    apply andb_prop in B. destruct B as [Xb B].
    apply andb_prop in B. destruct B as [Xc _].
    now rewrite Xa, Xb, Xc.
  - rewrite expand_fixed by exact L. now rewrite Hh.
Qed.

End Normalise.

(** X1. On a text of ASCII characters [normalizeHex] is idempotent, its
    result begins with [#] and is again a text of ASCII characters.
    (Outside ASCII [toUpperCase] can lengthen a text, and the second call
    can then double other characters than the first.) *)
Theorem normalizeHex_idempotent :
  forall s : string,
    Spec.isAscii s = true ->
    ColorUtils.normalizeHex (ColorUtils.normalizeHex s)
    = ColorUtils.normalizeHex s
    /\ (exists t, ColorUtils.normalizeHex s = String "#"%char t)
    /\ Spec.isAscii (ColorUtils.normalizeHex s) = true.
Proof.
  intros s Ascii.
  assert (Cl : Spec.isAscii (ColorUtils.normalizeHex s) = true)
    by now apply normalizeHex_ascii.
  revert Cl.
  destruct (addHash_shape s) as (body & E & _).
  rewrite (normalizeHex_unfold s body E). intros Cl.
  assert (Sh : exists t, Js.toUpperCase (Spec.expand (String "#"%char body))
                         = String "#"%char t
                         /\ String.length t <> 3%nat
                         /\ Js.toUpperCase t = t).
  { destruct (Nat.eq_dec (String.length body) 3) as [L|L].
    - destruct body as [|a [|b0 [|c [|d body]]]]; try discriminate L.
      rewrite expand_three, upper_hash_shape.
      eexists. split; [reflexivity|]. split; [simpl; discriminate|].
      apply toUpperCase_idem.
    - rewrite expand_fixed by exact L. rewrite upper_hash_shape.
      eexists. split; [reflexivity|]. split.
      + now rewrite toUpperCase_length.
      + apply toUpperCase_idem. }
  destruct Sh as (t & Et & Lt & Ut). rewrite Et in Cl |- *.
  split; [|split; [eauto | exact Cl]].
  rewrite (normalizeHex_unfold (String "#"%char t) t eq_refl).
  rewrite expand_fixed by exact Lt.
  rewrite upper_hash_shape. now rewrite Ut.
Qed.

Lemma normalizeHex_idempotent_witness :
  Spec.isAscii "f0a" = true
  /\ ColorUtils.normalizeHex (ColorUtils.normalizeHex "f0a")
     = ColorUtils.normalizeHex "f0a"
  /\ ColorUtils.normalizeHex "f0a" = "#FF00AA"%string.
Proof.
  split; [reflexivity|].
  split; [apply (normalizeHex_idempotent "f0a"); reflexivity | reflexivity].
Defined.

Section ValidTexts.

Lemma hexDigit_upper c :
  ColorUtils.isHexDigit c = true ->
  Spec.isUpperHexDigit (Js.upperChar c) = true
  /\ Js.hexDigitValue (Js.upperChar c) = Js.hexDigitValue c.
Proof.
  intros H.
  destruct c as [[] [] [] [] [] [] [] []]; try discriminate H;
    split; reflexivity.
Qed.

Lemma hexDigit_value c :
  ColorUtils.isHexDigit c = true -> exists d, Js.hexDigitValue c = Some d.
Proof.
  unfold ColorUtils.isHexDigit.
  destruct (Js.hexDigitValue c) as [d|]; [eauto | discriminate].
Qed.

Lemma hexDigit_not_hash c :
  ColorUtils.isHexDigit c = true -> c <> "#"%char.
Proof. intros H ->. discriminate H. Qed.

(** A valid text is [#]-optional and has three or six hex digits; after
    the first step of [normalizeHex] it is [#] and those digits. *)
Lemma valid_shape s :
  ColorUtils.isValidHex s = true ->
  exists body,
    match s with
    | String "#"%char _ => s
    | _ => String "#"%char s
    end = String "#"%char body
    /\ Js.stripHash s = body
    /\ ColorUtils.allHex body = true
    /\ (String.length body = 3%nat \/ String.length body = 6%nat).
Proof.
  unfold ColorUtils.isValidHex. intros H.
  apply andb_prop in H. destruct H as [Ha Hl].
  apply orb_prop in Hl.
  assert (L : String.length (Js.stripHash s) = 3%nat
              \/ String.length (Js.stripHash s) = 6%nat).
  { destruct Hl as [Hl|Hl]; apply Nat.eqb_eq in Hl; auto. }
  destruct s as [|c s].
  { simpl in L. destruct L; discriminate. }
  destruct (ascii_dec c "#") as [->|Hne].
  - exists s. repeat split; assumption.
  - assert (Es : Js.stripHash (String c s) = String c s).
    { destruct c as [[] [] [] [] [] [] [] []]; try reflexivity.
      now contradiction Hne. }
    rewrite Es in Ha, L.
    exists (String c s). split; [|repeat split; assumption].
    destruct c as [[] [] [] [] [] [] [] []]; try reflexivity.
    now contradiction Hne.
Qed.

Lemma normalizeHex_valid s :
  ColorUtils.isValidHex s = true ->
  Spec.isCanonical (ColorUtils.normalizeHex s) = true
  /\ String.length (ColorUtils.normalizeHex s) = 7%nat
  /\ ColorUtils.isValidHex (ColorUtils.normalizeHex s) = true.
Proof.
  intros H. destruct (valid_shape s H) as (body & E & _ & Ha & L).
  rewrite (normalizeHex_unfold s body E).
  assert (C : Spec.isCanonical (Js.toUpperCase (Spec.expand (String "#"%char body)))
              = true).
  { destruct L as [L|L].
    - destruct body as [|a [|b0 [|c [|d body]]]]; try discriminate L.
      simpl in Ha.
      apply andb_prop in Ha. destruct Ha as [Xa Ha].
      apply andb_prop in Ha. destruct Ha as [Xb Ha].
      apply andb_prop in Ha. destruct Ha as [Xc _].
      rewrite expand_three. simpl.
      rewrite (proj1 (hexDigit_upper a Xa)), (proj1 (hexDigit_upper b0 Xb)),
        (proj1 (hexDigit_upper c Xc)). reflexivity.
    - destruct body as [|c5 [|c4 [|c3 [|c2 [|c1 [|c0 [|x body]]]]]]];
        try discriminate L.
      simpl in Ha.
      apply andb_prop in Ha. destruct Ha as [X5 Ha].
      apply andb_prop in Ha. destruct Ha as [X4 Ha].
      apply andb_prop in Ha. destruct Ha as [X3 Ha].
      apply andb_prop in Ha. destruct Ha as [X2 Ha].
      apply andb_prop in Ha. destruct Ha as [X1 Ha].
      apply andb_prop in Ha. destruct Ha as [X0 _].
      rewrite expand_fixed by (simpl; discriminate). simpl.
      rewrite (proj1 (hexDigit_upper c5 X5)), (proj1 (hexDigit_upper c4 X4)),
        (proj1 (hexDigit_upper c3 X3)), (proj1 (hexDigit_upper c2 X2)),
        (proj1 (hexDigit_upper c1 X1)), (proj1 (hexDigit_upper c0 X0)).
      reflexivity. }
  split; [exact C|].
  remember (Js.toUpperCase (Spec.expand (String "#"%char body))) as t eqn:Et.
  clear Et. unfold Spec.isCanonical in C.
  destruct t as [|h t]; [discriminate|].
  destruct h as [[] [] [] [] [] [] [] []]; try discriminate C.
  destruct t as [|c5 [|c4 [|c3 [|c2 [|c1 [|c0 [|x t]]]]]]]; try discriminate C.
  split; [reflexivity|].
  repeat (apply andb_prop in C; destruct C as [C ?]).
  unfold ColorUtils.isValidHex. simpl.
  assert (U : forall c, Spec.isUpperHexDigit c = true ->
                        ColorUtils.isHexDigit c = true).
  { intros c Hc. destruct (upper_digit_char c Hc) as (d & _ & V & _).
    unfold ColorUtils.isHexDigit. now rewrite V. }
  rewrite !U by assumption. reflexivity.
Qed.

Lemma hexDigit_ascii c :
  ColorUtils.isHexDigit c = true -> Spec.isAsciiChar c = true.
Proof.
  intros H.
  destruct c as [[] [] [] [] [] [] [] []]; try discriminate H; reflexivity.
Qed.

Lemma allHex_ascii body :
  ColorUtils.allHex body = true -> Spec.isAscii body = true.
Proof.
  induction body as [|c body IH]; [reflexivity|].
  cbn [ColorUtils.allHex Spec.isAscii]. intros H.
  apply andb_prop in H. destruct H as [A B].
  now rewrite (hexDigit_ascii c A), (IH B).
Qed.

(** The texts that [isValidHex] accepts are texts of ASCII characters. *)
Lemma valid_ascii s :
  ColorUtils.isValidHex s = true -> Spec.isAscii s = true.
Proof.
  intros H. destruct (valid_shape s H) as (body & E & _ & Ha & _).
  apply allHex_ascii in Ha.
  destruct (addHash_shape s) as (body' & E' & D).
  rewrite E in E'. injection E' as <-.
  destruct D as [D|D]; [now rewrite <- D|].
  rewrite D. cbn [Spec.isAscii]. now rewrite Ha.
Qed.

Lemma upper_is_hex c :
  Spec.isUpperHexDigit (Js.upperChar c) = true ->
  ColorUtils.isHexDigit c = true.
Proof.
  intros H.
  destruct c as [[] [] [] [] [] [] [] []]; try discriminate H; reflexivity.
Qed.

(** For every text, [#] and what [stripHash] leaves. *)
Lemma strip_shape s :
  exists body,
    match s with
    | String "#"%char _ => s
    | _ => String "#"%char s
    end = String "#"%char body
    /\ Js.stripHash s = body.
Proof.
  destruct s as [|c s]; [exists EmptyString; split; reflexivity|].
  destruct (ascii_dec c "#") as [->|Hne].
  - exists s. split; reflexivity.
  - exists (String c s).
    split; destruct c as [[] [] [] [] [] [] [] []]; try reflexivity;
      now contradiction Hne.
Qed.

Lemma canonical_only_valid s :
  Spec.isCanonical (ColorUtils.normalizeHex s) = true ->
  ColorUtils.isValidHex s = true.
Proof.
  destruct (strip_shape s) as (body & E & St).
  rewrite (normalizeHex_unfold s body E). intros C.
  unfold ColorUtils.isValidHex. rewrite St.
  destruct (Nat.eq_dec (String.length body) 3) as [L|L].
  - destruct body as [|a [|b0 [|c [|d body]]]]; try discriminate L.
    rewrite expand_three in C. cbn [Js.toUpperCase Spec.isCanonical] in C.
    change (Js.upperChar "#") with "#"%char in C. cbv iota beta in C.
    repeat (apply andb_prop in C; destruct C as [C ?]).
    cbn [ColorUtils.allHex].
    rewrite (upper_is_hex a), (upper_is_hex b0), (upper_is_hex c)
      by assumption.
    reflexivity.
  - rewrite expand_fixed in C by exact L.
    destruct body as [|c5 [|c4 [|c3 [|c2 [|c1 [|c0 [|x body]]]]]]];
      try discriminate C.
    cbn [Js.toUpperCase Spec.isCanonical] in C.
    change (Js.upperChar "#") with "#"%char in C. cbv iota beta in C.
    repeat (apply andb_prop in C; destruct C as [C ?]).
    cbn [ColorUtils.allHex].
    rewrite (upper_is_hex c5), (upper_is_hex c4), (upper_is_hex c3),
      (upper_is_hex c2), (upper_is_hex c1), (upper_is_hex c0) by assumption.
    reflexivity.
Qed.

End ValidTexts.

(** X2. On the texts of ASCII characters [normalizeHex] yields a canonical
    colour text, [#] and six upper-case hex digits, exactly on the texts
    that [isValidHex] accepts. Every text that [isValidHex] accepts is a
    text of ASCII characters; its normal form has seven characters and is
    itself valid. (Outside ASCII a text that [isValidHex] rejects can
    upper-case to a canonical text.) *)
Theorem normalizeHex_canonical :
  forall s : string,
    (ColorUtils.isValidHex s = true ->
     Spec.isAscii s = true
     /\ Spec.isCanonical (ColorUtils.normalizeHex s) = true
     /\ String.length (ColorUtils.normalizeHex s) = 7%nat
     /\ ColorUtils.isValidHex (ColorUtils.normalizeHex s) = true)
    /\ (Spec.isAscii s = true ->
        Spec.isCanonical (ColorUtils.normalizeHex s) = true ->
        ColorUtils.isValidHex s = true).
Proof.
  intros s. split.
  - intros H. split; [now apply valid_ascii | apply (normalizeHex_valid s H)].
  - intros _. apply canonical_only_valid.
Qed.

Lemma normalizeHex_canonical_witness :
  Spec.isAscii "f0a" = true
  /\ String.length (ColorUtils.normalizeHex "f0a") = 7%nat
  /\ ColorUtils.isValidHex (ColorUtils.normalizeHex "f0a") = true.
Proof.
  destruct (normalizeHex_canonical "f0a") as [P _].
  destruct (P eq_refl) as (A & _ & L & V). exact (conj A (conj L V)).
Defined.

Section Shorthand.

Lemma value_isHexDigit c d :
  Js.hexDigitValue c = Some d -> ColorUtils.isHexDigit c = true.
Proof. intros H. unfold ColorUtils.isHexDigit. now rewrite H. Qed.

Lemma upper_value c d :
  Js.hexDigitValue c = Some d -> Js.hexDigitValue (Js.upperChar c) = Some d.
Proof.
  intros H. rewrite (proj2 (hexDigit_upper c (value_isHexDigit c d H))).
  exact H.
Qed.

Lemma addHash_digit c s d :
  Js.hexDigitValue c = Some d ->
  match String c s with
  | String "#"%char _ => String c s
  | _ => String "#"%char (String c s)
  end = String "#"%char (String c s)
  /\ Js.stripHash (String c s) = String c s.
Proof.
  intros H.
  destruct c as [[] [] [] [] [] [] [] []]; try discriminate H;
    split; reflexivity.
Qed.

(** [parseInt] of three hex digits. *)
Lemma parseInt16_hex3 a b0 c da db dc :
  Js.hexDigitValue a = Some da -> Js.hexDigitValue b0 = Some db ->
  Js.hexDigitValue c = Some dc ->
  Js.parseInt16 (String a (String b0 (String c EmptyString)))
  = Js.Num (16 * (16 * da + db) + dc).
Proof.
  intros Ha Hb Hc.
  pose proof (hexDigitValue_range _ _ Ha).
  pose proof (hexDigitValue_range _ _ Hb).
  pose proof (hexDigitValue_range _ _ Hc).
  rewrite (parseInt16_digits a b0 _ da db Ha Hb).
  assert (P : Js.parseDigits (String a (String b0 (String c EmptyString))) 0
              = 16 * (16 * da + db) + dc).
  { cbn [Js.parseDigits]. rewrite Ha. cbn [Js.parseDigits].
    rewrite Hb. cbn [Js.parseDigits]. rewrite Hc. lia. }
  rewrite P, roundToDouble_small by lia. reflexivity.
Qed.

End Shorthand.

(** X3. A three-digit text is expanded by doubling every digit, so after
    [normalizeHex] its channels are 17 times the digits; read without
    normalising, [hexToRgb] takes the three digits as one small number.
    Normalising a six-digit text does not change the channels read. *)
Theorem shorthand_doubles_digits :
  forall (a b0 c : ascii) (da db dc : Z),
    Js.hexDigitValue a = Some da ->
    Js.hexDigitValue b0 = Some db ->
    Js.hexDigitValue c = Some dc ->
    let s := String a (String b0 (String c EmptyString)) in
    ColorUtils.hexToRgb (ColorUtils.normalizeHex s)
    = RGB (17 * da) (17 * db) (17 * dc)
    /\ ColorUtils.hexToRgb (ColorUtils.normalizeHex (String "#"%char s))
       = RGB (17 * da) (17 * db) (17 * dc)
    /\ ColorUtils.hexToRgb s = RGB 0 da (16 * db + dc).
Proof.
  intros a b0 c da db dc Ha Hb Hc s.
  pose proof (hexDigitValue_range _ _ Ha) as Ra.
  pose proof (hexDigitValue_range _ _ Hb) as Rb.
  pose proof (hexDigitValue_range _ _ Hc) as Rc.
  assert (N : forall t,
             match t with
             | String "#"%char _ => t
             | _ => String "#"%char t
             end = String "#"%char s ->
             ColorUtils.hexToRgb (ColorUtils.normalizeHex t)
             = RGB (17 * da) (17 * db) (17 * dc)).
  { intros t Et. rewrite (normalizeHex_unfold t s Et).
    unfold s. rewrite expand_three.
    unfold ColorUtils.hexToRgb.
    cbn [Js.toUpperCase Js.stripHash].
    change (Js.upperChar "#") with "#"%char. cbn [Js.stripHash].
    rewrite (parseInt16_hex6 _ _ _ _ _ _ da da db db dc dc)
      by (apply upper_value; assumption).
    destruct (channels_of_digits da da db db dc dc Ra Ra Rb Rb Rc Rc)
      as (C1 & C2 & C3).
    rewrite C1, C2, C3. f_equal; lia. }
  split; [|split].
  - apply N. unfold s. apply (addHash_digit a _ da Ha).
  - apply N. reflexivity.
  - unfold ColorUtils.hexToRgb, s.
    rewrite (proj2 (addHash_digit a _ da Ha)).
    rewrite (parseInt16_hex3 a b0 c da db dc Ha Hb Hc).
    unfold Js.sar.
    rewrite toInt32_small by lia.
    rewrite !land255, !Z.shiftr_div_pow2 by lia.
    change (2 ^ 16) with 65536. change (2 ^ 8) with 256.
    f_equal.
    + rewrite Z.div_small by lia. reflexivity.
    + assert (E : (16 * (16 * da + db) + dc) / 256 = da)
        by (symmetry; apply (Z.div_unique _ _ _ (16 * db + dc)); lia).
      rewrite E. apply Z.mod_small. lia.
    + symmetry. apply (Z.mod_unique _ _ da); lia.
Qed.

Lemma shorthand_doubles_digits_witness :
  ColorUtils.hexToRgb (ColorUtils.normalizeHex "f0a") = RGB (17 * 15) (17 * 0) (17 * 10)
  /\ ColorUtils.hexToRgb (ColorUtils.normalizeHex "#f0a")
     = RGB (17 * 15) (17 * 0) (17 * 10)
  /\ ColorUtils.hexToRgb "f0a" = RGB 0 15 (16 * 0 + 10).
Proof.
  apply (shorthand_doubles_digits "f" "0" "a" 15 0 10); reflexivity.
Defined.

(* ================================================================== *)
(** ** Further properties: the closest colour of a palette *)
(* ================================================================== *)

Section Closest.

Lemma hexToRgb_channels s :
  Spec.channel (r (ColorUtils.hexToRgb s))
  /\ Spec.channel (g (ColorUtils.hexToRgb s))
  /\ Spec.channel (b (ColorUtils.hexToRgb s)).
Proof.
  unfold ColorUtils.hexToRgb, Spec.channel. cbn [r g b].
  rewrite !land255.
  pose proof (Z.mod_pos_bound (Js.sar (Js.parseInt16 (Js.stripHash s)) 16) 256).
  pose proof (Z.mod_pos_bound (Js.sar (Js.parseInt16 (Js.stripHash s)) 8) 256).
  pose proof (Z.mod_pos_bound (Js.toInt32 (Js.parseInt16 (Js.stripHash s))) 256).
  lia.
Qed.

Lemma rgbToHex_canonical rr gg bb :
  Spec.channel rr -> Spec.channel gg -> Spec.channel bb ->
  Spec.isCanonical (ColorUtils.rgbToHex rr gg bb) = true
  /\ ColorUtils.hexToRgb (ColorUtils.rgbToHex rr gg bb) = RGB rr gg bb.
Proof.
  intros Hr Hg Hb.
  destruct (split_channel rr Hr) as (Er & R1 & R0).
  destruct (split_channel gg Hg) as (Eg & G1 & G0).
  destruct (split_channel bb Hb) as (Eb & B1 & B0).
  rewrite Er, Eg, Eb at 1 2.
  rewrite rgbToHex_digits by assumption.
  destruct (digit_upper_value _ R1) as [V5 U5].
  destruct (digit_upper_value _ R0) as [V4 U4].
  destruct (digit_upper_value _ G1) as [V3 U3].
  destruct (digit_upper_value _ G0) as [V2 U2].
  destruct (digit_upper_value _ B1) as [V1 U1].
  destruct (digit_upper_value _ B0) as [V0 U0].
  split.
  - unfold Spec.isCanonical. now rewrite U5, U4, U3, U2, U1, U0.
  - unfold ColorUtils.hexToRgb. unfold Js.stripHash.
    rewrite (parseInt16_hex6 _ _ _ _ _ _ _ _ _ _ _ _ V5 V4 V3 V2 V1 V0).
    destruct (channels_of_digits _ _ _ _ _ _ R1 R0 G1 G0 B1 B0) as (C1 & C2 & C3).
    rewrite C1, C2, C3. now rewrite <- Er, <- Eg, <- Eb.
Qed.

Lemma canonical_round_trip c :
  Spec.isCanonical c = true ->
  ColorUtils.rgbToHex (r (ColorUtils.hexToRgb c)) (g (ColorUtils.hexToRgb c))
                      (b (ColorUtils.hexToRgb c)) = c.
Proof.
  intros Hc. unfold Spec.isCanonical in Hc.
  destruct c as [|h c]; [discriminate|].
  destruct h as [[] [] [] [] [] [] [] []]; try discriminate Hc.
  destruct c as [|c5 [|c4 [|c3 [|c2 [|c1 [|c0 [|x c]]]]]]]; try discriminate Hc.
  repeat (apply andb_prop in Hc; destruct Hc as [Hc ?]).
  destruct (upper_digit_char c5) as (d5 & B5 & V5 & E5); [assumption|].
  destruct (upper_digit_char c4) as (d4 & B4 & V4 & E4); [assumption|].
  destruct (upper_digit_char c3) as (d3 & B3 & V3 & E3); [assumption|].
  destruct (upper_digit_char c2) as (d2 & B2 & V2 & E2); [assumption|].
  destruct (upper_digit_char c1) as (d1 & B1 & V1 & E1); [assumption|].
  destruct (upper_digit_char c0) as (d0 & B0 & V0 & E0); [assumption|].
  unfold ColorUtils.hexToRgb. unfold Js.stripHash.
  rewrite (parseInt16_hex6 c5 c4 c3 c2 c1 c0 d5 d4 d3 d2 d1 d0)
    by assumption.
  destruct (channels_of_digits _ _ _ _ _ _ B5 B4 B3 B2 B1 B0) as (C1 & C2 & C3).
  cbv beta iota delta [r g b].
  rewrite C1, C2, C3.
  rewrite rgbToHex_digits by assumption.
  now rewrite E5, E4, E3, E2, E1, E0.
Qed.

(** Canonical colours of equal channels are the same text. *)
Lemma canonical_injective c c' :
  Spec.isCanonical c = true -> Spec.isCanonical c' = true ->
  ColorUtils.hexToRgb c = ColorUtils.hexToRgb c' -> c = c'.
Proof.
  intros Hc Hc' E.
  rewrite <- (canonical_round_trip c Hc), <- (canonical_round_trip c' Hc').
  now rewrite E.
Qed.

Lemma distance_zero p q :
  ColorUtils.colorDistance2 p q = 0 <-> p = q.
Proof.
  unfold ColorUtils.colorDistance2. destruct p as [pr pg pb], q as [qr qg qb].
  cbn [r g b]. split.
  - intros H.
    assert (pr - qr = 0) by nia. assert (pg - qg = 0) by nia.
    assert (pb - qb = 0) by nia. f_equal; lia.
  - intros H. inversion H; subst. rewrite !Z.sub_diag. reflexivity.
Qed.

Lemma distance_nonneg p q : 0 <= ColorUtils.colorDistance2 p q.
Proof. unfold ColorUtils.colorDistance2. nia. Qed.

(** The scan of [findClosestColor] from a bound [m] already reached: the
    bound stays when no entry is below it; otherwise the result is the
    first entry at the least distance. *)
Lemma closest_scan (t : rgb) (l : list string) :
  forall (cc : option string) (m : Z),
    let D := fun c => ColorUtils.colorDistance2 t (ColorUtils.hexToRgb c) in
    let res := fold_left (Spec.scanPalette t) l (cc, Some m) in
    (res = (cc, Some m) /\ forall c', In c' l -> m <= D c')
    \/ (exists l1 c l2,
           l = l1 ++ c :: l2 /\ res = (Some c, Some (D c)) /\ D c < m
           /\ (forall c', In c' l1 -> D c < D c')
           /\ (forall c', In c' l2 -> D c <= D c')).
Proof.
  induction l as [|x l IH]; intros cc m D res.
  - left. split; [reflexivity | intros c' []].
  - subst res. cbn [fold_left].
    change (Spec.scanPalette t (cc, Some m) x)
      with (if D x <? m then (Some x, Some (D x)) else (cc, Some m)).
    destruct (D x <? m) eqn:E.
    + apply Z.ltb_lt in E.
      destruct (IH (Some x) (D x)) as [[R A]|(l1 & c & l2 & L & R & B & A1 & A2)].
      * right. exists [], x, l.
        split; [reflexivity|]. split; [exact R|]. split; [exact E|].
        split; [intros c' [] | exact A].
      * right. exists (x :: l1), c, l2. subst l.
        split; [reflexivity|]. split; [exact R|].
        split; [unfold D in *; cbv beta in *; lia|].
        split; [|exact A2].
        intros c' [<-|I]; [exact B | now apply A1].
    + apply Z.ltb_ge in E.
      destruct (IH cc m) as [[R A]|(l1 & c & l2 & L & R & B & A1 & A2)].
      * left. split; [assumption|]. intros c' [<-|I]; [exact E | now apply A].
      * right. exists (x :: l1), c, l2. subst l.
        split; [reflexivity|]. split; [exact R|]. split; [exact B|].
        split; [|exact A2].
        intros c' [<-|I]; [unfold D in *; cbv beta in *; lia | now apply A1].
Qed.

Lemma fold_left_ext {A B} (f f' : A -> B -> A) (l : list B) :
  (forall a x, f a x = f' a x) ->
  forall a, fold_left f l a = fold_left f' l a.
Proof.
  intros H. induction l as [|x l IH]; intros a; [reflexivity|].
  cbn [fold_left]. now rewrite H, IH.
Qed.

Lemma findClosestColor_scan target palette :
  ColorUtils.findClosestColor target palette
  = fst (fold_left (Spec.scanPalette (ColorUtils.hexToRgb target)) palette
                   (nth_error palette 0, None)).
Proof.
  unfold ColorUtils.findClosestColor. f_equal.
  apply fold_left_ext. intros [cc md] x. reflexivity.
Qed.

Lemma findClosestColor_agree color palette :
  ColorUtils2.findClosestColor color palette
  = ColorUtils.findClosestColor color palette.
Proof.
  unfold ColorUtils2.findClosestColor, ColorUtils.findClosestColor.
  destruct (ColorUtils.hexToRgb color) as [x y z]. reflexivity.
Qed.

Lemma findClosestColor_first_least target palette :
  palette <> [] ->
  let D := fun c => ColorUtils.colorDistance2 (ColorUtils.hexToRgb target)
                                              (ColorUtils.hexToRgb c) in
  exists l1 c l2,
    palette = l1 ++ c :: l2
    /\ ColorUtils.findClosestColor target palette = Some c
    /\ (forall c', In c' l1 -> D c < D c')
    /\ (forall c', In c' l2 -> D c <= D c').
Proof.
  intros Hne D. destruct palette as [|x l]; [congruence|].
  rewrite findClosestColor_scan. cbn [fold_left nth_error].
  change (Spec.scanPalette (ColorUtils.hexToRgb target) (Some x, None) x)
    with (Some x, Some (D x)).
  destruct (closest_scan (ColorUtils.hexToRgb target) l (Some x) (D x))
    as [[R A]|(l1 & c & l2 & L & R & B & A1 & A2)].
  - exists [], x, l. fold (D x). unfold D in R |- *. rewrite R.
    split; [reflexivity|]. split; [reflexivity|].
    split; [intros c' [] | exact A].
  - exists (x :: l1), c, l2. subst l. fold (D x). unfold D in R |- *.
    rewrite R. split; [reflexivity|]. split; [reflexivity|].
    split; [|exact A2].
    intros c' [<-|I]; [exact B | now apply A1].
Qed.

Lemma closest_exact :
  forall (target : string) (palette : list string),
    (exists p, In p palette
               /\ ColorUtils.hexToRgb p = ColorUtils.hexToRgb target) ->
    exists c,
      ColorUtils.findClosestColor target palette = Some c
      /\ In c palette
      /\ ColorUtils.hexToRgb c = ColorUtils.hexToRgb target
      /\ (Spec.isCanonical target = true ->
          Forall (fun q => Spec.isCanonical q = true) palette ->
          c = target).
Proof.
  intros target palette (p & Ip & Ep).
  assert (Hne : palette <> []) by (intros ->; destruct Ip).
  destruct (findClosestColor_first_least target palette Hne)
    as (l1 & c & l2 & L & R & A1 & A2).
  assert (Ic : In c palette)
    by (rewrite L; apply in_or_app; right; left; reflexivity).
  assert (Z0 : ColorUtils.colorDistance2 (ColorUtils.hexToRgb target)
                                         (ColorUtils.hexToRgb p) = 0)
    by (apply distance_zero; now rewrite Ep).
  assert (Zc : ColorUtils.colorDistance2 (ColorUtils.hexToRgb target)
                                         (ColorUtils.hexToRgb c) = 0).
  { pose proof (distance_nonneg (ColorUtils.hexToRgb target)
                                (ColorUtils.hexToRgb c)) as P.
    rewrite L in Ip. apply in_app_or in Ip.
    destruct Ip as [I|[<-|I]].
    - specialize (A1 p I). cbv beta in A1. lia.
    - exact Z0.
    - specialize (A2 p I). cbv beta in A2. lia. }
  apply distance_zero in Zc.
  exists c. split; [exact R|]. split; [exact Ic|]. split; [now symmetry|].
  intros Ct Cp. rewrite Forall_forall in Cp.
  { 
    apply canonical_injective; [now apply Cp | assumption | now symmetry]. }
Qed.

End Closest.

(** X4. On a palette that is not empty, both revisions of [findClosestColor]
    return the same entry of the palette: the first one whose distance to
    the target is least (every earlier entry is strictly farther, every
    later one at least as far). Distances are compared by their squares. *)
Theorem findClosestColor_nearest :
  forall (target : string) (palette : list string),
    palette <> [] ->
    exists l1 c l2,
      palette = l1 ++ c :: l2
      /\ ColorUtils.findClosestColor target palette = Some c
      /\ ColorUtils2.findClosestColor target palette = Some c
      /\ (forall c', In c' l1 ->
            ColorUtils.colorDistance2 (ColorUtils.hexToRgb target)
                                      (ColorUtils.hexToRgb c)
            < ColorUtils.colorDistance2 (ColorUtils.hexToRgb target)
                                        (ColorUtils.hexToRgb c'))
      /\ (forall c', In c' l2 ->
            ColorUtils.colorDistance2 (ColorUtils.hexToRgb target)
                                      (ColorUtils.hexToRgb c)
            <= ColorUtils.colorDistance2 (ColorUtils.hexToRgb target)
                                         (ColorUtils.hexToRgb c')).
Proof.
  intros target palette Hne.
  destruct (findClosestColor_first_least target palette Hne)
    as (l1 & c & l2 & L & R & A1 & A2).
  exists l1, c, l2.
  split; [exact L|]. split; [exact R|].
  split; [rewrite findClosestColor_agree; exact R|].
  split; [exact A1 | exact A2].
Qed.

Lemma findClosestColor_nearest_witness :
  exists l1 c l2,
    ["#000000"; "#FF0000"; "#FE0000"]%string = l1 ++ c :: l2
    /\ ColorUtils.findClosestColor "#FF0101" ["#000000"; "#FF0000"; "#FE0000"]%string
       = Some c
    /\ ColorUtils2.findClosestColor "#FF0101" ["#000000"; "#FF0000"; "#FE0000"]%string
       = Some c
    /\ (forall c', In c' l1 ->
          ColorUtils.colorDistance2 (ColorUtils.hexToRgb "#FF0101")
                                    (ColorUtils.hexToRgb c)
          < ColorUtils.colorDistance2 (ColorUtils.hexToRgb "#FF0101")
                                      (ColorUtils.hexToRgb c'))
    /\ (forall c', In c' l2 ->
          ColorUtils.colorDistance2 (ColorUtils.hexToRgb "#FF0101")
                                    (ColorUtils.hexToRgb c)
          <= ColorUtils.colorDistance2 (ColorUtils.hexToRgb "#FF0101")
                                       (ColorUtils.hexToRgb c')).
Proof.
  apply (findClosestColor_nearest "#FF0101" ["#000000"; "#FF0000"; "#FE0000"]%string).
  discriminate.
Defined.

(** X5. A target whose channels are those of an entry of the palette is
    mapped to an entry of the same channels; when the target and the
    palette are canonical colours and the target is in the palette, the
    result is the target itself. *)
Theorem findClosestColor_exact :
  forall (target : string) (palette : list string),
    (exists p, In p palette
               /\ ColorUtils.hexToRgb p = ColorUtils.hexToRgb target) ->
    exists c,
      ColorUtils.findClosestColor target palette = Some c
      /\ In c palette
      /\ ColorUtils.hexToRgb c = ColorUtils.hexToRgb target
      /\ (Spec.isCanonical target = true ->
          Forall (fun q => Spec.isCanonical q = true) palette ->
          c = target).
Proof. exact closest_exact. Qed.

Lemma findClosestColor_exact_witness :
  exists c,
    ColorUtils.findClosestColor "#00ff00" ["#FF0000"; "#00FF00"]%string = Some c
    /\ In c ["#FF0000"; "#00FF00"]%string
    /\ ColorUtils.hexToRgb c = ColorUtils.hexToRgb "#00ff00"
    /\ (Spec.isCanonical "#00ff00" = true ->
        Forall (fun q => Spec.isCanonical q = true)
               ["#FF0000"; "#00FF00"]%string ->
        c = "#00ff00"%string).
Proof.
  apply (findClosestColor_exact "#00ff00" ["#FF0000"; "#00FF00"]%string).
  exists "#00FF00"%string. split; [right; left; reflexivity | reflexivity].
Defined.

(* ================================================================== *)
(** ** Further properties: the colours in use on a grid *)
(* ================================================================== *)

Section ColoursInUse.

Lemma getOr0_set_same o k v : Js.getOr0 (Js.set o k v) k = v.
Proof. unfold Js.getOr0. now rewrite get_set_same. Qed.

Lemma getOr0_set_other o k k' v :
  k' <> k -> Js.getOr0 (Js.set o k v) k' = Js.getOr0 o k'.
Proof. intros H. unfold Js.getOr0. now rewrite get_set_other. Qed.

(** Counting the colours of [l] into [acc]. *)
Lemma count_fold (l : list string) :
  forall (acc : Js.obj Z) (c : string),
    Js.get (fold_left ColorUtils.countColor l acc) c
    = match count_occ string_dec l c with
      | O => Js.get acc c
      | S n => Some (Js.getOr0 acc c + Z.of_nat (S n))
      end.
Proof.
  induction l as [|x l IH]; intros acc c; [reflexivity|].
  cbn [fold_left count_occ]. rewrite IH. unfold ColorUtils.countColor.
  destruct (string_dec x c) as [->|Hne].
  - rewrite getOr0_set_same, get_set_same.
    destruct (count_occ string_dec l c); f_equal; lia.
  - rewrite getOr0_set_other, get_set_other by congruence. reflexivity.
Qed.

Lemma set_keys_new {V} (o : Js.obj V) k v :
  Js.get o k = None -> map fst (Js.set o k v) = map fst o ++ [k].
Proof.
  induction o as [|[k' v'] o IH]; cbn [Js.get Js.set map fst app]; intros H.
  - reflexivity.
  - destruct (String.eqb k k'); [discriminate|].
    cbn [map fst]. now rewrite IH.
Qed.

(** The keys of the counts are the distinct colours in first-seen
    order. *)
Lemma count_keys (l : list string) :
  forall (acc : Js.obj Z),
    map fst (fold_left ColorUtils.countColor l acc)
    = fold_left (fun seen color =>
                   if existsb (String.eqb color) seen then seen
                   else seen ++ [color]) l (map fst acc).
Proof.
  induction l as [|x l IH]; intros acc; [reflexivity|].
  cbn [fold_left]. rewrite IH. f_equal. unfold ColorUtils.countColor.
  destruct (Js.get acc x) as [n|] eqn:G.
  - rewrite (set_keys_present acc x _ n G).
    assert (I : In x (map fst acc)).
    { change x with (fst (x, n)). apply in_map. now apply get_In. }
    apply existsb_eqb_In in I. now rewrite I.
  - rewrite (set_keys_new acc x _ G).
    apply get_None_notin in G.
    destruct (existsb (String.eqb x) (map fst acc)) eqn:E; [|reflexivity].
    apply existsb_eqb_In in E. contradiction.
Qed.

Lemma seen_fold (l : list string) :
  forall seen : list string,
    NoDup seen ->
    let res := fold_left (fun seen color =>
                            if existsb (String.eqb color) seen then seen
                            else seen ++ [color]) l seen in
    NoDup res /\ forall x, In x res <-> In x seen \/ In x l.
Proof.
  induction l as [|c l IH]; intros seen H res.
  - split; [exact H|]. intros x. cbn. tauto.
  - subst res. cbn [fold_left].
    destruct (setAdd_spec seen c H) as [N M].
    unfold ColorUtils2.setAdd in N, M.
    destruct (IH _ N) as [N' M'].
    split; [exact N'|].
    intros x. rewrite M', M. cbn [In]. intuition auto.
Qed.

End ColoursInUse.

(** X6. On a grid whose cell colours all begin with [#] (as every colour
    that [normalizeHex] or [rgbToHex] returns), [getColorCounts] counts
    the cells: a colour text beginning with [#] that no cell has is not a
    key of the result, and every other one is mapped to the number of
    cells that have it. *)
Theorem getColorCounts_counts :
  forall (g : GemGrid.t) (c : string),
    Forall (fun color => Spec.beginsWithHash color = true)
           (Js.values (GemGrid.gemColors g)) ->
    Spec.beginsWithHash c = true ->
    Js.get (GemGrid.getColorCounts g) c
    = match count_occ string_dec (Js.values (GemGrid.gemColors g)) c with
      | O => None
      | S n => Some (Z.of_nat (S n))
      end.
Proof.
  intros g c _ _.
  change (GemGrid.getColorCounts g)
    with (fold_left ColorUtils.countColor (Js.values (GemGrid.gemColors g)) []).
  rewrite count_fold.
  destruct (count_occ string_dec (Js.values (GemGrid.gemColors g)) c);
    reflexivity.
Qed.

Lemma getColorCounts_counts_witness :
  Js.get (GemGrid.getColorCounts painted2x2) "#FF0000"%string
  = match count_occ string_dec (Js.values (GemGrid.gemColors painted2x2))
                    "#FF0000"%string with
    | O => None
    | S n => Some (Z.of_nat (S n))
    end.
Proof.
  apply (getColorCounts_counts painted2x2 "#FF0000"%string).
  - vm_compute. repeat constructor.
  - reflexivity.
Defined.

(** X7. On a grid whose cell colours all begin with [#], [getAllColors]
    lists every colour that some cell has exactly once; it is the list of
    the keys of [getColorCounts] in the order of their creation, so the
    number shown by [updateColorCountDisplay] is the number of distinct
    colours on the grid. *)
Theorem getAllColors_distinct :
  forall g : GemGrid.t,
    Forall (fun color => Spec.beginsWithHash color = true)
           (Js.values (GemGrid.gemColors g)) ->
    NoDup (GemGrid.getAllColors g)
    /\ (forall c, In c (GemGrid.getAllColors g)
                  <-> In c (Js.values (GemGrid.gemColors g)))
    /\ Forall (fun color => Spec.beginsWithHash color = true)
              (GemGrid.getAllColors g)
    /\ map fst (GemGrid.getColorCounts g) = GemGrid.getAllColors g
    /\ (forall s, Session.grid s = g ->
                  Session.updateColorCountDisplay s
                  = List.length (GemGrid.getAllColors g)).
Proof.
  intros g Hash.
  assert (K : map fst (GemGrid.getColorCounts g) = GemGrid.getAllColors g).
  { change (GemGrid.getColorCounts g)
      with (fold_left ColorUtils.countColor (Js.values (GemGrid.gemColors g)) []).
    rewrite count_keys. reflexivity. }
  destruct (seen_fold (Js.values (GemGrid.gemColors g)) [] (NoDup_nil _))
    as [N M].
  assert (Mem : forall c, In c (GemGrid.getAllColors g)
                          <-> In c (Js.values (GemGrid.gemColors g))).
  { intros c. unfold GemGrid.getAllColors. rewrite M. cbn [In]. tauto. }
  split; [exact N|]. split; [exact Mem|]. split.
  - rewrite Forall_forall in *. intros c Hc. apply Hash. now apply Mem.
  - split; [exact K|]. intros s <-.
    unfold Session.updateColorCountDisplay.
    rewrite keys_length, <- K. now rewrite length_map.
Qed.

Lemma getAllColors_distinct_witness :
  Session.updateColorCountDisplay
    {| Session.grid := painted2x2; Session.colors := [];
       Session.fullPalette := []; Session.window := noImage |}
  = List.length (GemGrid.getAllColors painted2x2).
Proof.
  assert (Hash : Forall (fun color => Spec.beginsWithHash color = true)
                        (Js.values (GemGrid.gemColors painted2x2))).
  { vm_compute. repeat constructor. }
  destruct (getAllColors_distinct painted2x2 Hash) as (_ & _ & _ & _ & P).
  apply P. reflexivity.
Defined.

(* ================================================================== *)
(** ** Further properties: cells, selections and the constructor *)
(* ================================================================== *)

Section GridCells.

Lemma cellsOf_In cols rows col row :
  In (col, row) (cellsOf cols rows) <-> 0 <= col < cols /\ 0 <= row < rows.
Proof.
  unfold cellsOf. rewrite in_flat_map. split.
  - intros (y & Hy & Hin). apply in_map_iff in Hin.
    destruct Hin as (x & E & Hx). inversion E; subst.
    apply in_seq in Hy. apply in_seq in Hx. lia.
  - intros [Hc Hr]. exists (Z.to_nat row). split.
    + apply in_seq. lia.
    + apply in_map_iff. exists (Z.to_nat col). split.
      * f_equal; lia.
      * apply in_seq. lia.
Qed.

Lemma isValidCell_spec g col row :
  GemGrid.isValidCell g col row = true
  <-> 0 <= col < GemGrid.cols g /\ 0 <= row < GemGrid.rows g.
Proof.
  unfold GemGrid.isValidCell. rewrite !andb_true_iff.
  rewrite !Z.leb_le, !Z.ltb_lt. lia.
Qed.

(** Writing one colour under every key of a list. *)
Lemma paint_get (v : string) (ks : list string) :
  forall (m : Js.obj string) (key : string),
    Js.get (fold_left (fun m key => Js.set m key v) ks m) key
    = if in_dec string_dec key ks then Some v else Js.get m key.
Proof.
  induction ks as [|k ks IH]; intros m key; [reflexivity|].
  cbn [fold_left]. rewrite IH.
  destruct (in_dec string_dec key ks) as [I|N];
    destruct (in_dec string_dec key (k :: ks)) as [I'|N']; try reflexivity.
  - exfalso. apply N'. now right.
  - destruct I' as [->|I']; [apply get_set_same | contradiction].
  - apply get_set_other. intros ->. apply N'. now left.
Qed.

Lemma paint_wellFormed (v : string) (ks : list string) :
  forall m : Js.obj string,
    Spec.wellFormed m ->
    Spec.wellFormed (fold_left (fun m key => Js.set m key v) ks m).
Proof.
  induction ks as [|k ks IH]; intros m H; [exact H|].
  cbn [fold_left]. apply IH. unfold Spec.wellFormed in *.
  destruct (Js.get m k) as [v0|] eqn:G.
  - now rewrite (set_keys_present m k v v0 G).
  - rewrite (set_keys_new m k v G).
    apply NoDup_app; [exact H | repeat constructor; cbn; tauto|].
    intros x Hx [<-|[]]. apply get_None_notin in G. contradiction.
Qed.

Lemma initialize_as_paint (cells : list (Z * Z)) :
  forall m : Js.obj string,
    fold_left (fun m '(col, row) => Js.set m (cellKey col row) GemGrid.defaultColor)
              cells m
    = fold_left (fun m key => Js.set m key GemGrid.defaultColor)
                (map (fun cr => cellKey (fst cr) (snd cr)) cells) m.
Proof.
  induction cells as [|[col row] cells IH]; intros m; [reflexivity|].
  cbn [fold_left map fst snd]. apply IH.
Qed.

Lemma initializeGrid_get g key :
  Js.get (GemGrid.gemColors (GemGrid.initializeGrid g)) key
  = if in_dec string_dec key
         (map (fun cr => cellKey (fst cr) (snd cr))
              (cellsOf (GemGrid.cols g) (GemGrid.rows g)))
    then Some GemGrid.defaultColor
    else Js.get (GemGrid.gemColors g) key.
Proof.
  unfold GemGrid.initializeGrid, GemGrid.withColors.
  cbn [GemGrid.gemColors]. rewrite initialize_as_paint. apply paint_get.
Qed.

Lemma initializeGrid_cells g :
  let g' := GemGrid.initializeGrid g in
  (forall col row,
      GemGrid.isValidCell g col row = true ->
      Js.get (GemGrid.gemColors g') (cellKey col row)
      = Some GemGrid.defaultColor)
  /\ (forall key,
         (forall col row, GemGrid.isValidCell g col row = true ->
                          cellKey col row <> key) ->
         Js.get (GemGrid.gemColors g') key = Js.get (GemGrid.gemColors g) key).
Proof.
  intros g'. unfold g'. split.
  - intros col row V. rewrite initializeGrid_get.
    destruct (in_dec _ _ _) as [I|N]; [reflexivity|].
    exfalso. apply N. apply in_map_iff. exists (col, row). split; [reflexivity|].
    apply cellsOf_In. now apply isValidCell_spec.
  - intros key Hk. rewrite initializeGrid_get.
    destruct (in_dec _ _ _) as [I|N]; [|reflexivity].
    exfalso. apply in_map_iff in I. destruct I as ([col row] & E & I).
    apply (Hk col row); [|exact E].
    apply isValidCell_spec. now apply cellsOf_In.
Qed.

End GridCells.

(** X8. [initializeGrid] makes every cell inside the extent white and touches
    no other key, nor the extent, the selection or the history. *)
Theorem initializeGrid_white :
  forall g : GemGrid.t,
    let g' := GemGrid.initializeGrid g in
    (forall col row,
        GemGrid.isValidCell g col row = true ->
        Js.get (GemGrid.gemColors g') (cellKey col row) = Some "#FFFFFF"%string)
    /\ (forall key,
           (forall col row, GemGrid.isValidCell g col row = true ->
                            cellKey col row <> key) ->
           Js.get (GemGrid.gemColors g') key = Js.get (GemGrid.gemColors g) key)
    /\ (Spec.wellFormed (GemGrid.gemColors g) ->
        Spec.wellFormed (GemGrid.gemColors g'))
    /\ GemGrid.cols g' = GemGrid.cols g
    /\ GemGrid.rows g' = GemGrid.rows g
    /\ GemGrid.selectedCells g' = GemGrid.selectedCells g
    /\ GemGrid.history g' = GemGrid.history g
    /\ GemGrid.historyIndex g' = GemGrid.historyIndex g.
Proof.
  intros g g'. destruct (initializeGrid_cells g) as [A B].
  split; [exact A|]. split; [exact B|]. split.
  - intros W. unfold g', GemGrid.initializeGrid, GemGrid.withColors.
    cbn [GemGrid.gemColors]. rewrite initialize_as_paint.
    now apply paint_wellFormed.
  - repeat split; reflexivity.
Qed.

Lemma initializeGrid_white_witness :
  Js.get (GemGrid.gemColors (GemGrid.initializeGrid (GemGrid.blank 2 2)))
         (cellKey 1 1) = Some "#FFFFFF"%string.
Proof.
  destruct (initializeGrid_white (GemGrid.blank 2 2)) as (P & _).
  apply P. reflexivity.
Defined.

(** X9. The constructor ignores the extent it is given: every new grid has 64
    columns and 40 rows, 2560 cells, all of them white, nothing selected
    and an empty history. *)
Theorem constructor_fixed_extent :
  forall cols rows : Z,
    let g := GemGrid.constructor cols rows in
    g = GemGrid.constructor 64 40
    /\ GemGrid.cols g = 64 /\ GemGrid.rows g = 40
    /\ List.length (GemGrid.gemColors g) = 2560%nat
    /\ (forall col row, 0 <= col < 64 -> 0 <= row < 40 ->
                        Js.get (GemGrid.gemColors g) (cellKey col row)
                        = Some "#FFFFFF"%string)
    /\ GemGrid.selectedCells g = []
    /\ GemGrid.history g = [] /\ GemGrid.historyIndex g = -1.
Proof.
  intros cols rows g.
  assert (E : g = GemGrid.constructor 64 40) by reflexivity.
  split; [exact E|]. rewrite E.
  split; [reflexivity|]. split; [reflexivity|].
  split; [vm_compute; reflexivity|].
  split; [|repeat split; reflexivity].
  intros col row Hc Hr.
  apply (proj1 (initializeGrid_cells
                  (GemGrid.calculateDimensions (GemGrid.blank 64 40)))).
  apply isValidCell_spec. cbn. lia.
Qed.

Lemma constructor_fixed_extent_witness :
  Js.get (GemGrid.gemColors (GemGrid.constructor 3 3)) (cellKey 63 39)
  = Some "#FFFFFF"%string.
Proof.
  destruct (constructor_fixed_extent 3 3) as (_ & _ & _ & _ & P & _).
  apply P; lia.
Defined.

(* ================================================================== *)
(** ** Further properties: edits of the grid *)
(* ================================================================== *)

Section Edits.

Lemma saveState_extent now g :
  GemGrid.cols (GemGrid.saveState now g) = GemGrid.cols g
  /\ GemGrid.rows (GemGrid.saveState now g) = GemGrid.rows g
  /\ GemGrid.selectedCells (GemGrid.saveState now g) = GemGrid.selectedCells g.
Proof.
  unfold GemGrid.saveState.
  destruct (50 <? _); repeat split; reflexivity.
Qed.

Lemma isValidCell_saveState now g col row :
  GemGrid.isValidCell (GemGrid.saveState now g) col row
  = GemGrid.isValidCell g col row.
Proof.
  unfold GemGrid.isValidCell.
  destruct (saveState_extent now g) as (-> & -> & _). reflexivity.
Qed.

Lemma invariant_fields g g' :
  GemGrid.history g' = GemGrid.history g ->
  GemGrid.historyIndex g' = GemGrid.historyIndex g ->
  Spec.historyInvariant g -> Spec.historyInvariant g'.
Proof.
  unfold Spec.historyInvariant, Spec.len. now intros -> ->.
Qed.

(** The selection made by the loop of [handleDoubleClick]. *)
Lemma select_fold (target : string) (es : list (string * string)) :
  forall sel : list string,
    NoDup sel ->
    let res :=
      fold_left
        (fun sel '(cellKey, color) =>
           match Some target with
           | Some target =>
               if String.eqb color target then Js.setAdd sel cellKey else sel
           | None => sel
           end) es sel in
    NoDup res
    /\ forall key, In key res <-> In key sel \/ In (key, target) es.
Proof.
  induction es as [|[k c] es IH]; intros sel H res.
  - split; [exact H|]. intros key. cbn. tauto.
  - subst res. cbn [fold_left].
    destruct (String.eqb c target) eqn:E.
    + apply String.eqb_eq in E. subst c.
      destruct (setAdd_spec sel k H) as [N M].
      change (ColorUtils2.setAdd sel k) with (Js.setAdd sel k) in N, M.
      destruct (IH _ N) as [N' M'].
      split; [exact N'|]. intros key. rewrite M', M. cbn [In].
      split.
      * intros [[I| ->]|I]; auto.
      * intros [I|[I|I]]; auto. inversion I; subst. auto.
    + apply String.eqb_neq in E.
      destruct (IH _ H) as [N' M'].
      split; [exact N'|]. intros key. rewrite M'. cbn [In].
      split; [tauto|]. intros [I|[I|I]]; auto.
      inversion I; subst. contradiction.
Qed.

Lemma entries_get (o : Js.obj string) key v :
  Spec.wellFormed o -> (In (key, v) (Js.entries o) <-> Js.get o key = Some v).
Proof.
  intros W. split.
  - intros I. apply In_get; [exact W|].
    eapply Permutation_in; [apply entries_perm | exact I].
  - intros G. eapply Permutation_in;
      [apply Permutation_sym, entries_perm | now apply get_In].
Qed.

Lemma applyColorToSelection_paints_aux now color g :
  Spec.historyInvariant g ->
  GemGrid.selectedCells g <> [] ->
  let g' := GemGrid.applyColorToSelection now color g in
  (forall key,
      Js.get (GemGrid.gemColors g') key
      = if in_dec string_dec key (GemGrid.selectedCells g)
        then Some color
        else Js.get (GemGrid.gemColors g) key)
  /\ GemGrid.at_ (GemGrid.history g') (GemGrid.historyIndex g')
     = Some (Spec.snapshotOf now g)
  /\ GemGrid.selectedCells g' = GemGrid.selectedCells g
  /\ Spec.historyInvariant g'.
Proof.
  intros I Ne g'. unfold g', GemGrid.applyColorToSelection.
  destruct (GemGrid.selectedCells g) as [|k ks] eqn:S; [congruence|].
  destruct (saveState_extent now g) as (_ & _ & Es).
  cbv zeta. unfold GemGrid.withColors.
  cbn [GemGrid.gemColors GemGrid.history GemGrid.historyIndex
       GemGrid.selectedCells].
  rewrite Es, S, saveState_colors.
  split; [intros key; apply paint_get|].
  split; [now apply saveState_top|].
  split; [reflexivity|].
  apply (invariant_fields (GemGrid.saveState now g));
    [reflexivity | reflexivity | now apply saveState_invariant].
Qed.

End Edits.

(** X10. [applyColorToSelection] with nothing selected changes nothing;
    otherwise it pushes a snapshot of the colours before the edit and then
    gives the colour to exactly the selected cells, every other cell
    keeping its colour; the selection stays. *)
Theorem applyColorToSelection_paints :
  forall (now : Z) (color : string) (g : GemGrid.t),
    Spec.historyInvariant g ->
    let g' := GemGrid.applyColorToSelection now color g in
    (GemGrid.selectedCells g = [] -> g' = g)
    /\ (GemGrid.selectedCells g <> [] ->
        (forall key,
            Js.get (GemGrid.gemColors g') key
            = if in_dec string_dec key (GemGrid.selectedCells g)
              then Some color
              else Js.get (GemGrid.gemColors g) key)
        /\ GemGrid.at_ (GemGrid.history g') (GemGrid.historyIndex g')
           = Some (Spec.snapshotOf now g)
        /\ GemGrid.selectedCells g' = GemGrid.selectedCells g
        /\ Spec.historyInvariant g').
Proof.
  intros now color g I g'. split.
  - intros S. unfold g', GemGrid.applyColorToSelection. now rewrite S.
  - intros Ne. now apply applyColorToSelection_paints_aux.
Qed.

Lemma applyColorToSelection_paints_witness :
  Js.get (GemGrid.gemColors painted2x2) "1,1" = Some "#FF0000"%string
  /\ Js.get (GemGrid.gemColors painted2x2) "1,0" = Some "#FFFFFF"%string.
Proof.
  assert (I : Spec.historyInvariant
                (GemGrid.withSelection grid2x2 ["0,0"; "1,1"]%string))
    by (unfold Spec.historyInvariant, Spec.len; cbn; lia).
  destruct (applyColorToSelection_paints
              1000 "#FF0000" (GemGrid.withSelection grid2x2 ["0,0"; "1,1"]%string) I)
    as [_ P].
  destruct P as (P & _); [discriminate|].
  split.
  - exact (P "1,1"%string).
  - exact (P "1,0"%string).
Defined.

(** X11. A double click on a cell selects exactly the cells that have the
    colour of the clicked cell, each once, and changes neither colours
    nor history; painting that selection recolours every cell of that
    colour and no other cell. *)
Theorem handleDoubleClick_selects_colour :
  forall (now : Z) (color target : string) (g : GemGrid.t) (col row : Z),
    Spec.historyInvariant g ->
    Spec.wellFormed (GemGrid.gemColors g) ->
    GemGrid.isValidCell g col row = true ->
    Js.get (GemGrid.gemColors g) (cellKey col row) = Some target ->
    let g' := GemGrid.handleDoubleClick (Some (col, row)) g in
    NoDup (GemGrid.selectedCells g')
    /\ (forall key, In key (GemGrid.selectedCells g')
                    <-> Js.get (GemGrid.gemColors g) key = Some target)
    /\ GemGrid.gemColors g' = GemGrid.gemColors g
    /\ GemGrid.history g' = GemGrid.history g
    /\ GemGrid.historyIndex g' = GemGrid.historyIndex g
    /\ (forall key,
           Js.get (GemGrid.gemColors
                     (GemGrid.applyColorToSelection now color g')) key
           = match Js.get (GemGrid.gemColors g) key with
             | Some c => if String.eqb c target then Some color else Some c
             | None => None
             end).
Proof.
  intros now color target g col row I W V G g'.
  assert (E : g' = GemGrid.withSelection g
                     (fold_left
                        (fun sel '(cellKey, color) =>
                           match Some target with
                           | Some target =>
                               if String.eqb color target
                               then Js.setAdd sel cellKey else sel
                           | None => sel
                           end) (Js.entries (GemGrid.gemColors g)) [])).
  { unfold g', GemGrid.handleDoubleClick. rewrite V. cbn [negb].
    cbv zeta. rewrite G. reflexivity. }
  destruct (select_fold target (Js.entries (GemGrid.gemColors g)) []
                        (NoDup_nil _)) as [N M].
  cbv zeta in N, M.
  assert (Sel : forall key, In key (GemGrid.selectedCells g')
                            <-> Js.get (GemGrid.gemColors g) key = Some target).
  { intros key. rewrite E. cbn [GemGrid.selectedCells GemGrid.withSelection].
    rewrite M. rewrite (entries_get _ key target W). cbn [In]. tauto. }
  split; [rewrite E; exact N|].
  split; [exact Sel|].
  split; [rewrite E; reflexivity|].
  split; [rewrite E; reflexivity|].
  split; [rewrite E; reflexivity|].
  intros key.
  assert (I' : Spec.historyInvariant g')
    by (apply (invariant_fields g); [rewrite E| rewrite E|]; auto).
  assert (Ne : GemGrid.selectedCells g' <> []).
  { intros Z0. assert (X : In (cellKey col row) (GemGrid.selectedCells g'))
      by now apply Sel.
    rewrite Z0 in X. destruct X. }
  destruct (applyColorToSelection_paints_aux now color g' I' Ne) as [P _].
  rewrite P.
  assert (Ec : GemGrid.gemColors g' = GemGrid.gemColors g)
    by (rewrite E; reflexivity).
  rewrite Ec.
  destruct (in_dec string_dec key (GemGrid.selectedCells g')) as [Y|Nn].
  - apply Sel in Y. rewrite Y. now rewrite String.eqb_refl.
  - destruct (Js.get (GemGrid.gemColors g) key) as [c|] eqn:Gk; [|reflexivity].
    destruct (String.eqb c target) eqn:Ct; [|reflexivity].
    apply String.eqb_eq in Ct. subst c. exfalso. apply Nn. now apply Sel.
Qed.

Lemma handleDoubleClick_selects_colour_witness :
  Js.get (GemGrid.gemColors
            (GemGrid.applyColorToSelection
               7 "#0000FF"
               (GemGrid.handleDoubleClick (Some (0, 0)) painted2x2))) "1,1"
  = match Js.get (GemGrid.gemColors painted2x2) "1,1" with
    | Some c => if String.eqb c "#FF0000" then Some "#0000FF"%string else Some c
    | None => None
    end.
Proof.
  assert (I : Spec.historyInvariant painted2x2)
    by (unfold Spec.historyInvariant, Spec.len; cbn; lia).
  assert (W : Spec.wellFormed (GemGrid.gemColors painted2x2)).
  { unfold Spec.wellFormed. vm_compute.
    repeat constructor; simpl; intuition discriminate. }
  destruct (handleDoubleClick_selects_colour
              7 "#0000FF" "#FF0000" painted2x2 0 0 I W eq_refl eq_refl)
    as (_ & _ & _ & _ & _ & P).
  exact (P "1,1"%string).
Defined.

(** X12. [clearGrid] pushes a snapshot of the colours it is about to erase,
    makes every cell of the extent white and empties the selection; keys
    outside the extent keep their value and the extent stays. *)
Theorem clearGrid_resets :
  forall (now : Z) (g : GemGrid.t),
    Spec.historyInvariant g ->
    let g' := GemGrid.clearGrid now g in
    GemGrid.selectedCells g' = []
    /\ (forall col row,
           GemGrid.isValidCell g col row = true ->
           Js.get (GemGrid.gemColors g') (cellKey col row)
           = Some "#FFFFFF"%string)
    /\ (forall key,
           (forall col row, GemGrid.isValidCell g col row = true ->
                            cellKey col row <> key) ->
           Js.get (GemGrid.gemColors g') key = Js.get (GemGrid.gemColors g) key)
    /\ GemGrid.at_ (GemGrid.history g') (GemGrid.historyIndex g')
       = Some (Spec.snapshotOf now g)
    /\ Spec.historyInvariant g'
    /\ GemGrid.cols g' = GemGrid.cols g /\ GemGrid.rows g' = GemGrid.rows g.
Proof.
  intros now g I g'.
  destruct (initializeGrid_cells (GemGrid.saveState now g)) as [A B].
  destruct (saveState_extent now g) as (Ec & Er & _).
  split; [reflexivity|]. split.
  - intros col row V. apply A. now rewrite isValidCell_saveState.
  - split.
    + intros key Hk. rewrite <- (saveState_colors now g). apply B.
      intros col row V. apply Hk. now rewrite <- (isValidCell_saveState now).
    + split; [now apply saveState_top|].
      split; [|split; [exact Ec | exact Er]].
      apply (invariant_fields (GemGrid.saveState now g));
        [reflexivity | reflexivity | now apply saveState_invariant].
Qed.

Lemma clearGrid_resets_witness :
  Js.get (GemGrid.gemColors (GemGrid.clearGrid 9 painted2x2)) (cellKey 1 1)
  = Some "#FFFFFF"%string
  /\ GemGrid.at_ (GemGrid.history (GemGrid.clearGrid 9 painted2x2))
                 (GemGrid.historyIndex (GemGrid.clearGrid 9 painted2x2))
     = Some (Spec.snapshotOf 9 painted2x2).
Proof.
  assert (I : Spec.historyInvariant painted2x2)
    by (unfold Spec.historyInvariant, Spec.len; cbn; lia).
  destruct (clearGrid_resets 9 painted2x2 I) as (_ & P & _ & Q & _).
  split; [apply P; reflexivity | exact Q].
Defined.

(* ================================================================== *)
(** ** Further properties: walking the history *)
(* ================================================================== *)

Section Walk.

Lemma record_eq (g : GemGrid.t) (m : Js.obj string) :
  GemGrid.gemColors g = m ->
  GemGrid.withColors
    (GemGrid.withHistory g (GemGrid.history g) (GemGrid.historyIndex g)) m = g.
Proof. intros <-. destruct g. reflexivity. Qed.

Lemma at_nonneg {A} (l : list A) i x :
  GemGrid.at_ l i = Some x -> 0 <= i < Z.of_nat (List.length l).
Proof.
  unfold GemGrid.at_. destruct (i <? 0) eqn:E; [discriminate|].
  apply Z.ltb_ge in E. intros H.
  assert (nth_error l (Z.to_nat i) <> None) by congruence.
  apply nth_error_Some in H0. lia.
Qed.

Lemma at_In {A} (l : list A) i x : GemGrid.at_ l i = Some x -> In x l.
Proof.
  unfold GemGrid.at_. destruct (i <? 0); [discriminate|].
  apply nth_error_In.
Qed.

End Walk.

(** X13. On a grid whose colours are those of the snapshot under the cursor
    (as after a snapshot, an undo or a redo), redo undoes undo and undo
    undoes redo: the grid comes back as it was. *)
Theorem undo_redo_round_trip :
  forall (g : GemGrid.t) (s : GemGrid.snapshot),
    Spec.historyInvariant g ->
    GemGrid.at_ (GemGrid.history g) (GemGrid.historyIndex g) = Some s ->
    GemGrid.gemColors g = GemGrid.snapGemColors s ->
    (0 < GemGrid.historyIndex g ->
     GemGrid.redo (stateOf (GemGrid.undo g)) = Normal g)
    /\ (GemGrid.historyIndex g < Spec.len g - 1 ->
        GemGrid.undo (stateOf (GemGrid.redo g)) = Normal g).
Proof.
  intros g s I A C. split.
  - intros P.
    destruct (proj2 (undo_spec g I) P) as (s1 & A1 & U). rewrite U.
    cbn [stateOf].
    set (g1 := GemGrid.withColors _ _).
    assert (I1 : Spec.historyInvariant g1).
    { destruct I as [I1 I2]. unfold Spec.historyInvariant, Spec.len in *.
      cbn. lia. }
    assert (L1 : GemGrid.historyIndex g1 < Spec.len g1 - 1).
    { destruct I as [I' I2]. unfold Spec.len in *. cbn. lia. }
    destruct (proj2 (redo_spec g1 I1) L1) as (s2 & A2 & R). rewrite R.
    f_equal. unfold g1 in A2 |- *. cbn in A2 |- *.
    replace (GemGrid.historyIndex g - 1 + 1) with (GemGrid.historyIndex g)
      in A2 |- * by lia.
    rewrite A in A2. inversion A2; subst s2.
    rewrite <- C. destruct g. reflexivity.
  - intros P.
    pose proof (at_nonneg _ _ _ A) as N.
    destruct (proj2 (redo_spec g I) P) as (s1 & A1 & U). rewrite U.
    cbn [stateOf].
    set (g1 := GemGrid.withColors _ _).
    assert (I1 : Spec.historyInvariant g1).
    { destruct I as [I1 I2]. unfold Spec.historyInvariant, Spec.len in *.
      cbn. lia. }
    assert (L1 : 0 < GemGrid.historyIndex g1) by (cbn; lia).
    destruct (proj2 (undo_spec g1 I1) L1) as (s2 & A2 & R). rewrite R.
    f_equal. unfold g1 in A2 |- *. cbn in A2 |- *.
    replace (GemGrid.historyIndex g + 1 - 1) with (GemGrid.historyIndex g)
      in A2 |- * by lia.
    rewrite A in A2. inversion A2; subst s2.
    rewrite <- C. destruct g. reflexivity.
Qed.

Lemma undo_redo_round_trip_witness :
  GemGrid.redo (stateOf (GemGrid.undo (GemGrid.saveState 3000 gemEdited2x2)))
  = Normal (GemGrid.saveState 3000 gemEdited2x2).
Proof.
  assert (I : Spec.historyInvariant (GemGrid.saveState 3000 gemEdited2x2))
    by (unfold Spec.historyInvariant, Spec.len; cbn; lia).
  destruct (undo_redo_round_trip
              (GemGrid.saveState 3000 gemEdited2x2)
              (Spec.snapshotOf 3000 gemEdited2x2) I eq_refl eq_refl) as [P _].
  apply P. cbn. lia.
Defined.

(** X14. Undo and redo never change the history stack or the extent, and
    whatever sequence of them is run, the colours shown afterwards are
    those of the grid before the sequence or those of the snapshot under
    the cursor: colours that were never saved cannot come back. *)
Theorem undo_redo_show_snapshots :
  forall (g : GemGrid.t) (ops : list Spec.op),
    Spec.historyInvariant g ->
    Forall (fun o => o = Spec.Undo \/ o = Spec.Redo) ops ->
    let g' := Spec.run ops g in
    GemGrid.history g' = GemGrid.history g
    /\ GemGrid.cols g' = GemGrid.cols g /\ GemGrid.rows g' = GemGrid.rows g
    /\ GemGrid.selectedCells g' = GemGrid.selectedCells g
    /\ (g' = g
        \/ exists s,
             GemGrid.at_ (GemGrid.history g) (GemGrid.historyIndex g') = Some s
             /\ In s (GemGrid.history g)
             /\ GemGrid.gemColors g' = GemGrid.snapGemColors s).
Proof.
  intros g ops I F. unfold Spec.run.
  rewrite <- (rev_involutive ops) in F |- *.
  apply Forall_rev in F. rewrite rev_involutive in F.
  induction (rev ops) as [|o l IH]; cbn [rev].
  - cbn. repeat split; auto.
  - inversion F as [|? ? Ho Fl]; subst.
    specialize (IH Fl). rewrite fold_left_app. cbn [fold_left].
    set (g1 := fold_left Spec.step (rev l) g) in *.
    assert (I1 : Spec.historyInvariant g1)
      by (apply (run_invariant (rev l) g I)).
    destruct IH as (Eh & Ec & Er & Es & Col).
    destruct Ho as [-> | ->]; cbn [Spec.step].
    + destruct (Z_le_gt_dec (GemGrid.historyIndex g1) 0) as [Le|Gt].
      * rewrite (proj1 (undo_spec g1 I1) Le). cbn [stateOf].
        repeat split; assumption.
      * destruct (proj2 (undo_spec g1 I1)) as (s & A & U); [lia|].
        rewrite U. cbn [stateOf]. cbn.
        split; [exact Eh|]. split; [exact Ec|]. split; [exact Er|].
        split; [exact Es|]. right. exists s. rewrite <- Eh.
        split; [exact A|]. split; [eapply at_In; exact A | reflexivity].
    + destruct (Z_le_gt_dec (Spec.len g1 - 1) (GemGrid.historyIndex g1))
        as [Le|Gt].
      * rewrite (proj1 (redo_spec g1 I1) Le). cbn [stateOf].
        repeat split; assumption.
      * destruct (proj2 (redo_spec g1 I1)) as (s & A & U); [lia|].
        rewrite U. cbn [stateOf]. cbn.
        split; [exact Eh|]. split; [exact Ec|]. split; [exact Er|].
        split; [exact Es|]. right. exists s. rewrite <- Eh.
        split; [exact A|]. split; [eapply at_In; exact A | reflexivity].
Qed.

Lemma undo_redo_show_snapshots_witness :
  GemGrid.history (Spec.run [Spec.Undo; Spec.Redo; Spec.Undo] gemEdited2x2)
  = GemGrid.history gemEdited2x2.
Proof.
  assert (I : Spec.historyInvariant gemEdited2x2)
    by (unfold Spec.historyInvariant, Spec.len; cbn; lia).
  destruct (undo_redo_show_snapshots
              gemEdited2x2 [Spec.Undo; Spec.Redo; Spec.Undo] I) as (P & _).
  - repeat (apply Forall_cons;
            [(left; reflexivity) || (right; reflexivity)|]).
    apply Forall_nil.
  - exact P.
Defined.

(** X15. Saving a grid and loading the result into any grid brings back the
    cells, but not the extent: the loaded grid has 64 columns and 40 rows
    when the saved extent has no zero, and keeps its own extent
    otherwise. The selection is emptied, and saving again gives the same
    cells. *)
Theorem saveToJSON_loadFromJSON :
  forall (now : Z) (g h : GemGrid.t),
    let h' := GemGrid.loadFromJSON now (Some (GemGrid.saveToJSON g)) h in
    GemGrid.gemColors h' = GemGrid.gemColors g
    /\ dataCells (GemGrid.saveToJSON h') = dataCells (GemGrid.saveToJSON g)
    /\ GemGrid.selectedCells h' = []
    /\ (GemGrid.cols g <> 0 /\ GemGrid.rows g <> 0 ->
        GemGrid.cols h' = 64 /\ GemGrid.rows h' = 40)
    /\ (GemGrid.cols g = 0 \/ GemGrid.rows g = 0 ->
        GemGrid.cols h' = GemGrid.cols h /\ GemGrid.rows h' = GemGrid.rows h).
Proof.
  intros now g h h'.
  unfold h', GemGrid.loadFromJSON, GemGrid.saveToJSON.
  cbn [dataCells dataCols dataRows truthyNum].
  set (t := negb (GemGrid.cols g =? 0) && negb (GemGrid.rows g =? 0)).
  cbv zeta.
  match goal with
  | |- context [GemGrid.saveState now ?x] =>
      destruct (saveState_extent now x) as (Ec & Er & Es);
      pose proof (saveState_colors now x) as Em
  end.
  rewrite Ec, Er, Es, Em. cbn [GemGrid.gemColors GemGrid.selectedCells
    GemGrid.withSelection GemGrid.withColors GemGrid.cols GemGrid.rows].
  split; [reflexivity|]. split; [reflexivity|]. split; [reflexivity|].
  clear Ec Er Es Em. subst t.
  destruct (Z.eqb_spec (GemGrid.cols g) 0) as [C0|C0];
    destruct (Z.eqb_spec (GemGrid.rows g) 0) as [R0|R0];
    cbn [negb andb]; cbn; split; intros H;
    solve [tauto | split; reflexivity].
Qed.

Lemma saveToJSON_loadFromJSON_witness :
  GemGrid.cols (GemGrid.loadFromJSON 1 (Some (GemGrid.saveToJSON painted2x2))
                                     grid2x2) = 64
  /\ GemGrid.rows (GemGrid.loadFromJSON 1 (Some (GemGrid.saveToJSON painted2x2))
                                        grid2x2) = 40.
Proof.
  destruct (saveToJSON_loadFromJSON 1 painted2x2 grid2x2) as (_ & _ & _ & P & _).
  apply P. split; discriminate.
Defined.

(* ================================================================== *)
(** ** Further properties: the colours kept by js/colorUtils2.js *)
(* ================================================================== *)

Section Darkest.

Lemma sorted_app_le {A} (R : A -> A -> Prop) (l1 l2 : list A) :
  StronglySorted R (l1 ++ l2) ->
  forall x y, In x l1 -> In y l2 -> R x y.
Proof.
  induction l1 as [|a l1 IH]; intros S x y Hx Hy; [destruct Hx|].
  cbn [app] in S. inversion S as [|? ? S' F]; subst.
  destruct Hx as [<-|Hx].
  - rewrite Forall_forall in F. apply F, in_or_app. now right.
  - now apply IH.
Qed.

(** The result of [reduceColors] is drawn from the base palette: the
    first [k] colours in ascending order of [r + g + b]. *)
Lemma reduceColors2_base colors k :
  1 <= k -> NoDup colors -> k < Z.of_nat (List.length colors) ->
  let sorted :=
    Js.sort (fun a b => ColorUtils2.value a - ColorUtils2.value b)
            (map ColorUtils2.toRgbColor colors) in
  let H := map ColorUtils2.hex (firstn (Z.to_nat k) sorted) in
  exists res, ColorUtils2.reduceColors colors k = Some res
              /\ List.length res = Z.to_nat k
              /\ NoDup res /\ incl res H
              /\ NoDup H /\ List.length H = Z.to_nat k.
Proof.
  intros Hk Hnd Hl sorted H. unfold ColorUtils2.reduceColors.
  destruct (Z.of_nat (List.length colors) <=? k) eqn:E;
    [apply Z.leb_le in E; lia|].
  fold sorted.
  assert (Ps : Permutation (map ColorUtils2.hex sorted) colors).
  { eapply perm_trans; [apply Permutation_map, sort_perm|].
    rewrite map_hex_toRgbColor. apply Permutation_refl. }
  rewrite !slice0_firstn by lia.
  set (K := Z.to_nat k) in *.
  set (base := firstn K sorted) in *.
  assert (HndH : NoDup H).
  { unfold H, base. rewrite <- firstn_map. apply NoDup_firstn_.
    eapply Permutation_NoDup; [apply Permutation_sym, Ps | exact Hnd]. }
  assert (HlH : List.length H = K).
  { unfold H, base. rewrite length_map, length_firstn.
    rewrite <- (length_map ColorUtils2.hex sorted),
      (Permutation_length Ps). lia. }
  destruct base as [|first rest] eqn:B.
  { unfold H in HlH. cbn in HlH. lia. }
  destruct (collect_spec k first rest colors [] (NoDup_nil _))
    as (u & Eu & Hndu & Hinu); [intros x []|].
  rewrite Eu. fold H in Hinu.
  cbv zeta. rewrite !slice0_firstn by lia. fold K.
  assert (Hndf : NoDup (firstn K u)) by now apply NoDup_firstn_.
  assert (Hinf : incl (firstn K u) H).
  { intros x Hx. apply Hinu.
    rewrite <- (firstn_skipn K u). apply in_app_iff. now left. }
  assert (Llf : (List.length (firstn K u) <= K)%nat)
    by (rewrite length_firstn; lia).
  destruct (Z.of_nat (List.length (firstn K u)) <? k) eqn:F;
    [apply Z.ltb_lt in F | apply Z.ltb_ge in F].
  - destruct (fill_spec K H HndH HlH (first :: rest) [] (firstn K u))
      as (L & N & I); try assumption.
    + reflexivity.
    + intros x [].
    + lia.
    + replace (Z.of_nat K) with k in L, N, I by (unfold K; lia).
      eexists. split; [reflexivity|].
      split; [exact L|]. split; [exact N|]. split; [exact I|].
      split; assumption.
  - eexists. split; [reflexivity|].
    split; [unfold K in *; lia|]. split; [exact Hndf|].
    split; [exact Hinf|]. split; assumption.
Qed.

End Darkest.

(** X16. When the input has more than [k] distinct colours, [reduceColors] of
    js/colorUtils2.js returns exactly the [k] colours of least
    [r + g + b]: [k] distinct input colours, a rearrangement of the first
    [k] in ascending order of that sum, so that no colour left out is
    darker than a colour returned. *)
Theorem reduceColors2_darkest :
  forall (colors : list string) (k : Z),
    1 <= k -> NoDup colors -> k < Z.of_nat (List.length colors) ->
    let sum := fun c => r (ColorUtils.hexToRgb c) + g (ColorUtils.hexToRgb c)
                        + b (ColorUtils.hexToRgb c) in
    exists res,
      ColorUtils2.reduceColors colors k = Some res
      /\ Z.of_nat (List.length res) = k
      /\ NoDup res
      /\ incl res colors
      /\ Permutation res
           (map ColorUtils2.hex
                (firstn (Z.to_nat k)
                        (Js.sort (fun a b => ColorUtils2.value a
                                             - ColorUtils2.value b)
                                 (map ColorUtils2.toRgbColor colors))))
      /\ (forall c c', In c res -> In c' colors -> ~ In c' res ->
                       sum c <= sum c').
Proof.
  intros colors k Hk Hnd Hl sum.
  destruct (reduceColors2_base colors k Hk Hnd Hl)
    as (res & E & L & N & I & NH & LH).
  set (sorted := Js.sort _ (map ColorUtils2.toRgbColor colors)) in *.
  set (K := Z.to_nat k) in *.
  assert (Ps : Permutation sorted (map ColorUtils2.toRgbColor colors))
    by apply sort_perm.
  assert (Pm : Permutation (map ColorUtils2.hex sorted) colors).
  { eapply perm_trans; [apply Permutation_map, Ps|].
    rewrite map_hex_toRgbColor. apply Permutation_refl. }
  assert (I' : incl (map ColorUtils2.hex (firstn K sorted)) res).
  { apply NoDup_length_incl; [exact N | lia | exact I]. }
  assert (Val : forall x, In x sorted -> ColorUtils2.value x = sum (ColorUtils2.hex x)).
  { intros x Hx. apply (Permutation_in _ Ps) in Hx.
    apply in_map_iff in Hx. destruct Hx as (c & <- & _). reflexivity. }
  assert (Srt : StronglySorted
                  (fun x y => ColorUtils2.value x <= ColorUtils2.value y) sorted).
  { apply sort_sorted.
    - intros x y. lia.
    - intros x y. lia.
    - intros x y z. lia. }
  exists res. split; [exact E|]. split; [lia|]. split; [exact N|].
  split.
  - intros x Hx. apply (Permutation_in _ Pm). apply I in Hx.
    rewrite <- firstn_map in Hx.
    rewrite <- (firstn_skipn K (map ColorUtils2.hex sorted)).
    apply in_app_iff. now left.
  - split.
    + apply NoDup_Permutation; [exact N | exact NH|].
      intros x. split; [apply I | apply I'].
    + intros c c' Hc Hc' Hn.
      apply I in Hc. apply in_map_iff in Hc. destruct Hc as (x & <- & Hx).
      apply (Permutation_in _ (Permutation_sym Pm)) in Hc'.
      apply in_map_iff in Hc'. destruct Hc' as (y & <- & Hy).
      rewrite <- (firstn_skipn K sorted) in Hy, Srt.
      apply in_app_iff in Hy. destruct Hy as [Hy|Hy].
      * exfalso. apply Hn, I'. now apply in_map.
      * rewrite <- !Val.
        -- apply (sorted_app_le _ _ _ Srt x y Hx Hy).
        -- rewrite <- (firstn_skipn K sorted). apply in_app_iff. now right.
        -- rewrite <- (firstn_skipn K sorted). apply in_app_iff. now left.
Qed.

Lemma reduceColors2_darkest_witness :
  exists res,
    ColorUtils2.reduceColors ["#FFFFFF"; "#000000"; "#080808"]%string 2 = Some res
    /\ Z.of_nat (List.length res) = 2
    /\ NoDup res
    /\ incl res ["#FFFFFF"; "#000000"; "#080808"]%string
    /\ Permutation res
         (map ColorUtils2.hex
              (firstn (Z.to_nat 2)
                      (Js.sort (fun a b => ColorUtils2.value a
                                           - ColorUtils2.value b)
                               (map ColorUtils2.toRgbColor
                                    ["#FFFFFF"; "#000000"; "#080808"]%string))))
    /\ (forall c c', In c res ->
                     In c' ["#FFFFFF"; "#000000"; "#080808"]%string ->
                     ~ In c' res ->
                     r (ColorUtils.hexToRgb c) + g (ColorUtils.hexToRgb c)
                     + b (ColorUtils.hexToRgb c)
                     <= r (ColorUtils.hexToRgb c') + g (ColorUtils.hexToRgb c')
                        + b (ColorUtils.hexToRgb c')).
Proof.
  apply (reduceColors2_darkest ["#FFFFFF"; "#000000"; "#080808"]%string 2).
  - lia.
  - repeat constructor; simpl; intuition discriminate.
  - simpl. lia.
Defined.

(* ================================================================== *)
(** ** Further properties: the colours returned by the refinement *)
(* ================================================================== *)

Section Gamut.

Lemma toRgb3_inGamut hex : Spec.inGamut (ColorUtils.toRgb3 hex).
Proof.
  unfold Spec.inGamut, ColorUtils.toRgb3. cbn [r g b].
  apply hexToRgb_channels.
Qed.

Lemma map_toRgb3_inGamut l : Forall Spec.inGamut (map ColorUtils.toRgb3 l).
Proof.
  apply Forall_forall. intros x Hx. apply in_map_iff in Hx.
  destruct Hx as (h & <- & _). apply toRgb3_inGamut.
Qed.

Lemma sumOf_bound (f : rgb -> Z) (l : list rgb) :
  (forall p, In p l -> 0 <= f p <= 255) ->
  0 <= Spec.sumOf f l <= 255 * Z.of_nat (List.length l).
Proof.
  induction l as [|x l IH]; intros H.
  - cbn. lia.
  - cbn [Spec.sumOf fold_right List.length].
    fold (Spec.sumOf f l).
    assert (0 <= f x <= 255) by (apply H; now left).
    assert (0 <= Spec.sumOf f l <= 255 * Z.of_nat (List.length l))
      by (apply IH; intros p Hp; apply H; now right).
    lia.
Qed.

Lemma rounded_mean_bound s n :
  0 < n -> 0 <= s <= 255 * n -> 0 <= (2 * s + n) / (2 * n) <= 255.
Proof.
  intros Hn Hs. split.
  - apply Z.div_pos; lia.
  - assert ((2 * s + n) / (2 * n) < 256); [|lia].
    apply Z.div_lt_upper_bound; lia.
Qed.

Lemma mean_inGamut l :
  l <> [] -> Forall Spec.inGamut l -> Spec.inGamut (Spec.mean l).
Proof.
  intros Hne F. rewrite Forall_forall in F.
  assert (Hn : 0 < Z.of_nat (List.length l))
    by (destruct l; [congruence | cbn [List.length]; lia]).
  unfold Spec.inGamut, Spec.mean, Spec.channel. cbn [r g b].
  split; [|split]; apply rounded_mean_bound; try exact Hn;
    apply sumOf_bound; intros p Hp; apply (F p Hp).
Qed.

Lemma members_inGamut pts a j :
  Forall Spec.inGamut pts -> Forall Spec.inGamut (Spec.members pts a j).
Proof.
  intros F. rewrite Forall_forall in *. intros x Hx.
  unfold Spec.members in Hx. apply in_map_iff in Hx.
  destruct Hx as ([p c] & <- & Hp). apply filter_In in Hp.
  destruct Hp as [Hp _]. apply in_combine_l in Hp. now apply F.
Qed.

Lemma recentre_inGamut pts a :
  Forall Spec.inGamut pts ->
  forall cs j, Forall Spec.inGamut cs ->
               Forall Spec.inGamut (Spec.recentre pts a j cs).
Proof.
  intros Fp. induction cs as [|c cs IH]; intros j Fc; cbn [Spec.recentre].
  - constructor.
  - inversion Fc as [|? ? Hc Fc']; subst. constructor; [|now apply IH].
    destruct (Spec.members pts a j) as [|m ms] eqn:M; [exact Hc|].
    apply mean_inGamut; [discriminate|].
    rewrite <- M. now apply members_inGamut.
Qed.

Lemma refine_inGamut pts :
  Forall Spec.inGamut pts ->
  forall n cs a its,
    Forall Spec.inGamut cs ->
    Forall Spec.inGamut (fst (Spec.refine n pts cs a its)).
Proof.
  intros Fp. induction n as [|n IH]; intros cs a its Fc; cbn [Spec.refine].
  - exact Fc.
  - destruct (Spec.sameAssignment a (map (Spec.nearest cs) pts)).
    + cbn [fst]. now apply recentre_inGamut.
    + apply IH. now apply recentre_inGamut.
Qed.

Lemma addOriginal_inGamut k l :
  forall cs, Forall Spec.inGamut cs ->
             Forall Spec.inGamut (ColorUtils.addOriginal k l cs).
Proof.
  induction l as [|c l IH]; intros cs F; cbn [ColorUtils.addOriginal].
  - exact F.
  - destruct (Z.of_nat (List.length cs) <? k); [|exact F].
    apply IH. destruct (ColorUtils.isDuplicate cs (ColorUtils.toRgb3 c));
      [exact F|].
    apply Forall_app. split; [exact F|].
    constructor; [apply toRgb3_inGamut | constructor].
Qed.

Lemma pushUntil_inGamut k l :
  Forall Spec.inGamut l ->
  forall cs, Forall Spec.inGamut cs ->
             Forall Spec.inGamut (ColorUtils.pushUntil k l cs).
Proof.
  induction l as [|x l IH]; intros Fl cs F; cbn [ColorUtils.pushUntil].
  - exact F.
  - inversion Fl as [|? ? Hx Fl']; subst.
    destruct (k <=? Z.of_nat (List.length cs)); [exact F|].
    apply IH; [exact Fl'|].
    apply Forall_app. split; [exact F | constructor; [exact Hx | constructor]].
Qed.

Lemma seedCentroids_inGamut w colors k pts :
  Forall Spec.inGamut pts ->
  Forall Spec.inGamut (ColorUtils.seedCentroids w colors k pts).
Proof.
  intros Fp. unfold ColorUtils.seedCentroids.
  set (first := map ColorUtils.toRgb3 _).
  assert (F0 : Forall Spec.inGamut first) by apply map_toRgb3_inGamut.
  destruct (Z.of_nat (List.length first) <? k); [|exact F0].
  set (second := match ColorUtils.colorPaletteOriginalImageColors w with
                 | Some _ => _ | None => _ end).
  assert (F1 : Forall Spec.inGamut second).
  { unfold second.
    destruct (ColorUtils.colorPaletteOriginalImageColors w) as [cc|];
      [|exact F0].
    destruct (Js.keys cc); [exact F0|]. now apply addOriginal_inGamut. }
  destruct (Z.of_nat (List.length second) <? k); [|exact F1].
  destruct (ColorUtils.originalImageColors w) as [[|h rest]|].
  - now apply pushUntil_inGamut.
  - apply pushUntil_inGamut; [apply map_toRgb3_inGamut | exact F1].
  - now apply pushUntil_inGamut.
Qed.

Lemma kmeans_result :
  forall (w : ColorUtils.window) (colors : list string) (k : Z),
    1 <= k -> k < Z.of_nat (List.length colors) -> Spec.noFirstPalette w ->
    exists (res : list string) (centroids : list rgb),
      fst (ColorUtils.reduceColors w colors k) = Some res
      /\ res = map Spec.hexOf centroids
      /\ (1 <= List.length res)%nat
      /\ Z.of_nat (List.length res) <= k
      /\ Forall Spec.inGamut centroids
      /\ Forall (fun c => Spec.isCanonical c = true) res
      /\ map ColorUtils.hexToRgb res = centroids.
Proof.
  intros w colors k Hk Hl Hno.
  destruct (reduceColors_kmeans w colors k Hk Hl Hno) as (E & _ & L).
  set (points := map ColorUtils.toRgb3 (Spec.pointsOf w colors)) in *.
  set (seeds := ColorUtils.seedCentroids w colors k points) in *.
  set (result := Spec.refine 50 points seeds _ 0) in *.
  assert (Hne : colors <> [])
    by (destruct colors; [cbn in Hl; lia | discriminate]).
  destruct (seedCentroids_length w colors k points Hk Hne) as [S1 S2].
  fold seeds in S1, S2.
  assert (Fp : Forall Spec.inGamut points) by apply map_toRgb3_inGamut.
  assert (Fs : Forall Spec.inGamut seeds)
    by now apply seedCentroids_inGamut.
  assert (Fr : Forall Spec.inGamut (fst result))
    by now apply refine_inGamut.
  exists (map Spec.hexOf (fst result)), (fst result).
  split; [exact E|]. split; [reflexivity|].
  rewrite length_map, L.
  split; [exact S1|]. split; [exact S2|]. split; [exact Fr|].
  split.
  - apply Forall_forall. intros c Hc. apply in_map_iff in Hc.
    destruct Hc as (p & <- & Hp).
    rewrite Forall_forall in Fr. destruct (Fr p Hp) as (Cr & Cg & Cb).
    apply (rgbToHex_canonical _ _ _ Cr Cg Cb).
  - rewrite map_map. rewrite <- (map_id (fst result)) at 2.
    apply map_ext_in. intros p Hp.
    rewrite Forall_forall in Fr. destruct (Fr p Hp) as (Cr & Cg & Cb).
    unfold Spec.hexOf.
    rewrite (proj2 (rgbToHex_canonical _ _ _ Cr Cg Cb)).
    destruct p. reflexivity.
Qed.

End Gamut.


(** X17. When no first-image palette is recorded and the input has more than
    [k] colours, the k-means revision of [reduceColors] returns at least
    one and at most [k] colours, each a canonical colour text ([#] and six
    upper-case hex digits): the channels of the centroids never leave
    0..255, and each returned text reads back as the channels of its
    centroid. *)
Theorem reduceColors_kmeans_canonical :
  forall (w : ColorUtils.window) (colors : list string) (k : Z),
    1 <= k -> k < Z.of_nat (List.length colors) -> Spec.noFirstPalette w ->
    exists (res : list string) (centroids : list rgb),
      fst (ColorUtils.reduceColors w colors k) = Some res
      /\ res = map Spec.hexOf centroids
      /\ (1 <= List.length res)%nat
      /\ Z.of_nat (List.length res) <= k
      /\ Forall Spec.inGamut centroids
      /\ Forall (fun c => Spec.isCanonical c = true) res
      /\ map ColorUtils.hexToRgb res = centroids.
Proof. exact kmeans_result. Qed.

Lemma reduceColors_kmeans_canonical_witness :
  exists (res : list string) (centroids : list rgb),
    fst (ColorUtils.reduceColors noImage threeColors 2) = Some res
    /\ res = map Spec.hexOf centroids
    /\ (1 <= List.length res)%nat
    /\ Z.of_nat (List.length res) <= 2
    /\ Forall Spec.inGamut centroids
    /\ Forall (fun c => Spec.isCanonical c = true) res
    /\ map ColorUtils.hexToRgb res = centroids.
Proof.
  apply (reduceColors_kmeans_canonical noImage threeColors 2).
  - lia.
  - cbn. lia.
  - exact I.
Defined.

(* ================================================================== *)
(** ** Further properties: the palette of ten colours *)
(* ================================================================== *)

Section Palette.

Lemma ensureTen_shape (l : list string) :
  ColorPalette.ensureTen l
  = firstn 10 l ++ repeat ColorPalette.defaultWhite (10 - List.length l).
Proof.
  unfold ColorPalette.ensureTen.
  destruct (Nat.le_gt_cases (List.length l) 10) as [Le|Gt].
  - assert (E : (10 <? List.length
                          (l ++ repeat ColorPalette.defaultWhite
                                       (10 - List.length l)))%nat = false).
    { apply Nat.ltb_ge. rewrite length_app, repeat_length. lia. }
    rewrite E. now rewrite firstn_all2 by exact Le.
  - replace (10 - List.length l)%nat with 0%nat by lia.
    cbn [repeat]. rewrite !app_nil_r.
    assert (E : (10 <? List.length l)%nat = true) by (apply Nat.ltb_lt; lia).
    rewrite E. now rewrite slice0_firstn by lia.
Qed.

Lemma ensureTen_length (l : list string) :
  List.length (ColorPalette.ensureTen l) = 10%nat.
Proof.
  rewrite ensureTen_shape, length_app, length_firstn, repeat_length. lia.
Qed.

Lemma ensureTen_canonical (l : list string) :
  Forall (fun c => Spec.isCanonical c = true) l ->
  Forall (fun c => Spec.isCanonical c = true) (ColorPalette.ensureTen l).
Proof.
  intros F. rewrite ensureTen_shape. apply Forall_app. split.
  - rewrite Forall_forall in *. intros x Hx. apply F.
    rewrite <- (firstn_skipn 10 l). apply in_app_iff. now left.
  - apply Forall_forall. intros x Hx. apply repeat_spec in Hx.
    now subst x.
Qed.

Lemma upperHex_fixed c :
  Spec.isUpperHexDigit c = true -> Js.upperChar c = c.
Proof.
  intros H.
  destruct c as [[] [] [] [] [] [] [] []]; try discriminate H; reflexivity.
Qed.

Lemma normalizeHex_fixes_canonical c :
  Spec.isCanonical c = true ->
  ColorUtils.normalizeHex c = c /\ ColorUtils.isValidHex c = true.
Proof.
  intros C.
  assert (N : ColorUtils.normalizeHex c = c).
  { revert C. unfold Spec.isCanonical.
    destruct c as [|h c]; [discriminate|].
    destruct h as [[] [] [] [] [] [] [] []]; try discriminate.
    destruct c as [|c5 [|c4 [|c3 [|c2 [|c1 [|c0 [|x c]]]]]]]; try discriminate.
    intros C. repeat (apply andb_prop in C; destruct C as [C ?]).
    unfold ColorUtils.normalizeHex. cbn [Js.toUpperCase].
    rewrite (upperHex_fixed c5), (upperHex_fixed c4), (upperHex_fixed c3),
      (upperHex_fixed c2), (upperHex_fixed c1), (upperHex_fixed c0)
      by assumption.
    reflexivity. }
  split; [exact N|].
  apply canonical_only_valid. now rewrite N.
Qed.

Lemma filter_all {A} (f : A -> bool) (l : list A) :
  Forall (fun x => f x = true) l -> filter f l = l.
Proof.
  induction 1 as [|x l Hx F IH]; [reflexivity|].
  cbn [filter]. now rewrite Hx, IH.
Qed.

End Palette.

Section PaletteFile.

Lemma normalizeAll_texts (texts : list string) :
  ColorPalette.normalizeAll (map ColorPalette.Text texts)
  = Some (map ColorUtils.normalizeHex texts).
Proof.
  induction texts as [|t texts IH]; [reflexivity|].
  cbn [map ColorPalette.normalizeAll]. now rewrite IH.
Qed.

Lemma filterValid_texts (entries : list ColorPalette.fileEntry) :
  existsb Spec.importAborts entries = false ->
  ColorPalette.filterValid entries
  = Some (map ColorPalette.Text
              (filter ColorUtils.isValidHex (Spec.importTexts entries))).
Proof.
  induction entries as [|e entries IH]; [reflexivity|].
  cbn [existsb]. intros H. apply orb_false_elim in H. destruct H as [A R].
  cbn [ColorPalette.filterValid]. rewrite (IH R).
  destruct e as [s|[text|]]; cbn [Spec.importAborts] in A;
    cbn [ColorPalette.entryValid Spec.importTexts filter]; try discriminate A.
  - now destruct (ColorUtils.isValidHex s).
  - now rewrite A.
Qed.

Lemma filterValid_aborts (entries : list ColorPalette.fileEntry) :
  existsb Spec.importAborts entries = true ->
  match ColorPalette.filterValid entries with
  | Some kept => ColorPalette.normalizeAll kept = None
  | None => True
  end.
Proof.
  induction entries as [|e entries IH]; [discriminate|].
  cbn [existsb ColorPalette.filterValid]. intros H.
  destruct e as [s|[text|]];
    cbn [Spec.importAborts ColorPalette.entryValid] in *.
  - cbn [orb] in H. specialize (IH H).
    destruct (ColorPalette.filterValid entries) as [kept|]; [|exact I].
    destruct (ColorUtils.isValidHex s); [|exact IH].
    cbn [ColorPalette.normalizeAll]. now rewrite IH.
  - destruct (ColorUtils.isValidHex text) eqn:V.
    + destruct (ColorPalette.filterValid entries) as [kept|]; [|exact I].
      reflexivity.
    + cbn [orb] in H. specialize (IH H).
      destruct (ColorPalette.filterValid entries) as [kept|]; [|exact I].
      exact IH.
  - exact I.
Qed.

Lemma import_aborted (entries : list ColorPalette.fileEntry)
      (colors : list string) :
  existsb Spec.importAborts entries = true ->
  ColorPalette.handlePaletteFileSelect (Some entries) colors = colors.
Proof.
  intros H. pose proof (filterValid_aborts entries H) as A.
  unfold ColorPalette.handlePaletteFileSelect.
  destruct entries as [|c cs]; [reflexivity|].
  destruct (ColorPalette.filterValid (c :: cs)) as [[|v vs]|];
    try reflexivity.
  now rewrite A.
Qed.

Lemma import_texts (entries : list ColorPalette.fileEntry)
      (colors : list string) :
  existsb Spec.importAborts entries = false ->
  ColorPalette.handlePaletteFileSelect (Some entries) colors
  = match filter ColorUtils.isValidHex (Spec.importTexts entries) with
    | [] => colors
    | valid => ColorPalette.ensureTen (map ColorUtils.normalizeHex valid)
    end.
Proof.
  intros H. pose proof (filterValid_texts entries H) as F.
  unfold ColorPalette.handlePaletteFileSelect.
  destruct entries as [|c cs]; [reflexivity|].
  rewrite F.
  destruct (filter ColorUtils.isValidHex (Spec.importTexts (c :: cs)))
    as [|v vs]; [reflexivity|].
  pose proof (normalizeAll_texts (v :: vs)) as N.
  cbn [map] in N |- *. now rewrite N.
Qed.

End PaletteFile.

(** X18. The palette always ends with exactly ten entries: [createPaletteUI]
    keeps the first ten colours and pads with white, and changes nothing
    on a palette of ten. An entry of a palette file is a text or a value
    of another kind. When no entry of another kind passes (or breaks) the
    test of [isValidHex], importing keeps the texts that [isValidHex]
    accepts, in their order and normalised, so every entry of the
    imported palette is a canonical colour text. A file without an array
    of colours, or with no valid entry, leaves the palette as it was; so
    does a file with an entry that is no text and that [isValidHex]
    accepts after conversion (the number 123) or cannot convert:
    [normalizeHex] throws on it and the handler catches the exception
    before the palette is assigned. Importing the file exported from a
    palette of ten canonical colours gives that palette back. *)
Theorem handlePaletteFileSelect_palette :
  forall (file : option (list ColorPalette.fileEntry)) (colors : list string),
    let entries := match file with Some l => l | None => [] end in
    let valid := filter ColorUtils.isValidHex (Spec.importTexts entries) in
    let res := ColorPalette.handlePaletteFileSelect file colors in
    (valid = [] -> res = colors)
    /\ (existsb Spec.importAborts entries = true -> res = colors)
    /\ (existsb Spec.importAborts entries = false -> valid <> [] ->
        res = firstn 10 (map ColorUtils.normalizeHex valid)
              ++ repeat "#FFFFFF"%string (10 - List.length valid)
        /\ List.length res = 10%nat
        /\ Forall (fun c => Spec.isCanonical c = true) res)
    /\ List.length (ColorPalette.ensureTen colors) = 10%nat
    /\ (List.length colors = 10%nat -> ColorPalette.ensureTen colors = colors)
    /\ ColorPalette.ensureTen (ColorPalette.ensureTen colors)
       = ColorPalette.ensureTen colors
    /\ (List.length colors = 10%nat ->
        Forall (fun c => Spec.isCanonical c = true) colors ->
        forall other,
          ColorPalette.handlePaletteFileSelect
            (ColorPalette.exportPalette colors) other = colors).
Proof.
  intros file colors entries valid res.
  assert (Id : forall l : list string,
             List.length l = 10%nat -> ColorPalette.ensureTen l = l).
  { intros l L. rewrite ensureTen_shape, L. cbn [Nat.sub repeat].
    rewrite app_nil_r. apply firstn_all2. lia. }
  assert (Ab : existsb Spec.importAborts entries = true -> res = colors).
  { intros A. unfold res. destruct file as [l|]; [|reflexivity].
    now apply import_aborted. }
  split; [|split; [exact Ab|split; [|split; [|split; [|split]]]]].
  - intros E.
    destruct (existsb Spec.importAborts entries) eqn:A; [now apply Ab|].
    unfold res. destruct file as [l|]; [|reflexivity].
    rewrite (import_texts l colors A).
    change (filter ColorUtils.isValidHex (Spec.importTexts l)) with valid.
    now rewrite E.
  - intros A Ne. unfold res.
    destruct file as [l|]; [|exfalso; apply Ne; reflexivity].
    rewrite (import_texts l colors A).
    change (filter ColorUtils.isValidHex (Spec.importTexts l)) with valid.
    destruct valid as [|v vs] eqn:V; [congruence|].
    rewrite <- V in *.
    assert (R : ColorPalette.ensureTen (map ColorUtils.normalizeHex valid)
                = firstn 10 (map ColorUtils.normalizeHex valid)
                  ++ repeat "#FFFFFF"%string (10 - List.length valid)).
    { rewrite ensureTen_shape, length_map. reflexivity. }
    rewrite R at 1. split; [reflexivity|].
    split; [apply ensureTen_length|].
    apply ensureTen_canonical. apply Forall_forall. intros x Hx.
    apply in_map_iff in Hx. destruct Hx as (y & <- & Hy).
    unfold valid in Hy. apply filter_In in Hy.
    apply (normalizeHex_valid y (proj2 Hy)).
  - apply ensureTen_length.
  - apply Id.
  - apply Id, ensureTen_length.
  - intros L C other.
    assert (Fv : filter ColorUtils.isValidHex colors = colors).
    { apply filter_all. rewrite Forall_forall in *. intros x Hx.
      apply (normalizeHex_fixes_canonical x (C x Hx)). }
    assert (Mn : map ColorUtils.normalizeHex colors = colors).
    { rewrite <- (map_id colors) at 2. apply map_ext_in. intros x Hx.
      rewrite Forall_forall in C.
      apply (normalizeHex_fixes_canonical x (C x Hx)). }
    assert (T : Spec.importTexts (map ColorPalette.Text colors) = colors).
    { clear. induction colors as [|c cs IH]; [reflexivity|].
      cbn [map Spec.importTexts]. now rewrite IH. }
    assert (A : existsb Spec.importAborts (map ColorPalette.Text colors)
                = false).
    { clear. induction colors as [|c cs IH]; [reflexivity|].
      cbn [map existsb Spec.importAborts orb]. exact IH. }
    clear valid res Ab.
    unfold ColorPalette.exportPalette.
    rewrite (import_texts _ other A), T, Fv.
    destruct colors as [|c cs]; [discriminate L|].
    rewrite Mn. now apply Id.
Qed.

Lemma handlePaletteFileSelect_palette_witness :
  (ColorPalette.handlePaletteFileSelect
     (Some [ColorPalette.Text "red"; ColorPalette.Text "#0f0";
            ColorPalette.Other (Some "1.5"); ColorPalette.Other None;
            ColorPalette.Text "abcdef"]%string) ["#000000"%string]
   = ["#000000"%string])
  /\ (ColorPalette.handlePaletteFileSelect
        (Some [ColorPalette.Text "#0f0"; ColorPalette.Other (Some "123")]%string)
        ["#000000"%string]
      = ["#000000"%string])
  /\ ColorPalette.handlePaletteFileSelect
       (Some [ColorPalette.Text "red"; ColorPalette.Text "#0f0";
              ColorPalette.Other (Some "null"); ColorPalette.Text "abcdef"]%string)
       ["#000000"%string]
     = firstn 10 (map ColorUtils.normalizeHex ["#0f0"; "abcdef"]%string)
       ++ repeat "#FFFFFF"%string (10 - 2).
Proof.
  split; [|split].
  - destruct (handlePaletteFileSelect_palette
                (Some [ColorPalette.Text "red"; ColorPalette.Text "#0f0";
                       ColorPalette.Other (Some "1.5");
                       ColorPalette.Other None;
                       ColorPalette.Text "abcdef"]%string)
                ["#000000"%string]) as (_ & P & _).
    apply P. reflexivity.
  - destruct (handlePaletteFileSelect_palette
                (Some [ColorPalette.Text "#0f0";
                       ColorPalette.Other (Some "123")]%string)
                ["#000000"%string]) as (_ & P & _).
    apply P. reflexivity.
  - destruct (handlePaletteFileSelect_palette
                (Some [ColorPalette.Text "red"; ColorPalette.Text "#0f0";
                       ColorPalette.Other (Some "null");
                       ColorPalette.Text "abcdef"]%string)
                ["#000000"%string]) as (_ & _ & P & _).
    destruct P as (P & _); [reflexivity|discriminate|]. exact P.
Defined.

(* ================================================================== *)
(** ** Further properties: reducing the colours of the grid *)
(* ================================================================== *)

Section Reduction.

Lemma tabulate_get {V} (f : string -> V) (ks : list string) :
  forall (m : Js.obj V) (key : string),
    Js.get (fold_left (fun m k => Js.set m k (f k)) ks m) key
    = if in_dec string_dec key ks then Some (f key) else Js.get m key.
Proof.
  induction ks as [|k ks IH]; intros m key; [reflexivity|].
  cbn [fold_left]. rewrite IH.
  destruct (in_dec string_dec key ks) as [I|N];
    destruct (in_dec string_dec key (k :: ks)) as [I'|N']; try reflexivity.
  - exfalso. apply N'. now right.
  - destruct I' as [->|I']; [apply get_set_same | contradiction].
  - apply get_set_other. intros ->. apply N'. now left.
Qed.

Lemma buildColorMap_get gridColors reducedColors old :
  In old gridColors ->
  Js.get (Session.buildColorMap gridColors reducedColors) old
  = Some (match ColorUtils.findClosestColor old reducedColors with
          | Some c => c
          | None => EmptyString
          end).
Proof.
  intros I. unfold Session.buildColorMap.
  rewrite (tabulate_get
             (fun old => match ColorUtils.findClosestColor old reducedColors with
                         | Some c => c
                         | None => EmptyString
                         end)).
  destruct (in_dec string_dec old gridColors); [reflexivity | contradiction].
Qed.

Lemma remapCell_keys colorMap m key :
  map fst (GemGrid.remapCell colorMap m key) = map fst m.
Proof.
  unfold GemGrid.remapCell.
  destruct (Js.get m key) as [old|] eqn:G; [|reflexivity].
  destruct (Js.get colorMap old) as [new|]; [|reflexivity].
  destruct (truthyStr new); [|reflexivity].
  apply (set_keys_present m key new old G).
Qed.

Lemma remapAll_keys colorMap ks :
  forall m, map fst (fold_left (GemGrid.remapCell colorMap) ks m) = map fst m.
Proof.
  induction ks as [|k ks IH]; intros m; [reflexivity|].
  cbn [fold_left]. now rewrite IH, remapCell_keys.
Qed.

Lemma applyColorMapping_get now colorMap g key :
  Spec.wellFormed (GemGrid.gemColors g) ->
  Js.get (GemGrid.gemColors (GemGrid.applyColorMapping now colorMap g)) key
  = option_map (Spec.remap colorMap) (Js.get (GemGrid.gemColors g) key).
Proof.
  intros W. rewrite applyColorMapping_colors, visit_all_get.
  2:{ eapply Permutation_NoDup; [apply Permutation_sym, keys_perm | exact W]. }
  destruct (in_dec string_dec key (Js.keys (GemGrid.gemColors g))) as [I|N];
    [reflexivity|].
  assert (G : Js.get (GemGrid.gemColors g) key = None).
  { apply get_None_notin. intros I. apply N.
    eapply Permutation_in; [apply Permutation_sym, keys_perm | exact I]. }
  now rewrite G.
Qed.

Lemma applyColorMapping_wellFormed now colorMap g :
  Spec.wellFormed (GemGrid.gemColors g) ->
  Spec.wellFormed (GemGrid.gemColors (GemGrid.applyColorMapping now colorMap g)).
Proof.
  unfold Spec.wellFormed. intros W.
  now rewrite applyColorMapping_colors, remapAll_keys.
Qed.

Lemma values_In {V} (o : Js.obj V) (v : V) :
  In v (Js.values o) <-> exists key, In (key, v) o.
Proof.
  unfold Js.values. rewrite in_map_iff. split.
  - intros ([key v'] & E & I). cbn in E. subst v'. exists key.
    eapply Permutation_in; [apply entries_perm | exact I].
  - intros (key & I). exists (key, v). split; [reflexivity|].
    eapply Permutation_in; [apply Permutation_sym, entries_perm | exact I].
Qed.

Lemma getAllColors_In g c :
  In c (GemGrid.getAllColors g) <-> exists key, In (key, c) (GemGrid.gemColors g).
Proof.
  destruct (seen_fold (Js.values (GemGrid.gemColors g)) [] (NoDup_nil _))
    as [_ M].
  unfold GemGrid.getAllColors. rewrite M, <- values_In. cbn [In]. tauto.
Qed.

Lemma getAllColors_NoDup g : NoDup (GemGrid.getAllColors g).
Proof.
  apply (seen_fold (Js.values (GemGrid.gemColors g)) [] (NoDup_nil _)).
Qed.

Lemma canonical_truthy c : Spec.isCanonical c = true -> truthyStr c = true.
Proof. destruct c; [discriminate | reflexivity]. Qed.

(** Recolouring every cell to the closest entry of a list of non-empty
    colour texts. *)
Lemma recolour_spec now g reduced :
  Spec.historyInvariant g ->
  Spec.wellFormed (GemGrid.gemColors g) ->
  reduced <> [] ->
  Forall (fun c => truthyStr c = true) reduced ->
  let g' := GemGrid.applyColorMapping
              now (Session.buildColorMap (GemGrid.getAllColors g) reduced) g in
  (forall key,
      Js.get (GemGrid.gemColors g') key
      = match Js.get (GemGrid.gemColors g) key with
        | Some old => ColorUtils.findClosestColor old reduced
        | None => None
        end)
  /\ (forall key c, Js.get (GemGrid.gemColors g') key = Some c -> In c reduced)
  /\ (List.length (GemGrid.getAllColors g') <= List.length reduced)%nat
  /\ GemGrid.at_ (GemGrid.history g') (GemGrid.historyIndex g')
     = Some (Spec.snapshotOf now g).
Proof.
  intros I W Ne T g'.
  assert (G : forall key,
             Js.get (GemGrid.gemColors g') key
             = match Js.get (GemGrid.gemColors g) key with
               | Some old => ColorUtils.findClosestColor old reduced
               | None => None
               end).
  { intros key. unfold g'.
    rewrite applyColorMapping_get by exact W.
    destruct (Js.get (GemGrid.gemColors g) key) as [old|] eqn:Go;
      [|reflexivity].
    cbn [option_map]. unfold Spec.remap.
    assert (Io : In old (GemGrid.getAllColors g)).
    { apply getAllColors_In. exists key. now apply get_In. }
    rewrite (buildColorMap_get _ reduced old Io).
    destruct (findClosestColor_member old reduced Ne) as (c & Ec & Ic).
    rewrite Ec. rewrite Forall_forall in T. now rewrite (T c Ic). }
  assert (M : forall key c,
             Js.get (GemGrid.gemColors g') key = Some c -> In c reduced).
  { intros key c H. rewrite G in H.
    destruct (Js.get (GemGrid.gemColors g) key) as [old|]; [|discriminate].
    destruct (findClosestColor_member old reduced Ne) as (c' & Ec & Ic).
    rewrite Ec in H. inversion H; subst. exact Ic. }
  split; [exact G|]. split; [exact M|]. split.
  - apply NoDup_incl_length; [apply getAllColors_NoDup|].
    intros c Hc. apply getAllColors_In in Hc. destruct Hc as (key & Hin).
    apply (M key). apply In_get; [|exact Hin].
    unfold g'. now apply applyColorMapping_wellFormed.
  - unfold g', GemGrid.applyColorMapping, GemGrid.withColors.
    cbn [GemGrid.history GemGrid.historyIndex].
    now apply saveState_top.
Qed.

(** What [applyColorReduction] does once [reduceColors] has returned. *)
Lemma reduction_spec now k s reduced w' :
  Spec.historyInvariant (Session.grid s) ->
  Spec.wellFormed (GemGrid.gemColors (Session.grid s)) ->
  1 <= k ->
  k < Z.of_nat (List.length (GemGrid.getAllColors (Session.grid s))) ->
  ColorUtils.reduceColors (Session.window s)
                          (GemGrid.getAllColors (Session.grid s)) k
  = (Some reduced, w') ->
  reduced <> [] ->
  Forall (fun c => truthyStr c = true) reduced ->
  let s' := Session.applyColorReduction now (Some k) s in
  (forall key,
      Js.get (GemGrid.gemColors (Session.grid s')) key
      = match Js.get (GemGrid.gemColors (Session.grid s)) key with
        | Some old => ColorUtils.findClosestColor old reduced
        | None => None
        end)
  /\ (forall key c, Js.get (GemGrid.gemColors (Session.grid s')) key = Some c ->
                    In c reduced)
  /\ (List.length (GemGrid.getAllColors (Session.grid s'))
      <= List.length reduced)%nat
  /\ Session.colors s' = ColorPalette.ensureTen reduced
  /\ Session.window s' = w'
  /\ GemGrid.at_ (GemGrid.history (Session.grid s'))
                 (GemGrid.historyIndex (Session.grid s'))
     = Some (Spec.snapshotOf now (Session.grid s)).
Proof.
  intros I W Hk Hl R Ne T s'.
  assert (E : s' = {| Session.grid :=
                        GemGrid.applyColorMapping
                          now
                          (Session.buildColorMap
                             (GemGrid.getAllColors (Session.grid s)) reduced)
                          (Session.grid s);
                      Session.colors := ColorPalette.ensureTen reduced;
                      Session.fullPalette := Session.fullPalette s;
                      Session.window := w' |}).
  { unfold s', Session.applyColorReduction.
    assert (E1 : (k <? 1) = false) by (apply Z.ltb_ge; lia).
    assert (E2 : (Z.of_nat (List.length (GemGrid.getAllColors (Session.grid s)))
                  <=? k) = false) by (apply Z.leb_gt; lia).
    rewrite E1. cbv zeta. rewrite E2, R. reflexivity. }
  destruct (recolour_spec now (Session.grid s) reduced I W Ne T)
    as (G & M & L & A).
  rewrite E. cbn [Session.grid Session.colors Session.window].
  split; [exact G|]. split; [exact M|]. split; [exact L|].
  split; [reflexivity|]. split; [reflexivity | exact A].
Qed.

(** The same handler with [ColorUtils] of js/colorUtils2.js. *)
Lemma reduction2_unfold now k s reduced :
  1 <= k ->
  k < Z.of_nat (List.length (GemGrid.getAllColors (Session.grid s))) ->
  ColorUtils2.reduceColors (GemGrid.getAllColors (Session.grid s)) k
  = Some reduced ->
  Session.applyColorReduction2 now (Some k) s
  = {| Session.grid :=
         GemGrid.applyColorMapping
           now
           (Session.buildColorMap (GemGrid.getAllColors (Session.grid s)) reduced)
           (Session.grid s);
       Session.colors := ColorPalette.ensureTen reduced;
       Session.fullPalette := Session.fullPalette s;
       Session.window := Session.window s |}.
Proof.
  intros Hk Hl R. unfold Session.applyColorReduction2.
  assert (E1 : (k <? 1) = false) by (apply Z.ltb_ge; lia).
  assert (E2 : (Z.of_nat (List.length (GemGrid.getAllColors (Session.grid s)))
                <=? k) = false) by (apply Z.leb_gt; lia).
  rewrite E1. cbv zeta. rewrite E2, R.
  assert (Em : fold_left
                 (fun (colorMap : Js.obj string) (oldColor : string) =>
                    Js.set colorMap oldColor
                           match ColorUtils2.findClosestColor oldColor reduced with
                           | Some c => c
                           | None => EmptyString
                           end)
                 (GemGrid.getAllColors (Session.grid s)) []
               = Session.buildColorMap (GemGrid.getAllColors (Session.grid s))
                                       reduced).
  { unfold Session.buildColorMap.
    apply fold_left_ext. intros m old. now rewrite findClosestColor_agree. }
  now rewrite Em.
Qed.

End Reduction.

(** X19. On a grid whose cell colours all begin with [#],
    [applyColorReduction] leaves everything as it is when the target is
    not a number, is below 1, or is not below the number of colours on
    the grid. Otherwise, once [reduceColors] has returned a list of
    non-empty colour texts, every cell is recoloured to the entry of that
    list closest to its colour, so the grid then shows at most as many
    colours as the list has; the colours before the reduction are on top
    of the history and the palette is the list cut or padded to ten. With
    no first-image palette recorded the grid shows at most [k] colours
    afterwards, all of them canonical colour texts. *)
Theorem applyColorReduction_recolours :
  forall (now : Z) (s : Session.t),
    Spec.historyInvariant (Session.grid s) ->
    Spec.wellFormed (GemGrid.gemColors (Session.grid s)) ->
    Forall (fun color => Spec.beginsWithHash color = true)
           (Js.values (GemGrid.gemColors (Session.grid s))) ->
    let used := GemGrid.getAllColors (Session.grid s) in
    Session.applyColorReduction now None s = s
    /\ (forall k, k < 1 \/ Z.of_nat (List.length used) <= k ->
                  Session.applyColorReduction now (Some k) s = s)
    /\ (forall k reduced w',
           1 <= k -> k < Z.of_nat (List.length used) ->
           ColorUtils.reduceColors (Session.window s) used k
           = (Some reduced, w') ->
           reduced <> [] ->
           Forall (fun c => truthyStr c = true) reduced ->
           let s' := Session.applyColorReduction now (Some k) s in
           (forall key,
               Js.get (GemGrid.gemColors (Session.grid s')) key
               = match Js.get (GemGrid.gemColors (Session.grid s)) key with
                 | Some old => ColorUtils.findClosestColor old reduced
                 | None => None
                 end)
           /\ (List.length (GemGrid.getAllColors (Session.grid s'))
               <= List.length reduced)%nat
           /\ Session.colors s' = ColorPalette.ensureTen reduced
           /\ GemGrid.at_ (GemGrid.history (Session.grid s'))
                          (GemGrid.historyIndex (Session.grid s'))
              = Some (Spec.snapshotOf now (Session.grid s)))
    /\ (forall k,
           1 <= k -> k < Z.of_nat (List.length used) ->
           Spec.noFirstPalette (Session.window s) ->
           let s' := Session.applyColorReduction now (Some k) s in
           Z.of_nat (List.length (GemGrid.getAllColors (Session.grid s'))) <= k
           /\ (forall key c,
                  Js.get (GemGrid.gemColors (Session.grid s')) key = Some c ->
                  Spec.isCanonical c = true)).
Proof.
  intros now s I W _ used. split; [reflexivity|]. split; [|split].
  - intros k [Lt|Ge]; unfold Session.applyColorReduction.
    + assert (E : (k <? 1) = true) by (apply Z.ltb_lt; lia). now rewrite E.
    + destruct (k <? 1); [reflexivity|]. cbv zeta. fold used.
      assert (E : (Z.of_nat (List.length used) <=? k) = true)
        by (apply Z.leb_le; lia).
      now rewrite E.
  - intros k reduced w' Hk Hl R Ne T s'.
    destruct (reduction_spec now k s reduced w' I W Hk Hl R Ne T)
      as (G & _ & L & C & _ & A).
    split; [exact G|]. split; [exact L|]. split; [exact C | exact A].
  - intros k Hk Hl Hno s'.
    destruct (kmeans_result (Session.window s) used k Hk Hl Hno)
      as (reduced & cs & E & _ & L1 & L2 & _ & Can & _).
    destruct (ColorUtils.reduceColors (Session.window s) used k)
      as [o w'] eqn:R.
    cbn [fst] in E. subst o.
    assert (Ne : reduced <> [])
      by (destruct reduced; [cbn in L1; lia | discriminate]).
    assert (T : Forall (fun c => truthyStr c = true) reduced).
    { rewrite Forall_forall in *. intros c Hc.
      apply canonical_truthy. now apply Can. }
    destruct (reduction_spec now k s reduced w' I W Hk Hl R Ne T)
      as (_ & M & L & _).
    split; [fold s' in L; lia|].
    intros key c H. rewrite Forall_forall in Can.
    apply Can. apply (M key c H).
Qed.

Lemma applyColorReduction_recolours_witness :
  Z.of_nat (List.length
              (GemGrid.getAllColors
                 (Session.grid
                    (Session.applyColorReduction 5 (Some 1) paintedSession))))
  <= 1.
Proof.
  assert (I : Spec.historyInvariant (Session.grid paintedSession))
    by (unfold Spec.historyInvariant, Spec.len; cbn; lia).
  assert (W : Spec.wellFormed (GemGrid.gemColors (Session.grid paintedSession))).
  { unfold Spec.wellFormed. vm_compute.
    repeat constructor; simpl; intuition discriminate. }
  assert (Hash : Forall (fun color => Spec.beginsWithHash color = true)
                        (Js.values
                           (GemGrid.gemColors (Session.grid paintedSession)))).
  { vm_compute. repeat constructor. }
  destruct (applyColorReduction_recolours 5 paintedSession I W Hash)
    as (_ & _ & _ & P).
  apply (P 1).
  - lia.
  - vm_compute. reflexivity.
  - exact Logic.I.
Defined.

(* ================================================================== *)
(** ** Further properties: mapping an image to the grid *)
(* ================================================================== *)

Section Image.

Variables (pixels : list Z) (width height : Z) (palette : list string).
Hypothesis palette_not_empty : palette <> [].

Lemma processCell_shape gem counts col row :
  exists c,
    In c palette
    /\ Session.processCell pixels width height palette (gem, counts) (col, row)
       = (Js.set gem (cellKey col row) c,
          Js.set counts c (Js.getOr0 counts c + 1)).
Proof.
  unfold Session.processCell. cbv zeta.
  destruct (findClosestColor_member
              (ColorUtils.rgbToHex
                 (Session.pixelAt pixels
                    ((Z.min row (height - 1) * width + Z.min col (width - 1)) * 4))
                 (Session.pixelAt pixels
                    ((Z.min row (height - 1) * width + Z.min col (width - 1)) * 4 + 1))
                 (Session.pixelAt pixels
                    ((Z.min row (height - 1) * width + Z.min col (width - 1)) * 4 + 2)))
              palette palette_not_empty) as (c & E & I).
  exists c. split; [exact I|]. now rewrite E.
Qed.

(** A key that holds a palette colour, and counts whose keys are palette
    colours. *)
Lemma processCell_keeps acc cell key :
  (exists c, Js.get (fst acc) key = Some c /\ In c palette) ->
  exists c,
    Js.get (fst (Session.processCell pixels width height palette acc cell)) key
    = Some c /\ In c palette.
Proof.
  destruct acc as [gem counts], cell as [col row]. cbn [fst].
  intros (c & G & I).
  destruct (processCell_shape gem counts col row) as (c' & I' & ->).
  cbn [fst].
  destruct (string_dec key (cellKey col row)) as [->|Ne].
  - exists c'. split; [apply get_set_same | exact I'].
  - exists c. split; [|exact I]. now rewrite get_set_other.
Qed.

Lemma processCells_keep cells :
  forall acc key,
    (exists c, Js.get (fst acc) key = Some c /\ In c palette) ->
    exists c,
      Js.get (fst (fold_left (Session.processCell pixels width height palette)
                             cells acc)) key
      = Some c /\ In c palette.
Proof.
  induction cells as [|cell cells IH]; intros acc key H; [exact H|].
  cbn [fold_left]. apply IH. now apply processCell_keeps.
Qed.

Lemma processCells_cells cells :
  forall acc col row,
    In (col, row) cells ->
    exists c,
      Js.get (fst (fold_left (Session.processCell pixels width height palette)
                             cells acc)) (cellKey col row)
      = Some c /\ In c palette.
Proof.
  induction cells as [|cell cells IH]; intros acc col row H; [destruct H|].
  cbn [fold_left]. destruct H as [->|H].
  - apply processCells_keep. destruct acc as [gem counts].
    destruct (processCell_shape gem counts col row) as (c & I & ->).
    cbn [fst]. exists c. split; [apply get_set_same | exact I].
  - now apply IH.
Qed.

Lemma processCells_others cells :
  forall acc key,
    (forall col row, In (col, row) cells -> cellKey col row <> key) ->
    Js.get (fst (fold_left (Session.processCell pixels width height palette)
                           cells acc)) key
    = Js.get (fst acc) key.
Proof.
  induction cells as [|[col row] cells IH]; intros acc key H; [reflexivity|].
  cbn [fold_left]. rewrite IH by (intros c0 r0 I; apply H; now right).
  destruct acc as [gem counts].
  destruct (processCell_shape gem counts col row) as (c & I & ->).
  cbn [fst]. apply get_set_other. intros ->. apply (H col row); [now left|].
  reflexivity.
Qed.

Lemma set_keys_incl {V} (o : Js.obj V) k v (P : string -> Prop) :
  P k -> (forall x, In x (map fst o) -> P x) ->
  forall x, In x (map fst (Js.set o k v)) -> P x.
Proof.
  intros Pk Po x Hx.
  destruct (Js.get o k) as [v0|] eqn:G.
  - rewrite (set_keys_present o k v v0 G) in Hx. now apply Po.
  - rewrite (set_keys_new o k v G) in Hx. apply in_app_iff in Hx.
    destruct Hx as [Hx|[<-|[]]]; [now apply Po | exact Pk].
Qed.

Lemma processCells_counts cells :
  forall acc : Js.obj string * Js.obj Z,
    (forall c, In c (map fst (snd acc)) -> In c palette) ->
    (forall c, In c (map fst (snd (fold_left
                                     (Session.processCell pixels width height palette)
                                     cells acc))) -> In c palette)
    /\ (cells <> [] \/ snd acc <> [] ->
        snd (fold_left (Session.processCell pixels width height palette)
                       cells acc) <> []).
Proof.
  induction cells as [|[col row] cells IH]; intros acc H.
  - split; [exact H|]. intros [N|N]; [congruence | exact N].
  - cbn [fold_left]. destruct acc as [gem counts].
    destruct (processCell_shape gem counts col row) as (c & I & E).
    rewrite E.
    destruct (IH (Js.set gem (cellKey col row) c,
                  Js.set counts c (Js.getOr0 counts c + 1))) as [A B].
    + cbn [snd]. apply set_keys_incl; [exact I | exact H].
    + split; [exact A|]. intros _. apply B. right. cbn [snd].
      destruct (set_length counts c (Js.getOr0 counts c + 1)) as [_ L].
      intros Z0. rewrite Z0 in L. cbn in L. lia.
Qed.

End Image.

Section ImageSession.

Lemma extractTopColors_length counts :
  List.length (ColorPalette.extractTopColors counts) = 10%nat.
Proof.
  unfold ColorPalette.extractTopColors.
  rewrite slice0_firstn by lia.
  rewrite length_firstn, length_app, repeat_length. lia.
Qed.

Lemma keys_incl {V} (o : Js.obj V) (P : string -> Prop) :
  (forall x, In x (map fst o) -> P x) -> forall x, In x (Js.keys o) -> P x.
Proof.
  intros H x Hx. apply H.
  eapply Permutation_in; [apply keys_perm | exact Hx].
Qed.

(** The cells and the counts that [processImage] computes. *)
Lemma processImage_fields now pixels s :
  let g := Session.grid s in
  let acc := fold_left (Session.processCell pixels (GemGrid.cols g)
                                            (GemGrid.rows g)
                                            (Session.fullPalette s))
                       (cellsOf (GemGrid.cols g) (GemGrid.rows g))
                       (GemGrid.gemColors g, []) in
  let s' := Session.processImage now pixels s in
  Session.grid s'
  = GemGrid.saveState now (GemGrid.withColors g (fst acc))
  /\ Session.colors s' = ColorPalette.extractTopColors (snd acc)
  /\ Session.fullPalette s' = Session.fullPalette s
  /\ ColorUtils.originalImageColors (Session.window s')
     = Some (Js.keys (snd acc))
  /\ ColorUtils.colorPaletteOriginalImageColors (Session.window s')
     = Some (snd acc)
  /\ ColorUtils.firstImagePalette (Session.window s')
     = Some (match ColorUtils.firstImagePalette (Session.window s) with
             | Some p => p
             | None => Js.keys (snd acc)
             end)
  /\ ColorUtils.firstImagePaletteCounts (Session.window s')
     = Some (match ColorUtils.firstImagePaletteCounts (Session.window s) with
             | Some c => c
             | None => snd acc
             end).
Proof.
  intros g acc s'. unfold s', Session.processImage. fold g. cbv zeta.
  fold acc. destruct acc as [gem counts]. cbn [fst snd].
  cbn [Session.grid Session.colors Session.fullPalette Session.window
       ColorUtils.originalImageColors ColorUtils.colorPaletteOriginalImageColors
       ColorUtils.firstImagePalette ColorUtils.firstImagePaletteCounts].
  repeat split; try reflexivity.
  - destruct (ColorUtils.firstImagePalette (Session.window s)); reflexivity.
  - destruct (ColorUtils.firstImagePaletteCounts (Session.window s));
      reflexivity.
Qed.

End ImageSession.

(** X20. [processImage] on the pixel buffer of the canvas, with a palette that
    is loaded (not empty): every cell of the extent ends on a colour of
    the full palette and no other key is touched; the colours recorded
    for later reductions are colours of the full palette; the palette
    shown has ten entries; and the snapshot pushed afterwards holds the
    new cells. *)
Theorem processImage_maps_to_palette :
  forall (now : Z) (pixels : list Z) (s : Session.t),
    Session.fullPalette s <> [] ->
    Spec.historyInvariant (Session.grid s) ->
    List.length pixels
    = Z.to_nat (4 * GemGrid.cols (Session.grid s) * GemGrid.rows (Session.grid s)) ->
    Forall Spec.channel pixels ->
    let s' := Session.processImage now pixels s in
    (forall col row,
        GemGrid.isValidCell (Session.grid s) col row = true ->
        exists c,
          Js.get (GemGrid.gemColors (Session.grid s')) (cellKey col row) = Some c
          /\ In c (Session.fullPalette s))
    /\ (forall key,
           (forall col row, GemGrid.isValidCell (Session.grid s) col row = true ->
                            cellKey col row <> key) ->
           Js.get (GemGrid.gemColors (Session.grid s')) key
           = Js.get (GemGrid.gemColors (Session.grid s)) key)
    /\ (exists counts,
           ColorUtils.originalImageColors (Session.window s')
           = Some (Js.keys counts)
           /\ ColorUtils.colorPaletteOriginalImageColors (Session.window s')
              = Some counts
           /\ incl (Js.keys counts) (Session.fullPalette s)
           /\ Session.colors s' = ColorPalette.extractTopColors counts)
    /\ List.length (Session.colors s') = 10%nat
    /\ GemGrid.at_ (GemGrid.history (Session.grid s'))
                   (GemGrid.historyIndex (Session.grid s'))
       = Some {| GemGrid.snapGemColors := GemGrid.gemColors (Session.grid s');
                 GemGrid.timestamp := now |}
    /\ GemGrid.cols (Session.grid s') = GemGrid.cols (Session.grid s)
    /\ GemGrid.rows (Session.grid s') = GemGrid.rows (Session.grid s).
Proof.
  intros now pixels s Ne I _ _ s'.
  destruct (processImage_fields now pixels s)
    as (Eg & Ec & _ & Eo & Ep & _ & _).
  fold s' in Eg, Ec, Eo, Ep.
  set (g := Session.grid s) in *.
  set (acc := fold_left _ _ _) in *.
  assert (Em : GemGrid.gemColors (Session.grid s') = fst acc)
    by (rewrite Eg; apply saveState_colors).
  split; [|split; [|split; [|split; [|split]]]].
  - intros col row V. rewrite Em.
    apply (processCells_cells pixels _ _ _ Ne).
    apply cellsOf_In. now apply isValidCell_spec.
  - intros key Hk. rewrite Em.
    unfold acc. rewrite (processCells_others pixels _ _ _ Ne); [reflexivity|].
    intros col row Hin. apply Hk. apply isValidCell_spec.
    now apply cellsOf_In.
  - exists (snd acc). split; [exact Eo|]. split; [exact Ep|].
    split; [|exact Ec].
    intros c Hc. revert c Hc. apply keys_incl.
    apply (processCells_counts pixels _ _ _ Ne). intros c [].
  - rewrite Ec. apply extractTopColors_length.
  - rewrite Em, Eg.
    rewrite saveState_top
      by (apply (invariant_fields g); [reflexivity | reflexivity | exact I]).
    reflexivity.
  - rewrite Eg.
    destruct (saveState_extent now (GemGrid.withColors g (fst acc)))
      as (-> & -> & _).
    split; reflexivity.
Qed.

Lemma processImage_maps_to_palette_witness :
  exists c,
    Js.get (GemGrid.gemColors
              (Session.grid (Session.processImage 9 pixels2x2 paintedSession)))
           (cellKey 1 1) = Some c
    /\ In c (Session.fullPalette paintedSession).
Proof.
  assert (I : Spec.historyInvariant (Session.grid paintedSession))
    by (unfold Spec.historyInvariant, Spec.len; cbn; lia).
  assert (F : Forall Spec.channel pixels2x2)
    by (repeat constructor; unfold Spec.channel; lia).
  assert (N : Session.fullPalette paintedSession <> []) by discriminate.
  destruct (processImage_maps_to_palette 9 pixels2x2 paintedSession
                                         N I eq_refl F) as (P & _).
  apply P. reflexivity.
Defined.

(** X21. After [processImage] has mapped a first image (no first-image palette
    was recorded before, the palette is loaded and the grid has cells),
    [reduceColors] of the k-means revision no longer clusters: for every
    list of more than [k] colours it returns at most [k] colours, all
    taken from the full palette, and leaves the globals alone; mapping
    further images does not replace the recorded first-image palette. *)
Theorem processImage_then_reduceColors :
  forall (now : Z) (pixels : list Z) (s : Session.t) (colors : list string)
         (k : Z),
    Session.fullPalette s <> [] ->
    0 < GemGrid.cols (Session.grid s) ->
    0 < GemGrid.rows (Session.grid s) ->
    List.length pixels
    = Z.to_nat (4 * GemGrid.cols (Session.grid s) * GemGrid.rows (Session.grid s)) ->
    Forall Spec.channel pixels ->
    ColorUtils.firstImagePalette (Session.window s) = None ->
    ColorUtils.firstImagePaletteCounts (Session.window s) = None ->
    0 <= k -> k < Z.of_nat (List.length colors) ->
    let s' := Session.processImage now pixels s in
    exists res,
      ColorUtils.reduceColors (Session.window s') colors k
      = (Some res, Session.window s')
      /\ incl res (Session.fullPalette s)
      /\ Z.of_nat (List.length res) <= k
      /\ (forall now' pixels',
             ColorUtils.firstImagePalette
               (Session.window (Session.processImage now' pixels' s'))
             = ColorUtils.firstImagePalette (Session.window s')).
Proof.
  intros now pixels s colors k Ne Hc Hr _ _ F1 F2 Hk Hl s'.
  destruct (processImage_fields now pixels s)
    as (_ & _ & _ & _ & _ & Ef & Ec).
  fold s' in Ef, Ec. rewrite F1 in Ef. rewrite F2 in Ec.
  set (g := Session.grid s) in *.
  set (acc := fold_left _ _ _) in *.
  assert (Cells : cellsOf (GemGrid.cols g) (GemGrid.rows g) <> []).
  { intros Z0. assert (X : In (0, 0) (cellsOf (GemGrid.cols g) (GemGrid.rows g)))
      by (apply cellsOf_In; lia).
    rewrite Z0 in X. destruct X. }
  destruct (processCells_counts pixels (GemGrid.cols g) (GemGrid.rows g)
                                (Session.fullPalette s) Ne
                                (cellsOf (GemGrid.cols g) (GemGrid.rows g))
                                (GemGrid.gemColors g, []))
    as [A B]; [intros c []|].
  fold acc in A, B.
  assert (Kn : Js.keys (snd acc) <> []).
  { intros Z0. apply B; [now left|].
    pose proof (keys_length (snd acc)) as L. rewrite Z0 in L.
    destruct (snd acc); [reflexivity | discriminate L]. }
  destruct (Js.keys (snd acc)) as [|p ps] eqn:K; [congruence|].
  destruct (reduceColors_first_palette (Session.window s') colors k p ps
                                       (snd acc) Hk Hl Ef Ec) as [R L].
  eexists. split; [exact R|]. split; [|split].
  - intros c Hc'. apply A.
    assert (Ik : In c (Js.keys (snd acc))).
    { rewrite K. eapply Permutation_in; [apply sort_perm|].
      rewrite <- (firstn_skipn (Z.to_nat k) (Js.sort _ (p :: ps))).
      apply in_app_iff. left. exact Hc'. }
    eapply Permutation_in; [apply keys_perm | exact Ik].
  - rewrite L. lia.
  - intros now' pixels'.
    destruct (processImage_fields now' pixels' s')
      as (_ & _ & _ & _ & _ & Ef' & _).
    rewrite Ef', Ef. reflexivity.
Qed.

Lemma processImage_then_reduceColors_witness :
  exists res,
    ColorUtils.reduceColors
      (Session.window (Session.processImage 9 pixels2x2 paintedSession))
      threeColors 1
    = (Some res, Session.window (Session.processImage 9 pixels2x2 paintedSession))
    /\ incl res (Session.fullPalette paintedSession)
    /\ Z.of_nat (List.length res) <= 1
    /\ (forall now' pixels',
           ColorUtils.firstImagePalette
             (Session.window
                (Session.processImage
                   now' pixels'
                   (Session.processImage 9 pixels2x2 paintedSession)))
           = ColorUtils.firstImagePalette
               (Session.window (Session.processImage 9 pixels2x2 paintedSession))).
Proof.
  assert (F : Forall Spec.channel pixels2x2)
    by (repeat constructor; unfold Spec.channel; lia).
  assert (N : Session.fullPalette paintedSession <> []) by discriminate.
  apply (processImage_then_reduceColors 9 pixels2x2 paintedSession threeColors 1
                                        N eq_refl eq_refl eq_refl F
                                        eq_refl eq_refl).
  - lia.
  - cbn. lia.
Defined.

(** X22. [applyColorReduction] with the [ColorUtils] of js/colorUtils2.js, on a
    grid whose cell colours all begin with [#] and that shows more than
    [k] colours: [reduceColors] keeps [k] of
    the colours of the grid and invents none, every cell is recoloured to
    the closest kept colour, so the grid then shows at most [k] colours,
    all of them colours it showed before; on a grid of canonical colours
    a cell whose colour is kept does not change. The colours before the
    reduction are on top of the history, and the globals are not
    touched. *)
Theorem applyColorReduction2_keeps_colours :
  forall (now k : Z) (s : Session.t),
    Spec.historyInvariant (Session.grid s) ->
    Spec.wellFormed (GemGrid.gemColors (Session.grid s)) ->
    Forall (fun color => Spec.beginsWithHash color = true)
           (Js.values (GemGrid.gemColors (Session.grid s))) ->
    1 <= k ->
    k < Z.of_nat (List.length (GemGrid.getAllColors (Session.grid s))) ->
    let used := GemGrid.getAllColors (Session.grid s) in
    let s' := Session.applyColorReduction2 now (Some k) s in
    exists reduced,
      ColorUtils2.reduceColors used k = Some reduced
      /\ Z.of_nat (List.length reduced) = k
      /\ NoDup reduced
      /\ incl reduced used
      /\ (forall key,
             Js.get (GemGrid.gemColors (Session.grid s')) key
             = match Js.get (GemGrid.gemColors (Session.grid s)) key with
               | Some old => ColorUtils.findClosestColor old reduced
               | None => None
               end)
      /\ (forall key c,
             Js.get (GemGrid.gemColors (Session.grid s')) key = Some c ->
             In c reduced)
      /\ Z.of_nat (List.length (GemGrid.getAllColors (Session.grid s'))) <= k
      /\ (Forall (fun c => Spec.isCanonical c = true) used ->
          forall key c,
            Js.get (GemGrid.gemColors (Session.grid s)) key = Some c ->
            In c reduced ->
            Js.get (GemGrid.gemColors (Session.grid s')) key = Some c)
      /\ Session.colors s' = ColorPalette.ensureTen reduced
      /\ Session.window s' = Session.window s
      /\ GemGrid.at_ (GemGrid.history (Session.grid s'))
                     (GemGrid.historyIndex (Session.grid s'))
         = Some (Spec.snapshotOf now (Session.grid s)).
Proof.
  intros now k s I W Hash Hk Hl used s'.
  assert (Tr : forall key c,
             Js.get (GemGrid.gemColors (Session.grid s)) key = Some c ->
             truthyStr c = true).
  { intros key c G. rewrite Forall_forall in Hash.
    assert (B : Spec.beginsWithHash c = true).
    { apply Hash. apply values_In. exists key. now apply get_In. }
    destruct c; [discriminate B | reflexivity]. }
  destruct (reduceColors2_length used k Hk (getAllColors_NoDup _)) as [_ P].
  destruct (P Hl) as (reduced & R & L & N & Inc).
  assert (Ne : reduced <> [])
    by (destruct reduced; [cbn in L; lia | discriminate]).
  assert (T : Forall (fun c => truthyStr c = true) reduced).
  { apply Forall_forall. intros c Hc. apply Inc in Hc.
    apply getAllColors_In in Hc. destruct Hc as (key & Hin).
    apply (Tr key). now apply In_get. }
  destruct (recolour_spec now (Session.grid s) reduced I W Ne T)
    as (G & M & Le & A).
  assert (E : s' = _) by (apply (reduction2_unfold now k s reduced Hk Hl R)).
  exists reduced. rewrite E. cbn [Session.grid Session.colors Session.window].
  split; [exact R|]. split; [exact L|]. split; [exact N|].
  split; [exact Inc|]. split; [exact G|]. split; [exact M|].
  split; [lia|]. split.
  - intros Can key c Gc Ic. rewrite G, Gc.
    destruct (closest_exact c reduced) as (c' & Ec & _ & _ & Same).
    { exists c. split; [exact Ic | reflexivity]. }
    rewrite Ec. f_equal. rewrite Forall_forall in Can. apply Same.
    + apply Can, Inc, Ic.
    + apply Forall_forall. intros q Hq. apply Can, Inc, Hq.
  - split; [reflexivity|]. split; [reflexivity | exact A].
Qed.

Lemma applyColorReduction2_keeps_colours_witness :
  Z.of_nat (List.length
              (GemGrid.getAllColors
                 (Session.grid
                    (Session.applyColorReduction2 5 (Some 1) paintedSession))))
  <= 1.
Proof.
  assert (I : Spec.historyInvariant (Session.grid paintedSession))
    by (unfold Spec.historyInvariant, Spec.len; cbn; lia).
  assert (W : Spec.wellFormed (GemGrid.gemColors (Session.grid paintedSession))).
  { unfold Spec.wellFormed. vm_compute.
    repeat constructor; simpl; intuition discriminate. }
  assert (T : Forall (fun color => Spec.beginsWithHash color = true)
                     (Js.values
                        (GemGrid.gemColors (Session.grid paintedSession)))).
  { vm_compute. repeat constructor. }
  assert (H1 : 1 <= 1) by lia.
  assert (H2 : 1 < Z.of_nat (List.length
                               (GemGrid.getAllColors (Session.grid paintedSession))))
    by (vm_compute; reflexivity).
  destruct (applyColorReduction2_keeps_colours 5 1 paintedSession I W T H1 H2)
    as (reduced & _ & _ & _ & _ & _ & _ & P & _).
  exact P.
Defined.

(* ================================================================== *)
(** ** Further properties: undoing an edit *)
(* ================================================================== *)

Section EditHistory.

Lemma edit_fields now color g :
  GemGrid.selectedCells g <> [] ->
  GemGrid.history (GemGrid.applyColorToSelection now color g)
  = GemGrid.history (GemGrid.saveState now g)
  /\ GemGrid.historyIndex (GemGrid.applyColorToSelection now color g)
     = GemGrid.historyIndex (GemGrid.saveState now g).
Proof.
  intros Ne. unfold GemGrid.applyColorToSelection.
  destruct (GemGrid.selectedCells g); [congruence|]. split; reflexivity.
Qed.

End EditHistory.



(* ================================================================== *)
(** ** Further properties: the palette branch of the first revision *)
(* ================================================================== *)

Section PaletteBranch.

Lemma fill_done fuel k palette res :
  (Z.of_nat (List.length res) <? k)
  && (List.length res <? List.length palette)%nat = false ->
  ColorUtils1.fill fuel k palette res = Some res.
Proof. intros H. destruct fuel; cbn [ColorUtils1.fill]; now rewrite H. Qed.

Lemma fill_step fuel k palette res :
  (Z.of_nat (List.length res) <? k)
  && (List.length res <? List.length palette)%nat = true ->
  ColorUtils1.fill (S fuel) k palette res
  = ColorUtils1.fill fuel k palette
      (if existsb (String.eqb (nth (List.length res) palette EmptyString)) res
       then res
       else res ++ [nth (List.length res) palette EmptyString]).
Proof. intros H. cbn [ColorUtils1.fill]. now rewrite H. Qed.

(** A pass that finds its colour already present changes nothing. *)
Lemma fill_stuck k palette res :
  Z.of_nat (List.length res) < k ->
  (List.length res < List.length palette)%nat ->
  In (nth (List.length res) palette EmptyString) res ->
  forall fuel, ColorUtils1.fill fuel k palette res = None.
Proof.
  intros Hk Hp Hin.
  assert (G : (Z.of_nat (List.length res) <? k)
              && (List.length res <? List.length palette)%nat = true).
  { apply andb_true_intro. split; [apply Z.ltb_lt | apply Nat.ltb_lt];
      assumption. }
  apply existsb_eqb_In in Hin.
  induction fuel as [|fuel IH].
  - cbn [ColorUtils1.fill]. now rewrite G.
  - rewrite fill_step by exact G. now rewrite Hin.
Qed.

(** The loop either returns, within as many passes as the palette has
    entries left, or never returns. *)
Lemma fill_dichotomy k palette :
  forall (d : nat) (res : list string),
    (List.length palette - List.length res <= d)%nat ->
    (exists out,
        (forall fuel, (List.length palette - List.length res <= fuel)%nat ->
                      ColorUtils1.fill fuel k palette res = Some out)
        /\ (exists added, out = res ++ added /\ incl added palette)
        /\ (Z.of_nat (List.length res)
            <= Z.min k (Z.of_nat (List.length palette)) ->
            Z.of_nat (List.length out)
            = Z.min k (Z.of_nat (List.length palette))))
    \/ (forall fuel, ColorUtils1.fill fuel k palette res = None).
Proof.
  induction d as [|d IH]; intros res Hd.
  - left. exists res.
    assert (G : (Z.of_nat (List.length res) <? k)
                && (List.length res <? List.length palette)%nat = false).
    { apply andb_false_iff. right. apply Nat.ltb_ge. lia. }
    split; [intros fuel _; now apply fill_done|].
    split; [exists []; split; [now rewrite app_nil_r | intros x []]|].
    lia.
  - destruct ((Z.of_nat (List.length res) <? k)
              && (List.length res <? List.length palette)%nat) eqn:G.
    + apply andb_prop in G. destruct G as [Gk Gp].
      apply Z.ltb_lt in Gk. apply Nat.ltb_lt in Gp.
      set (c := nth (List.length res) palette EmptyString).
      destruct (existsb (String.eqb c) res) eqn:E.
      * right. apply fill_stuck; try assumption.
        now apply existsb_eqb_In.
      * assert (G : (Z.of_nat (List.length res) <? k)
                    && (List.length res <? List.length palette)%nat = true).
        { apply andb_true_intro.
          split; [apply Z.ltb_lt | apply Nat.ltb_lt]; assumption. }
        assert (L1 : List.length (res ++ [c]) = S (List.length res))
          by (rewrite length_app; cbn [List.length]; lia).
        destruct (IH (res ++ [c])) as [(out & F & (added & Ea & Ia) & Lo)|N];
          [lia| |].
        -- left. exists out. split; [|split].
           ++ intros fuel Hf. destruct fuel as [|fuel]; [lia|].
              rewrite fill_step by exact G. fold c. rewrite E.
              apply F. lia.
           ++ exists (c :: added). split; [now rewrite Ea, <- app_assoc|].
              intros x [<-|Hx]; [apply nth_In; exact Gp | now apply Ia].
           ++ intros _. apply Lo. lia.
        -- right. intros fuel. destruct fuel as [|fuel].
           ++ cbn [ColorUtils1.fill]. now rewrite G.
           ++ rewrite fill_step by exact G. fold c. rewrite E. apply N.
    + left. exists res.
      split; [intros fuel _; now apply fill_done|].
      split; [exists []; split; [now rewrite app_nil_r | intros x []]|].
      intros Hle. apply andb_false_iff in G.
      destruct G as [G|G]; [apply Z.ltb_ge in G | apply Nat.ltb_ge in G]; lia.
Qed.

(** When every colour is closest to the same palette entry, the loop of
    lines 197-207 collects that entry alone. *)
Lemma collect_single k first rest target colors :
  1 < k ->
  (forall c, In c colors ->
             ColorUtils.findClosestColor c (first :: rest) = Some target) ->
  colors <> [] ->
  forall unique,
    unique = [] \/ unique = [target] ->
    ColorUtils1.collect k first rest colors unique = [target].
Proof.
  intros Hk Hc. induction colors as [|c colors IH]; intros Hne unique Hu;
    [congruence|].
  cbn [ColorUtils1.collect]. unfold ColorUtils1.closest.
  rewrite (Hc c) by now left.
  assert (Eu : Js.setAdd unique target = [target]).
  { destruct Hu as [->| ->]; unfold Js.setAdd; cbn [existsb].
    - reflexivity.
    - now rewrite String.eqb_refl. }
  rewrite Eu. cbn [List.length].
  destruct (k <=? Z.of_nat 1) eqn:E; [apply Z.leb_le in E; lia|].
  destruct colors as [|c' colors']; [reflexivity|].
  apply IH; [intros x Hx; apply Hc; now right | discriminate | now right].
Qed.

Lemma skipn_nth (l : list string) (n : nat) :
  (n < List.length l)%nat ->
  skipn n l = nth n l EmptyString :: skipn (S n) l.
Proof.
  revert n. induction l as [|x l IH]; intros n H; [cbn in H; lia|].
  destruct n as [|n]; [reflexivity|].
  cbn [skipn nth]. apply IH. cbn in H. lia.
Qed.

(** When the entries of the palette from the length of the result on are
    distinct and not yet in the result, the loop appends them in order
    until the result has [k] entries or as many as the palette. *)
Lemma fill_returns k palette :
  forall (d : nat) (res : list string),
    (List.length palette - List.length res <= d)%nat ->
    NoDup (skipn (List.length res) palette) ->
    (forall x, In x (skipn (List.length res) palette) -> ~ In x res) ->
    forall fuel,
      (List.length palette - List.length res <= fuel)%nat ->
      ColorUtils1.fill fuel k palette res
      = Some (res ++ firstn (Z.to_nat (Z.min k (Z.of_nat (List.length palette)))
                             - List.length res)
                            (skipn (List.length res) palette)).
Proof.
  induction d as [|d IH]; intros res Hd Nd Fresh fuel Hf.
  - rewrite fill_done by (apply andb_false_iff; right; apply Nat.ltb_ge; lia).
    replace (Z.to_nat (Z.min k (Z.of_nat (List.length palette)))
             - List.length res)%nat with 0%nat by lia.
    now rewrite firstn_0, app_nil_r.
  - destruct ((Z.of_nat (List.length res) <? k)
              && (List.length res <? List.length palette)%nat) eqn:G.
    + pose proof G as G'. apply andb_prop in G'. destruct G' as [Gk Gp].
      apply Z.ltb_lt in Gk. apply Nat.ltb_lt in Gp.
      rewrite (skipn_nth palette _ Gp) in Nd, Fresh |- *.
      set (c := nth (List.length res) palette EmptyString) in *.
      assert (E : existsb (String.eqb c) res = false).
      { destruct (existsb (String.eqb c) res) eqn:E; [|reflexivity].
        apply existsb_eqb_In in E. exfalso.
        apply (Fresh c); [now left | exact E]. }
      assert (L1 : List.length (res ++ [c]) = S (List.length res))
        by (rewrite length_app; cbn [List.length]; lia).
      destruct fuel as [|fuel]; [lia|].
      rewrite fill_step by exact G. fold c. rewrite E.
      inversion Nd as [|? ? Nc Nd']; subst.
      rewrite (IH (res ++ [c])); try lia.
      * rewrite L1, <- app_assoc. f_equal. cbn [app].
        replace (Z.to_nat (Z.min k (Z.of_nat (List.length palette)))
                 - List.length res)%nat
          with (S (Z.to_nat (Z.min k (Z.of_nat (List.length palette)))
                   - S (List.length res)))%nat by lia.
        reflexivity.
      * now rewrite L1.
      * rewrite L1. intros x Hx Hin. apply in_app_iff in Hin.
        destruct Hin as [Hin|[<-|[]]].
        -- apply (Fresh x); [now right | exact Hin].
        -- contradiction.
    + rewrite fill_done by exact G.
      replace (Z.to_nat (Z.min k (Z.of_nat (List.length palette)))
               - List.length res)%nat with 0%nat.
      * now rewrite firstn_0, app_nil_r.
      * apply andb_false_iff in G.
        destruct G as [G|G]; [apply Z.ltb_ge in G | apply Nat.ltb_ge in G]; lia.
Qed.

End PaletteBranch.

(** X24. The [while] loop that fills the result from the palette in the first
    revision of [reduceColors]: a pass that finds the palette entry at
    the index of the result's length already in the result changes
    nothing, so from such a state the loop never returns; in general the
    loop either returns, within as many passes as the palette has entries
    beyond the result, the result extended by palette entries up to [k]
    or the length of the palette, or it never returns; and it does return
    when the remaining palette entries are distinct and new. *)
Theorem fill_returns_or_hangs :
  forall (k : Z) (palette res : list string),
    (Z.of_nat (List.length res) < k ->
     (List.length res < List.length palette)%nat ->
     In (nth (List.length res) palette EmptyString) res ->
     forall fuel, ColorUtils1.fill fuel k palette res = None)
    /\ ((exists out,
            (forall fuel, (List.length palette - List.length res <= fuel)%nat ->
                          ColorUtils1.fill fuel k palette res = Some out)
            /\ (exists added, out = res ++ added /\ incl added palette)
            /\ (Z.of_nat (List.length res)
                <= Z.min k (Z.of_nat (List.length palette)) ->
                Z.of_nat (List.length out)
                = Z.min k (Z.of_nat (List.length palette))))
        \/ (forall fuel, ColorUtils1.fill fuel k palette res = None))
    /\ (NoDup (skipn (List.length res) palette) ->
        (forall x, In x (skipn (List.length res) palette) -> ~ In x res) ->
        forall fuel,
          (List.length palette - List.length res <= fuel)%nat ->
          ColorUtils1.fill fuel k palette res
          = Some (res ++ firstn (Z.to_nat (Z.min k (Z.of_nat (List.length palette)))
                                 - List.length res)
                                (skipn (List.length res) palette))).
Proof.
  intros k palette res. split; [|split].
  - apply fill_stuck.
  - apply (fill_dichotomy k palette (List.length palette - List.length res)).
    lia.
  - intros Nd Fresh fuel Hf.
    apply (fill_returns k palette (List.length palette - List.length res));
      (lia || assumption).
Qed.

Lemma fill_returns_or_hangs_witness :
  ColorUtils1.fill 7 3 ["#000000"; "#FF0000"; "#00FF00"]%string
                   ["#FF0000"%string] = None.
Proof.
  destruct (fill_returns_or_hangs 3 ["#000000"; "#FF0000"; "#00FF00"]%string
                                  ["#FF0000"%string]) as (P & _).
  apply P.
  - cbn. lia.
  - cbn. lia.
  - left. reflexivity.
Defined.

(** X25. The first revision of [reduceColors] never returns on these inputs:
    more than [k] colours with [k] above 1, a palette with at least two
    entries that are not white, and every input colour closest to the
    second of them. The colours collected are then that entry alone, and
    the loop that should fill the result up reads the same entry again,
    for ever. *)
Theorem reduceColors1_never_returns :
  forall (palette colors : list string) (k : Z) (first target : string)
         (rest : list string),
    1 < k -> k < Z.of_nat (List.length colors) ->
    filter (fun color => negb (String.eqb color "#FFFFFF")) palette
    = first :: target :: rest ->
    (forall c, In c colors ->
               ColorUtils.findClosestColor c (first :: target :: rest)
               = Some target) ->
    forall fuel,
      ColorUtils1.reduceColors fuel (Some palette) colors k
      = ColorUtils1.OutOfFuel.
Proof.
  intros palette colors k first target rest Hk Hl Fp Hc fuel.
  unfold ColorUtils1.reduceColors.
  destruct (Z.of_nat (List.length colors) <=? k) eqn:E;
    [apply Z.leb_le in E; lia|].
  destruct palette as [|p ps]; [discriminate Fp|].
  cbv zeta. rewrite Fp.
  assert (Ne : colors <> [])
    by (destruct colors; [cbn in Hl; lia | discriminate]).
  rewrite (collect_single k first (target :: rest) target colors)
    by (lia || assumption || now left).
  rewrite slice0_firstn by lia.
  assert (F1 : firstn (Z.to_nat k) [target] = [target]).
  { apply firstn_all2. cbn [List.length]. lia. }
  rewrite F1.
  rewrite (fill_stuck k (first :: target :: rest) [target]);
    [reflexivity | cbn; lia | cbn; lia | now left].
Qed.

Lemma reduceColors1_never_returns_witness :
  ColorUtils1.reduceColors
    1000
    (Some ("#000000" :: "#FF0000" :: repeat "#FFFFFF" 8)%string)
    ["#FF0000"; "#FE0000"; "#FD0000"]%string 2
  = ColorUtils1.OutOfFuel.
Proof.
  apply (reduceColors1_never_returns
           ("#000000" :: "#FF0000" :: repeat "#FFFFFF" 8)%string
           ["#FF0000"; "#FE0000"; "#FD0000"]%string 2
           "#000000" "#FF0000" []).
  - lia.
  - cbn. lia.
  - reflexivity.
  - intros c [<-|[<-|[<-|[]]]]; vm_compute; reflexivity.
Defined.

(* ================================================================== *)
(** ** Further properties: undo and redo of js/hexGrid.js *)
(* ================================================================== *)

Section HexHistory.

Lemma slice0_incl {A} (e : Z) (l : list A) : incl (Js.slice0 e l) l.
Proof.
  unfold Js.slice0. intros x Hx.
  destruct (e <? 0);
    match type of Hx with
    | In _ (firstn ?n _) =>
        rewrite <- (firstn_skipn n l); apply in_app_iff; now left
    end.
Qed.

Lemma Forall_incl {A} (P : A -> Prop) (l l' : list A) :
  incl l' l -> Forall P l -> Forall P l'.
Proof.
  intros I F. rewrite Forall_forall in *. intros x Hx. apply F, I, Hx.
Qed.

Lemma tl_incl {A} (l : list A) : incl (tl l) l.
Proof. destruct l; [apply incl_refl | apply incl_tl, incl_refl]. Qed.

Lemma hexSaveState_entries now g :
  Forall Spec.isHistoryEntry (HexGrid.history g) ->
  Forall Spec.isHistoryEntry (HexGrid.history (HexGrid.saveState now g)).
Proof.
  intros F. unfold HexGrid.saveState.
  set (kept := if HexGrid.historyIndex g
                  <? Z.of_nat (List.length (HexGrid.history g)) - 1
               then Js.slice0 (HexGrid.historyIndex g + 1) (HexGrid.history g)
               else HexGrid.history g).
  assert (Fk : Forall Spec.isHistoryEntry kept).
  { unfold kept. destruct (_ <? _); [|exact F].
    apply (Forall_incl _ (HexGrid.history g)); [apply slice0_incl | exact F]. }
  assert (Fp : Forall Spec.isHistoryEntry
                      (kept ++ [HexGrid.entry (HexGrid.hexColors g) now])).
  { apply Forall_app. split; [exact Fk|].
    constructor; [|constructor]. now exists (HexGrid.hexColors g), now. }
  cbv zeta. destruct (50 <? _); cbn [HexGrid.history HexGrid.withHistory].
  - apply (Forall_incl _ _ _ (tl_incl _) Fp).
  - exact Fp.
Qed.

End HexHistory.

(** X26. [undo] and [redo] of js/hexGrid.js never restore a map of cell
    colours. Every entry of the history is the wrapper
    [{hexColors, timestamp}] that [saveState] pushes, and stays one under
    [saveState] and [applyColorToSelection]; whenever [undo] or [redo]
    moves the cursor, what it stores as the colours of the grid is such a
    wrapper, whose own keys are [hexColors] and [timestamp], not the map
    under its key [hexColors]. *)
Theorem hexGrid_undo_stores_entry :
  forall g : HexGrid.t,
    Forall Spec.isHistoryEntry (HexGrid.history g) ->
    (forall now,
        Forall Spec.isHistoryEntry (HexGrid.history (HexGrid.saveState now g)))
    /\ (forall now color,
           Forall Spec.isHistoryEntry
                  (HexGrid.history (HexGrid.applyColorToSelection now color g)))
    /\ (0 < HexGrid.historyIndex g ->
        HexGrid.historyIndex g <= Z.of_nat (List.length (HexGrid.history g)) ->
        exists colorsCopy now,
          HexGrid.undo g
          = Normal (HexGrid.withColors
                      (HexGrid.withHistory g (HexGrid.history g)
                                           (HexGrid.historyIndex g - 1))
                      (HexGrid.entry colorsCopy now)))
    /\ (-1 <= HexGrid.historyIndex g ->
        HexGrid.historyIndex g < Z.of_nat (List.length (HexGrid.history g)) - 1 ->
        exists colorsCopy now,
          HexGrid.redo g
          = Normal (HexGrid.withColors
                      (HexGrid.withHistory g (HexGrid.history g)
                                           (HexGrid.historyIndex g + 1))
                      (HexGrid.entry colorsCopy now)))
    /\ (forall colorsCopy now,
           exists fields,
             HexGrid.entry colorsCopy now = JObj fields
             /\ map fst fields = ["hexColors"; "timestamp"]%string
             /\ Js.get fields "timestamp" = Some (JNum now)
             /\ Js.get fields "hexColors" = Some colorsCopy).
Proof.
  intros g F. split; [|split; [|split; [|split]]].
  - intros now. now apply hexSaveState_entries.
  - intros now color. unfold HexGrid.applyColorToSelection.
    destruct (HexGrid.selectedCells g); [exact F|].
    cbn [HexGrid.history HexGrid.withColors].
    now apply hexSaveState_entries.
  - intros P L. unfold HexGrid.undo.
    assert (E : (0 <? HexGrid.historyIndex g) = true) by (apply Z.ltb_lt; lia).
    rewrite E. cbv zeta. cbn [HexGrid.history HexGrid.historyIndex
                              HexGrid.withHistory].
    destruct (at_Some (HexGrid.history g) (HexGrid.historyIndex g - 1))
      as (e & A); [lia|].
    rewrite A.
    rewrite Forall_forall in F.
    destruct (F e (at_In _ _ _ A)) as (c & t & ->).
    now exists c, t.
  - intros P L. unfold HexGrid.redo.
    assert (E : (HexGrid.historyIndex g
                 <? Z.of_nat (List.length (HexGrid.history g)) - 1) = true)
      by (apply Z.ltb_lt; lia).
    rewrite E. cbv zeta. cbn [HexGrid.history HexGrid.historyIndex
                              HexGrid.withHistory].
    destruct (at_Some (HexGrid.history g) (HexGrid.historyIndex g + 1))
      as (e & A); [lia|].
    rewrite A.
    rewrite Forall_forall in F.
    destruct (F e (at_In _ _ _ A)) as (c & t & ->).
    now exists c, t.
  - intros c t. eexists. split; [reflexivity|]. repeat split.
Qed.

Lemma hexGrid_undo_stores_entry_witness :
  exists colorsCopy now,
    HexGrid.undo hexEdited2x2
    = Normal (HexGrid.withColors
                (HexGrid.withHistory hexEdited2x2
                                     (HexGrid.history hexEdited2x2)
                                     (HexGrid.historyIndex hexEdited2x2 - 1))
                (HexGrid.entry colorsCopy now)).
Proof.
  assert (F : Forall Spec.isHistoryEntry (HexGrid.history hexEdited2x2)).
  { repeat constructor; eexists; eexists; reflexivity. }
  destruct (hexGrid_undo_stores_entry hexEdited2x2 F) as (_ & _ & P & _).
  apply P; cbn; lia.
Defined.

(* ================================================================== *)
(** ** Further properties: saving and loading a project *)
(* ================================================================== *)

Section Project.

Lemma load_saved_cells now g h :
  let h' := GemGrid.loadFromJSON now (Some (GemGrid.saveToJSON g)) h in
  GemGrid.gemColors h' = GemGrid.gemColors g
  /\ GemGrid.selectedCells h' = [].
Proof.
  intros h'. unfold h', GemGrid.loadFromJSON, GemGrid.saveToJSON.
  cbn [dataCells dataCols dataRows]. cbv zeta.
  match goal with
  | |- context [GemGrid.saveState now ?x] =>
      destruct (saveState_extent now x) as (_ & _ & Es);
      pose proof (saveState_colors now x) as Em
  end.
  rewrite Es, Em. split; reflexivity.
Qed.

Lemma counts_of_cells g g' :
  GemGrid.gemColors g' = GemGrid.gemColors g ->
  GemGrid.getColorCounts g' = GemGrid.getColorCounts g.
Proof. unfold GemGrid.getColorCounts. now intros ->. Qed.

End Project.

(** X27. Saving a project and loading the file, into any session, brings
    back the cells of the grid, and with them the colours in use and the
    number shown for them, and empties the selection. The palette comes
    back as it was when it held ten canonical colours; in general every
    colour of the file is normalised without being validated and the
    list is cut or padded to ten. A file without a palette leaves the
    palette of the session as it is. *)
Theorem loadGrid_saveGrid :
  forall (now : Z) (s s0 : Session.t),
    let s' := Session.loadGrid now (Session.saveGrid s) s0 in
    GemGrid.gemColors (Session.grid s') = GemGrid.gemColors (Session.grid s)
    /\ GemGrid.getAllColors (Session.grid s')
       = GemGrid.getAllColors (Session.grid s)
    /\ Session.updateColorCountDisplay s' = Session.updateColorCountDisplay s
    /\ GemGrid.selectedCells (Session.grid s') = []
    /\ Session.colors s'
       = ColorPalette.ensureTen (map ColorUtils.normalizeHex (Session.colors s))
    /\ List.length (Session.colors s') = 10%nat
    /\ (List.length (Session.colors s) = 10%nat ->
        Forall (fun c => Spec.isCanonical c = true) (Session.colors s) ->
        Session.colors s' = Session.colors s)
    /\ (forall file,
           Session.filePalette file = None ->
           Session.colors (Session.loadGrid now file s0) = Session.colors s0).
Proof.
  intros now s s0 s'.
  destruct (load_saved_cells now (Session.grid s) (Session.grid s0)) as [Em Es].
  assert (Ec : Session.colors s'
               = ColorPalette.ensureTen
                   (map ColorUtils.normalizeHex (Session.colors s)))
    by reflexivity.
  split; [exact Em|]. split.
  - unfold GemGrid.getAllColors.
    change (GemGrid.gemColors (Session.grid s'))
      with (GemGrid.gemColors
              (GemGrid.loadFromJSON now
                 (Some (GemGrid.saveToJSON (Session.grid s))) (Session.grid s0))).
    now rewrite Em.
  - split.
    + unfold Session.updateColorCountDisplay. f_equal. f_equal.
      apply counts_of_cells. exact Em.
    + split; [exact Es|]. split; [exact Ec|].
      split; [rewrite Ec; apply ensureTen_length|]. split.
      * intros L C. rewrite Ec.
        assert (Mn : map ColorUtils.normalizeHex (Session.colors s)
                     = Session.colors s).
        { rewrite <- (map_id (Session.colors s)) at 2.
          apply map_ext_in. intros x Hx. rewrite Forall_forall in C.
          apply (normalizeHex_fixes_canonical x (C x Hx)). }
        rewrite Mn, ensureTen_shape, L. cbn [Nat.sub repeat].
        rewrite app_nil_r. apply firstn_all2. lia.
      * intros file Hp. unfold Session.loadGrid. cbn [Session.colors].
        now rewrite Hp.
Qed.

Lemma loadGrid_saveGrid_witness :
  Session.colors
    (Session.loadGrid 11 (Session.saveGrid paintedSession) paintedSession)
  = Session.colors paintedSession.
Proof.
  destruct (loadGrid_saveGrid 11 paintedSession paintedSession)
    as (_ & _ & _ & _ & _ & _ & P & _).
  apply P.
  - reflexivity.
  - repeat constructor.
Defined.
